(** * Portfolio builder: wizard state controller and document generator

    A shallow embedding of the portfolio-builder part of [script.js] (lines
    1750-2137: the script variables [portfolioCurrentStep] to
    [portfolioProjectCount] and the functions from [openPortfolioModal] to
    [generatePortfolioHTML]) and of the manager of the site in the same file
    (the validation of the forms, the menu, the navigation, the certificate
    cards, the typewriter, [throttle] and [debounce]), followed by the
    properties proved about them.

    Layout.
    - [JS]: strings, white space, arrays.
    - [Generator]: the text built by [generatePortfolioHTML] (lines
      1986-2094), a function of the snapshot.
    - [Wizard]: the script variables, the page, the browser around it, and
      the functions of the script as state transformers that may throw.
    - [Text], [Blocks], [Session], [Invariants] and the two modules of
      instances: the vocabulary of the properties.
    - [RegExp], [Forms]: the two regular expressions of the script, matched
      by backtracking, and the validation of the contact form.
    - [Site]: the elements the manager of the site reads and writes, and its
      methods as state transformers that may throw.
    - [Typewriter], [Timing]: the closures of [initTypewriter], [throttle]
      and [debounce], a call at a time, with the timers they set.
    - [Plain], [Displays]: more vocabulary.
    - [TextFacts], [GeneratorFacts], [WizardFacts], [FormFacts],
      [BuilderFacts], [SiteFacts], [TypewriterFacts], [TimingFacts]: the
      properties.

    Conventions.
    - A JavaScript string is modelled by the bytes of its UTF-8 encoding
      (the bytes a downloaded [text/html] blob holds); Rocq's [string] is a
      list of bytes, so the pictographs of the templates are kept as they are.
    - JavaScript string literals that contain a double quote are written with
      a backquote in its place and passed through [html], which puts the
      double quote back.  No template of the script contains a backquote.
    - Numbers that the script only counts with are integers ([Z]).
    - The markup of the page is not part of the script.  The page is a
      parameter: which elements exist, which sections carry which [data-step]
      and which controls are marked [required] is whatever the page says.  A
      property read on the [null] that [getElementById] or [querySelector]
      returns for a missing element throws, here as in the browser. *)

From Stdlib Require Import List String Ascii ZArith Lia Bool Arith.
From Stdlib Require Import DecimalString.
Import ListNotations.

Local Open Scope list_scope.
Local Open Scope string_scope.

(** ** JavaScript strings and arrays *)

Module JS.

(** The double quote and the backquote, by code. *)
Definition dquote : ascii := ascii_of_nat 34.
Definition bquote : ascii := ascii_of_nat 96.

(** [html s] is [s] with every backquote replaced by a double quote. *)
Fixpoint html (s : string) : string :=
  match s with
  | EmptyString => EmptyString
  | String c s' => String (if Ascii.eqb c bquote then dquote else c) (html s')
  end.

(** ToBoolean on a string: only the empty string is falsy. *)
Definition truthy (s : string) : bool :=
  match s with
  | EmptyString => false
  | String _ _ => true
  end.

(** ToBoolean on a value that is a string or [null]. *)
Definition truthy_opt (v : option string) : bool :=
  match v with
  | Some s => truthy s
  | None => false
  end.

(** Values as far as the generator meets them: a string or [undefined]. *)
Inductive value : Type :=
| Str (s : string)
| Undefined.

(** ToString, as applied by [+] when the other operand is a string. *)
Definition ToString (v : value) : string :=
  match v with
  | Str s => s
  | Undefined => "undefined"
  end.

(** *** White space

    [String.prototype.trim] and the regular expression class [\s] share one
    set: TAB, LF, VT, FF, CR, SPACE, U+00A0, U+1680, U+2000..U+200A, U+2028,
    U+2029, U+202F, U+205F, U+3000 and U+FEFF.  In UTF-8 these take one, two
    or three bytes. *)

Definition code (c : ascii) : N := N_of_ascii c.

Definition ws1 (a : N) : bool :=
  ((9 <=? a) && (a <=? 13) || (a =? 32))%N.

Definition ws2 (a b : N) : bool :=
  ((a =? 194) && (b =? 160))%N.

Definition ws3 (a b c : N) : bool :=
  ((a =? 225) && (b =? 154) && (c =? 128)
   || (a =? 226) && (b =? 128)
      && ((128 <=? c) && (c <=? 138) || (c =? 168) || (c =? 169) || (c =? 175))
   || (a =? 226) && (b =? 129) && (c =? 159)
   || (a =? 227) && (b =? 128) && (c =? 128)
   || (a =? 239) && (b =? 187) && (c =? 191))%N.

(** Number of bytes of the white-space character [s] starts with, 0 if it
    starts with none. *)
Definition ws_len (s : string) : nat :=
  match s with
  | String a r =>
      if ws1 (code a) then 1
      else match r with
           | String b r' =>
               if ws2 (code a) (code b) then 2
               else match r' with
                    | String c _ => if ws3 (code a) (code b) (code c) then 3 else 0
                    | EmptyString => 0
                    end
           | EmptyString => 0
           end
  | EmptyString => 0
  end.

(** The same, reading a reversed string (last byte first). *)
Definition ws_len_rev (s : string) : nat :=
  match s with
  | String c r =>
      if ws1 (code c) then 1
      else match r with
           | String b r' =>
               if ws2 (code b) (code c) then 2
               else match r' with
                    | String a _ => if ws3 (code a) (code b) (code c) then 3 else 0
                    | EmptyString => 0
                    end
           | EmptyString => 0
           end
  | EmptyString => 0
  end.

(** Drops leading white space as measured by [len]; [skip] counts the bytes
    of the current white-space character still to drop. *)
Fixpoint drop_ws (len : string -> nat) (skip : nat) (s : string) : string :=
  match s with
  | EmptyString => EmptyString
  | String _ s' =>
      match skip with
      | S k => drop_ws len k s'
      | O => match len s with
             | O => s
             | S k => drop_ws len k s'
             end
      end
  end.

Fixpoint rev_append (s acc : string) : string :=
  match s with
  | EmptyString => acc
  | String c s' => rev_append s' (String c acc)
  end.

Definition rev (s : string) : string := rev_append s EmptyString.

Definition trimStart (s : string) : string := drop_ws ws_len 0 s.
Definition trimEnd (s : string) : string := rev (drop_ws ws_len_rev 0 (rev s)).

(** [s.trim()] *)
Definition trim (s : string) : string := trimEnd (trimStart s).

(** [s.replace(/\s+/g, r)]: every maximal run of white space becomes [r]. *)
Fixpoint replace_ws_runs (r : string) (skip : nat) (in_run : bool) (s : string) : string :=
  match s with
  | EmptyString => EmptyString
  | String c s' =>
      match skip with
      | S k => replace_ws_runs r k in_run s'
      | O => match ws_len s with
             | O => String c (replace_ws_runs r 0 false s')
             | S k => if in_run then replace_ws_runs r k true s'
                      else r ++ replace_ws_runs r k true s'
             end
      end
  end.

(** Number to string, for the integers the script prints. *)
Definition string_of_Z (z : Z) : string := NilZero.string_of_int (Z.to_int z).
Definition string_of_nat (n : nat) : string := NilZero.string_of_uint (Nat.to_uint n).

(** *** Arrays *)

(** [l.indexOf(x)] on an array of strings: the first index holding [x]
    (strict equality), or -1. *)
Fixpoint indexOf_from (i : Z) (x : string) (l : list string) : Z :=
  match l with
  | [] => (-1)%Z
  | y :: l' => if String.eqb y x then i else indexOf_from (i + 1)%Z x l'
  end.

Definition indexOf (x : string) (l : list string) : Z := indexOf_from 0 x l.

(** [l.splice(start, deleteCount)], as the array it leaves behind.  A
    negative [start] counts from the end; both ends are clamped. *)
Definition splice {A : Type} (start deleteCount : Z) (l : list A) : list A :=
  let len := Z.of_nat (List.length l) in
  let actualStart := (if start <? 0 then Z.max (len + start) 0 else Z.min start len)%Z in
  let actualDeleteCount := (Z.min (Z.max deleteCount 0) (len - actualStart))%Z in
  (firstn (Z.to_nat actualStart) l ++ skipn (Z.to_nat (actualStart + actualDeleteCount)) l)%list.

(** Property read on an object given by its own properties in definition
    order; also [getElementById] on the elements of a page in document order. *)
Fixpoint assoc {A : Type} (k : string) (l : list (string * A)) : option A :=
  match l with
  | [] => None
  | (k', v) :: l' => if String.eqb k' k then Some v else assoc k l'
  end.

Definition mem (k : string) (l : list string) : bool :=
  existsb (String.eqb k) l.

End JS.

(** ** The document generator *)

Module Generator.
Import JS.

(** One entry of [themeColors]. *)
Record Palette : Type := {
  primary : string;
  secondary : string;
  bg : string;
  cardBg : string;
  text : string
}.

Record Project : Type := {
  p_name : string;
  p_desc : string;
  p_image : string;
  p_link : string;
  p_github : string
}.

(** [c_image] is [null] ([None]) or the data URL of the attached image. *)
Record Certificate : Type := {
  c_name : string;
  c_issuer : string;
  c_image : option string
}.

Record WorkEntry : Type := {
  w_title : string;
  w_company : string;
  w_desc : string
}.

(** The snapshot [formData] built by [createPortfolioFromBuilder]. *)
Record FormData : Type := {
  fullName : string;
  email : string;
  title : string;
  bio : string;
  profileImage : string;
  domain : string;
  experience : string;
  skills : list string;
  projects : list Project;
  certificates : list Certificate;
  workExperience : list WorkEntry;
  education : string;
  phone : string;
  location : string;
  linkedin : string;
  github : string;
  website : string;
  twitter : string;
  theme : string
}.

Definition dark : Palette :=
  {| primary := "#667eea"; secondary := "#764ba2"; bg := "#0f0f1e"; cardBg := "#1a1a2e"; text := "#ffffff" |}.
Definition blue : Palette :=
  {| primary := "#3b82f6"; secondary := "#1e40af"; bg := "#0f172a"; cardBg := "#1e293b"; text := "#ffffff" |}.
Definition green : Palette :=
  {| primary := "#10b981"; secondary := "#047857"; bg := "#064e3b"; cardBg := "#065f46"; text := "#ffffff" |}.
Definition orange : Palette :=
  {| primary := "#f97316"; secondary := "#ea580c"; bg := "#431407"; cardBg := "#7c2d12"; text := "#ffffff" |}.
Definition pink : Palette :=
  {| primary := "#ec4899"; secondary := "#be185d"; bg := "#500724"; cardBg := "#831843"; text := "#ffffff" |}.

(** The own properties of the object literal [themeColors], in source order. *)
Definition themeColors : list (string * Palette) :=
  [("dark", dark); ("blue", blue); ("green", green); ("orange", orange); ("pink", pink)].

(** [themeColors] is an ordinary object, so a property read that finds no own
    property goes on to [Object.prototype].  These are its property names
    (ECMAScript 20.1.3 and B.2.2); each holds a function, and [__proto__]
    reads as [Object.prototype] itself: all are objects, hence truthy, and
    none has a property named after a palette field. *)
Definition objectPrototypeKeys : list string :=
  ["constructor"; "hasOwnProperty"; "isPrototypeOf"; "propertyIsEnumerable";
   "toLocaleString"; "toString"; "valueOf"; "__proto__";
   "__defineGetter__"; "__defineSetter__"; "__lookupGetter__"; "__lookupSetter__"].

(** What a property read on [themeColors] can return besides [undefined]. *)
Inductive ThemeEntry : Type :=
| Own (p : Palette)
| Inherited (key : string).

(** [themeColors[key]]; [None] is [undefined]. *)
Definition themeColors_get (key : string) : option ThemeEntry :=
  match assoc key themeColors with
  | Some p => Some (Own p)
  | None => if mem key objectPrototypeKeys then Some (Inherited key) else None
  end.

(** [themeColors[data.theme] || themeColors.dark]: every entry found is an
    object, so only [undefined] takes the right operand. *)
Definition resolveColors (key : string) : ThemeEntry :=
  match themeColors_get key with
  | Some e => e
  | None => Own dark
  end.

(** [colors.f] *)
Definition field (f : Palette -> string) (colors : ThemeEntry) : value :=
  match colors with
  | Own p => Str (f p)
  | Inherited _ => Undefined
  end.

Notation "c .[ f ]" := (ToString (field f c)) (at level 1, left associativity, format "c .[ f ]").

(** [acc += x] and [if (c) acc += x]. *)
Definition append_if (c : bool) (acc x : string) : string :=
  if c then acc ++ x else acc.

Notation "acc += x" := (append acc x) (at level 65, left associativity, only parsing).
Notation "acc +=[ c ] x" := (append_if c acc x) (at level 65, left associativity, c at level 200).

(** Lines 1997-2000. *)
Definition skillsHTML (data : FormData) : string :=
  fold_left (fun skillsHTML s =>
      skillsHTML += html "<span class=`skill-tag`>" ++ s ++ "</span>")
    (skills data) "".

(** Lines 2002-2013. *)
Definition projectsHTML (data : FormData) : string :=
  fold_left (fun projectsHTML p =>
      projectsHTML
      += html "<div class=`project-card`>"
      +=[truthy (p_image p)] html "<img src=`" ++ p_image p ++ html "` alt=`" ++ p_name p ++ html "` class=`project-img`>"
      += html "<div class=`project-content`><h3>" ++ p_name p ++ "</h3><p>" ++ p_desc p ++ html "</p><div class=`project-links`>"
      +=[truthy (p_link p)] html "<a href=`" ++ p_link p ++ html "` target=`_blank` class=`project-btn`>Live Demo</a>"
      +=[truthy (p_github p)] html "<a href=`" ++ p_github p ++ html "` target=`_blank` class=`project-btn`>GitHub</a>"
      += "</div></div></div>")
    (projects data) "".

(** Lines 2015-2024. *)
Definition certsHTML (data : FormData) : string :=
  fold_left (fun certsHTML c =>
      let certsHTML := certsHTML += html "<div class=`cert-item`>" in
      let certsHTML :=
        match c_image c with
        | Some img =>
            if truthy img
            then certsHTML += html "<img src=`" ++ img ++ html "` alt=`" ++ c_name c ++ html "` class=`cert-image`>"
            else certsHTML += html "<div class=`cert-icon`>🏆</div>"
        | None => certsHTML += html "<div class=`cert-icon`>🏆</div>"
        end in
      certsHTML += "<div><h4>" ++ c_name c ++ "</h4><p>" ++ c_issuer c ++ "</p></div></div>")
    (certificates data) "".

(** Lines 2026-2029. *)
Definition workHTML (data : FormData) : string :=
  fold_left (fun workHTML w =>
      workHTML += html "<div class=`work-item`><h4>" ++ w_title w ++ html "</h4><p class=`company`>" ++ w_company w ++ "</p><p>" ++ w_desc w ++ "</p></div>")
    (workExperience data) "".

(** Lines 1995 and 2031-2094: the text held by the local variable
    [portfolioHTML] when the function turns to its side effects. *)
Definition portfolioHTML (data : FormData) : string :=
  let colors := resolveColors (theme data) in
  let skillsHTML := skillsHTML data in
  let projectsHTML := projectsHTML data in
  let certsHTML := certsHTML data in
  let workHTML := workHTML data in
  (html "<!DOCTYPE html><html lang=`en`><head><meta charset=`UTF-8`><meta name=`viewport` content=`width=device-width, initial-scale=1.0`><title>" ++ fullName data ++ html " - Portfolio</title><style>*{margin:0;padding:0;box-sizing:border-box}body{font-family:`Segoe UI`,system-ui,sans-serif;background:" ++ colors.[bg] ++ ";color:" ++ colors.[text] ++ ";line-height:1.6}a{color:" ++ colors.[primary] ++ ";text-decoration:none}.container{max-width:1200px;margin:0 auto;padding:0 20px}header{background:linear-gradient(135deg," ++ colors.[primary] ++ "," ++ colors.[secondary] ++ html ");padding:100px 20px;text-align:center;position:relative;overflow:hidden}header::before{content:``;position:absolute;top:-50%;right:-50%;width:100%;height:100%;background:rgba(255,255,255,0.1);transform:rotate(45deg)}")
  += ".profile-img{width:150px;height:150px;border-radius:50%;border:5px solid rgba(255,255,255,0.3);object-fit:cover;margin-bottom:20px}h1{font-size:3rem;margin-bottom:10px;text-shadow:2px 2px 4px rgba(0,0,0,0.3)}@media(max-width:768px){h1{font-size:2rem}}.tagline{font-size:1.3rem;opacity:0.95;margin-bottom:15px}.bio{max-width:700px;margin:20px auto;opacity:0.9;font-size:1.1rem}section{padding:80px 20px}.section-title{font-size:2.5rem;margin-bottom:40px;text-align:center;background:linear-gradient(135deg," ++ colors.[primary] ++ "," ++ colors.[secondary] ++ ");-webkit-background-clip:text;-webkit-text-fill-color:transparent;background-clip:text}"
  += ".skills-grid{display:flex;flex-wrap:wrap;gap:15px;justify-content:center;max-width:800px;margin:0 auto}.skill-tag{background:" ++ colors.[cardBg] ++ ";padding:12px 24px;border-radius:30px;border:2px solid " ++ colors.[primary] ++ ";font-weight:500;transition:all 0.3s}.skill-tag:hover{transform:translateY(-3px);box-shadow:0 5px 15px rgba(102,126,234,0.3)}"
  += ".projects-grid{display:grid;grid-template-columns:repeat(auto-fit,minmax(350px,1fr));gap:30px;margin-top:40px}.project-card{background:" ++ colors.[cardBg] ++ ";border-radius:15px;overflow:hidden;transition:transform 0.3s,box-shadow 0.3s;border:1px solid rgba(255,255,255,0.1)}.project-card:hover{transform:translateY(-10px);box-shadow:0 15px 40px rgba(0,0,0,0.3)}.project-img{width:100%;height:200px;object-fit:cover}.project-content{padding:25px}.project-content h3{color:" ++ colors.[primary] ++ ";margin-bottom:10px;font-size:1.5rem}.project-content p{opacity:0.9;margin-bottom:15px}.project-links{display:flex;gap:10px;margin-top:15px}.project-btn{background:" ++ colors.[primary] ++ ";color:#fff;padding:10px 20px;border-radius:8px;transition:all 0.3s}.project-btn:hover{background:" ++ colors.[secondary] ++ ";transform:scale(1.05)}"
  += ".certs-grid{display:grid;grid-template-columns:repeat(auto-fit,minmax(300px,1fr));gap:25px;max-width:1000px;margin:0 auto}.cert-item{background:" ++ colors.[cardBg] ++ ";padding:25px;border-radius:12px;display:flex;gap:20px;align-items:center;border-left:4px solid " ++ colors.[primary] ++ "}.cert-icon{font-size:2.5rem}.cert-image{width:80px;height:80px;object-fit:cover;border-radius:8px;border:2px solid " ++ colors.[primary] ++ ";flex-shrink:0}.cert-item h4{color:" ++ colors.[primary] ++ ";margin-bottom:5px}.cert-item p{opacity:0.8;font-size:0.95rem}"
  += ".work-timeline{max-width:800px;margin:0 auto}.work-item{background:" ++ colors.[cardBg] ++ ";padding:30px;border-radius:12px;margin-bottom:25px;border-left:4px solid " ++ colors.[primary] ++ "}.work-item h4{color:" ++ colors.[primary] ++ ";font-size:1.4rem;margin-bottom:8px}.company{font-weight:600;opacity:0.9;margin-bottom:10px}.work-item p{opacity:0.85}"
  += ".contact-section{background:" ++ colors.[cardBg] ++ ";border-radius:20px;padding:50px;text-align:center;margin:40px auto;max-width:800px}.contact-grid{display:flex;flex-wrap:wrap;gap:20px;justify-content:center;margin-top:30px}.contact-item{background:rgba(255,255,255,0.05);padding:15px 30px;border-radius:10px;display:flex;align-items:center;gap:10px;transition:all 0.3s;border:1px solid rgba(255,255,255,0.1)}.contact-item:hover{background:" ++ colors.[primary] ++ ";transform:translateY(-3px)}"
  += "footer{text-align:center;padding:40px;opacity:0.7;border-top:1px solid rgba(255,255,255,0.1)}@media(max-width:768px){.projects-grid,.certs-grid{grid-template-columns:1fr}.section-title{font-size:2rem}section{padding:50px 20px}}</style></head><body>"
  += html "<header><div class=`container`>"
  +=[truthy (profileImage data)] html "<img src=`" ++ profileImage data ++ html "` alt=`" ++ fullName data ++ html "` class=`profile-img`>"
  += "<h1>" ++ fullName data ++ html "</h1><p class=`tagline`>" ++ title data ++ "</p>"
  +=[truthy (experience data)] html "<p style=`opacity:0.9;margin-top:10px`>🎯 " ++ experience data ++ " Experience</p>"
  +=[truthy (bio data)] html "<p class=`bio`>" ++ bio data ++ "</p>"
  += "</div></header>"
  += html "<div class=`container`>"
  +=[(0 <? Z.of_nat (List.length (skills data)))%Z] html "<section><h2 class=`section-title`>Skills & Expertise</h2><div class=`skills-grid`>" ++ skillsHTML ++ "</div></section>"
  +=[(0 <? Z.of_nat (List.length (projects data)))%Z] html "<section><h2 class=`section-title`>Featured Projects</h2><div class=`projects-grid`>" ++ projectsHTML ++ "</div></section>"
  +=[(0 <? Z.of_nat (List.length (workExperience data)))%Z] html "<section><h2 class=`section-title`>Work Experience</h2><div class=`work-timeline`>" ++ workHTML ++ "</div></section>"
  +=[(0 <? Z.of_nat (List.length (certificates data)))%Z] html "<section><h2 class=`section-title`>Certificates & Achievements</h2><div class=`certs-grid`>" ++ certsHTML ++ "</div></section>"
  +=[truthy (education data)] html "<section><h2 class=`section-title`>Education</h2><div style=`max-width:600px;margin:0 auto;background:" ++ colors.[cardBg] ++ ";padding:25px;border-radius:12px;border-left:4px solid " ++ colors.[primary] ++ html "`><p style=`font-size:1.1rem`>" ++ education data ++ "</p></div></section>"
  += html "<section class=`contact-section`><h2 class=`section-title`>Get In Touch</h2><p style=`opacity:0.9;margin-bottom:20px`>Let's connect and discuss opportunities!</p><div class=`contact-grid`>"
  +=[truthy (email data)] html "<a href=`mailto:" ++ email data ++ html "` class=`contact-item`>📧 Email</a>"
  +=[truthy (phone data)] html "<a href=`tel:" ++ phone data ++ html "` class=`contact-item`>📱 Phone</a>"
  +=[truthy (location data)] html "<span class=`contact-item`>📍 " ++ location data ++ "</span>"
  +=[truthy (linkedin data)] html "<a href=`" ++ linkedin data ++ html "` target=`_blank` class=`contact-item`>💼 LinkedIn</a>"
  +=[truthy (github data)] html "<a href=`" ++ github data ++ html "` target=`_blank` class=`contact-item`>💻 GitHub</a>"
  +=[truthy (website data)] html "<a href=`" ++ website data ++ html "` target=`_blank` class=`contact-item`>🌐 Website</a>"
  +=[truthy (twitter data)] html "<a href=`" ++ twitter data ++ html "` target=`_blank` class=`contact-item`>🐦 Twitter</a>"
  += "</div></section></div>"
  += "<footer><p>© 2024 " ++ fullName data ++ html ". All rights reserved.</p><p style=`margin-top:10px;font-size:0.9rem`>Built with Professional Portfolio Builder</p></footer></body></html>".

End Generator.

(** ** The wizard state controller *)

Module Wizard.
Import JS Generator.

(** *** State *)

(** The script variables of the builder (lines 1753-1758).
    [portfolioTotalSteps] is never assigned after its initialisation. *)
Record Globals : Type := {
  portfolioCurrentStep : Z;
  portfolioSkills : list string;
  portfolioCertificates : list Certificate;
  portfolioWorkExperience : list WorkEntry;
  portfolioProjectCount : Z
}.

Definition portfolioTotalSteps : Z := 8.

Definition initialGlobals : Globals :=
  {| portfolioCurrentStep := 1;
     portfolioSkills := [];
     portfolioCertificates := [];
     portfolioWorkExperience := [];
     portfolioProjectCount := 1 |}.

(** A file picked in a file input: its size in bytes and the data URL that
    [FileReader.readAsDataURL] produces for it. *)
Record File : Type := {
  file_size : Z;
  file_dataURL : string
}.

(** The properties of an element that the script reads or writes.
    [el_defaultValue] is the value a form reset restores; on a hidden input
    an assignment to [.value] rewrites it as well. *)
Record Element : Type := {
  el_value : string;
  el_defaultValue : string;
  el_hidden : bool;
  el_files : list File;
  el_display : string;
  el_width : string;
  el_innerHTML : string;
  el_classes : list string
}.

(** A [.portfolio-form-step] section: its [data-step] attribute, whether it
    carries the class [active], and the handles of the controls in it that are
    marked [required], in document order.  The sections are taken to be the
    only elements of the page that carry a [data-step] attribute. *)
Record StepSection : Type := {
  data_step : Z;
  ss_active : bool;
  ss_required : list string
}.

(** The page.  The markup is not part of the script, so the page is a
    parameter of every operation: [elements] lists the elements by handle (the
    [id] of an element that has one) in document order. *)
Record Dom : Type := {
  elements : list (string * Element);
  stepSections : list StepSection;
  domainCards : list string;
  themeCards : list string;
  bodyOverflow : string;
  focused : option string
}.

(** The closures handed to [setTimeout]. *)
Inductive Callback : Type :=
| DownloadPrompt (portfolioHTML : string) (fullName : string)
| ResetForm.

(** The browser around the page: the messages shown by [alert], the timers
    pending with their due times, the clock, the file reads in flight with
    the certificate each [onload] closure holds, whether [window.open] is
    blocked, what the user answers to [confirm], and the documents written to
    preview windows and offered as downloads (file name, content). *)
Record Env : Type := {
  alerts : list string;
  timers : list (Z * Callback);
  now : Z;
  readers : list (Certificate * File);
  popupsBlocked : bool;
  confirmAnswer : bool;
  previews : list string;
  downloads : list (string * string)
}.

Record Page : Type := {
  vars : Globals;
  dom : Dom;
  env : Env
}.

(** *** Field updates *)

Definition set_vars (g : Globals) (p : Page) : Page :=
  {| vars := g; dom := dom p; env := env p |}.
Definition set_dom (d : Dom) (p : Page) : Page :=
  {| vars := vars p; dom := d; env := env p |}.
Definition set_env (e : Env) (p : Page) : Page :=
  {| vars := vars p; dom := dom p; env := e |}.

Definition with_step (v : Z) (g : Globals) : Globals :=
  {| portfolioCurrentStep := v;
     portfolioSkills := portfolioSkills g;
     portfolioCertificates := portfolioCertificates g;
     portfolioWorkExperience := portfolioWorkExperience g;
     portfolioProjectCount := portfolioProjectCount g |}.
Definition with_skills (v : list string) (g : Globals) : Globals :=
  {| portfolioCurrentStep := portfolioCurrentStep g;
     portfolioSkills := v;
     portfolioCertificates := portfolioCertificates g;
     portfolioWorkExperience := portfolioWorkExperience g;
     portfolioProjectCount := portfolioProjectCount g |}.
Definition with_certificates (v : list Certificate) (g : Globals) : Globals :=
  {| portfolioCurrentStep := portfolioCurrentStep g;
     portfolioSkills := portfolioSkills g;
     portfolioCertificates := v;
     portfolioWorkExperience := portfolioWorkExperience g;
     portfolioProjectCount := portfolioProjectCount g |}.
Definition with_work (v : list WorkEntry) (g : Globals) : Globals :=
  {| portfolioCurrentStep := portfolioCurrentStep g;
     portfolioSkills := portfolioSkills g;
     portfolioCertificates := portfolioCertificates g;
     portfolioWorkExperience := v;
     portfolioProjectCount := portfolioProjectCount g |}.
Definition with_projectCount (v : Z) (g : Globals) : Globals :=
  {| portfolioCurrentStep := portfolioCurrentStep g;
     portfolioSkills := portfolioSkills g;
     portfolioCertificates := portfolioCertificates g;
     portfolioWorkExperience := portfolioWorkExperience g;
     portfolioProjectCount := v |}.

Definition with_elements (v : list (string * Element)) (d : Dom) : Dom :=
  {| elements := v; stepSections := stepSections d; domainCards := domainCards d;
     themeCards := themeCards d; bodyOverflow := bodyOverflow d; focused := focused d |}.
Definition with_stepSections (v : list StepSection) (d : Dom) : Dom :=
  {| elements := elements d; stepSections := v; domainCards := domainCards d;
     themeCards := themeCards d; bodyOverflow := bodyOverflow d; focused := focused d |}.
Definition with_bodyOverflow (v : string) (d : Dom) : Dom :=
  {| elements := elements d; stepSections := stepSections d; domainCards := domainCards d;
     themeCards := themeCards d; bodyOverflow := v; focused := focused d |}.
Definition with_focused (v : option string) (d : Dom) : Dom :=
  {| elements := elements d; stepSections := stepSections d; domainCards := domainCards d;
     themeCards := themeCards d; bodyOverflow := bodyOverflow d; focused := v |}.

Definition with_alerts (v : list string) (e : Env) : Env :=
  {| alerts := v; timers := timers e; now := now e; readers := readers e;
     popupsBlocked := popupsBlocked e; confirmAnswer := confirmAnswer e;
     previews := previews e; downloads := downloads e |}.
Definition with_timers (v : list (Z * Callback)) (e : Env) : Env :=
  {| alerts := alerts e; timers := v; now := now e; readers := readers e;
     popupsBlocked := popupsBlocked e; confirmAnswer := confirmAnswer e;
     previews := previews e; downloads := downloads e |}.
Definition with_now (v : Z) (e : Env) : Env :=
  {| alerts := alerts e; timers := timers e; now := v; readers := readers e;
     popupsBlocked := popupsBlocked e; confirmAnswer := confirmAnswer e;
     previews := previews e; downloads := downloads e |}.
Definition with_readers (v : list (Certificate * File)) (e : Env) : Env :=
  {| alerts := alerts e; timers := timers e; now := now e; readers := v;
     popupsBlocked := popupsBlocked e; confirmAnswer := confirmAnswer e;
     previews := previews e; downloads := downloads e |}.
Definition with_previews (v : list string) (e : Env) : Env :=
  {| alerts := alerts e; timers := timers e; now := now e; readers := readers e;
     popupsBlocked := popupsBlocked e; confirmAnswer := confirmAnswer e;
     previews := v; downloads := downloads e |}.
Definition with_downloads (v : list (string * string)) (e : Env) : Env :=
  {| alerts := alerts e; timers := timers e; now := now e; readers := readers e;
     popupsBlocked := popupsBlocked e; confirmAnswer := confirmAnswer e;
     previews := previews e; downloads := v |}.

Definition with_value (v : string) (e : Element) : Element :=
  {| el_value := v;
     el_defaultValue := if el_hidden e then v else el_defaultValue e;
     el_hidden := el_hidden e; el_files := el_files e; el_display := el_display e;
     el_width := el_width e; el_innerHTML := el_innerHTML e; el_classes := el_classes e |}.
(** Assigning the empty string to the [.value] of a file input empties its
    file list; on other elements the list is empty already. *)
Definition with_value_cleared (e : Element) : Element :=
  {| el_value := ""; el_defaultValue := if el_hidden e then "" else el_defaultValue e;
     el_hidden := el_hidden e; el_files := []; el_display := el_display e;
     el_width := el_width e; el_innerHTML := el_innerHTML e; el_classes := el_classes e |}.
Definition with_display (v : string) (e : Element) : Element :=
  {| el_value := el_value e; el_defaultValue := el_defaultValue e;
     el_hidden := el_hidden e; el_files := el_files e; el_display := v;
     el_width := el_width e; el_innerHTML := el_innerHTML e; el_classes := el_classes e |}.
Definition with_width (v : string) (e : Element) : Element :=
  {| el_value := el_value e; el_defaultValue := el_defaultValue e;
     el_hidden := el_hidden e; el_files := el_files e; el_display := el_display e;
     el_width := v; el_innerHTML := el_innerHTML e; el_classes := el_classes e |}.
Definition with_innerHTML (v : string) (e : Element) : Element :=
  {| el_value := el_value e; el_defaultValue := el_defaultValue e;
     el_hidden := el_hidden e; el_files := el_files e; el_display := el_display e;
     el_width := el_width e; el_innerHTML := v; el_classes := el_classes e |}.
Definition with_classes (v : list string) (e : Element) : Element :=
  {| el_value := el_value e; el_defaultValue := el_defaultValue e;
     el_hidden := el_hidden e; el_files := el_files e; el_display := el_display e;
     el_width := el_width e; el_innerHTML := el_innerHTML e; el_classes := v |}.
(** What [form.reset()] does to a control. *)
Definition reset_element (e : Element) : Element :=
  {| el_value := el_defaultValue e; el_defaultValue := el_defaultValue e;
     el_hidden := el_hidden e; el_files := []; el_display := el_display e;
     el_width := el_width e; el_innerHTML := el_innerHTML e; el_classes := el_classes e |}.

Definition classList_remove (c : string) (e : Element) : Element :=
  with_classes (filter (fun x => negb (String.eqb x c)) (el_classes e)) e.
Definition classList_add (c : string) (e : Element) : Element :=
  if mem c (el_classes e) then e else with_classes (el_classes e ++ [c])%list e.

(** Replaces the first element with handle [k], as [assoc] finds it. *)
Fixpoint update (k : string) (f : Element -> Element) (l : list (string * Element))
  : list (string * Element) :=
  match l with
  | [] => []
  | (k', v) :: l' => if String.eqb k' k then (k', f v) :: l' else (k', v) :: update k f l'
  end.

(** *** Running the script: state and exceptions

    A call either returns or throws a [TypeError] (a property read on [null]);
    the page is kept in both cases, with the writes made up to that point. *)

Inductive Outcome (A : Type) : Type :=
| Returned (a : A) (p : Page)
| Thrown (p : Page).
Arguments Returned {A} a p.
Arguments Thrown {A} p.

Definition M (A : Type) : Type := Page -> Outcome A.

Definition ret {A : Type} (a : A) : M A := fun p => Returned a p.

Definition bind {A B : Type} (m : M A) (k : A -> M B) : M B :=
  fun p => match m p with
           | Returned a p' => k a p'
           | Thrown p' => Thrown p'
           end.

Definition throwTypeError {A : Type} : M A := fun p => Thrown p.
Definition get : M Page := fun p => Returned p p.
Definition modify (f : Page -> Page) : M unit := fun p => Returned tt (f p).

Notation "x <- m ;; k" := (bind m (fun x => k))
  (at level 61, m at next level, right associativity).
Notation "m ;; k" := (bind m (fun _ => k))
  (at level 61, right associativity).

(** The page a call leaves behind. *)
Definition page_after {A : Type} (o : Outcome A) : Page :=
  match o with
  | Returned _ p => p
  | Thrown p => p
  end.

Definition result {A : Type} (o : Outcome A) : option A :=
  match o with
  | Returned a _ => Some a
  | Thrown _ => None
  end.

(** [document.getElementById(id)] followed by a property access: every use in
    the script dereferences the result at once. *)
Definition getElementById (id : string) : M Element :=
  fun p => match assoc id (elements (dom p)) with
           | Some e => Returned e p
           | None => Thrown p
           end.

(** The same, followed by a write to the element. *)
Definition setElementById (id : string) (f : Element -> Element) : M unit :=
  _ <- getElementById id ;;
  modify (fun p => set_dom (with_elements (update id f (elements (dom p))) (dom p)) p).

Definition alert (msg : string) : M unit :=
  modify (fun p => set_env (with_alerts (alerts (env p) ++ [msg])%list (env p)) p).

Definition focus (handle : string) : M unit :=
  modify (fun p => set_dom (with_focused (Some handle) (dom p)) p).

Definition modify_vars (f : Globals -> Globals) : M unit :=
  modify (fun p => set_vars (f (vars p)) p).

(** [setTimeout(cb, delay)]: the timers are kept in the order they fire, a new
    one after those due no later. *)
Fixpoint insert_timer (t : Z * Callback) (l : list (Z * Callback)) : list (Z * Callback) :=
  match l with
  | [] => [t]
  | u :: l' => if (fst t <? fst u)%Z then t :: l else u :: insert_timer t l'
  end.

Definition setTimeout (cb : Callback) (delay : Z) : M unit :=
  modify (fun p =>
    set_env (with_timers (insert_timer ((now (env p) + delay)%Z, cb) (timers (env p))) (env p)) p).

(** *** The functions of the script *)

(** Lines 1760-1768. *)
Definition openPortfolioModal : M unit :=
  setElementById "portfolioModalOverlay" (classList_add "active") ;;
  modify (fun p => set_dom (with_bodyOverflow "hidden" (dom p)) p).

Definition closePortfolioModal : M unit :=
  setElementById "portfolioModalOverlay" (classList_remove "active") ;;
  modify (fun p => set_dom (with_bodyOverflow "auto" (dom p)) p).

(** Lines 1770-1774; [target] is the [id] of the element clicked. *)
Definition closePortfolioModalOnOverlay (target : string) : M unit :=
  if String.eqb target "portfolioModalOverlay" then closePortfolioModal else ret tt.

(** [document.querySelector('[data-step=N]')]: the first section whose
    attribute is the decimal text of [N]. *)
Definition querySelectorStep (step : Z) (d : Dom) : option StepSection :=
  find (fun s => (data_step s =? step)%Z) (stepSections d).

Definition deactivate (s : StepSection) : StepSection :=
  {| data_step := data_step s; ss_active := false; ss_required := ss_required s |}.

(** Adds [active] to the first section with the given [data-step]. *)
Fixpoint activate (step : Z) (l : list StepSection) : list StepSection :=
  match l with
  | [] => []
  | s :: l' =>
      if (data_step s =? step)%Z
      then {| data_step := data_step s; ss_active := true; ss_required := ss_required s |} :: l'
      else s :: activate step l'
  end.

(** [(step / portfolioTotalSteps) * 100 + '%'].  With 8 steps the quotient
    and the product are exact in binary floating point for every step below
    2^48 in magnitude: the number is [step * 25 / 2], an integer or an integer
    and a half, and it is printed in plain decimal notation. *)
Definition progressWidth (step : Z) : string :=
  let n := (step * 25)%Z in
  (if Z.even n then string_of_Z (n / 2)
   else (if (n <? 0)%Z then "-" else "") ++ string_of_Z (Z.abs n / 2) ++ ".5") ++ "%".

(** Lines 1776-1789. *)
Definition showPortfolioStep (step : Z) : M unit :=
  modify (fun p => set_dom (with_stepSections (map deactivate (stepSections (dom p))) (dom p)) p) ;;
  p <- get ;;
  match querySelectorStep step (dom p) with
  | None => throwTypeError
  | Some _ =>
      modify (fun p => set_dom (with_stepSections (activate step (stepSections (dom p))) (dom p)) p) ;;
      setElementById "portfolioProgressFill" (with_width (progressWidth step)) ;;
      setElementById "portfolioPrevBtn"
        (with_display (if (step =? 1)%Z then "none" else "block")) ;;
      setElementById "portfolioNextBtn"
        (with_display (if (step =? portfolioTotalSteps)%Z then "none" else "block")) ;;
      setElementById "portfolioCreateBtn"
        (with_display (if (step =? portfolioTotalSteps)%Z then "block" else "none"))
  end.

(** The loop of lines 1807-1813; [true] when it runs to its end. *)
Fixpoint checkRequired (inputs : list string) : M bool :=
  match inputs with
  | [] => ret true
  | h :: rest =>
      e <- getElementById h ;;
      if negb (truthy (trim (el_value e)))
      then alert "Please fill in all required fields" ;; focus h ;; ret false
      else checkRequired rest
  end.

(** Lines 1803-1821. *)
Definition validatePortfolioStep (step : Z) : M bool :=
  p <- get ;;
  match querySelectorStep step (dom p) with
  | None => throwTypeError
  | Some currentStepEl =>
      filled <- checkRequired (ss_required currentStepEl) ;;
      if negb filled then ret false
      else if (step =? 2)%Z
      then d <- getElementById "portfolioSelectedDomain" ;;
           if negb (truthy (el_value d))
           then alert "Please select a domain" ;; ret false
           else ret true
      else ret true
  end.

(** Lines 1791-1796. *)
Definition nextPortfolioStep : M unit :=
  p <- get ;;
  ok <- validatePortfolioStep (portfolioCurrentStep (vars p)) ;;
  if ok
  then modify_vars (fun g => with_step (portfolioCurrentStep g + 1)%Z g) ;;
       p <- get ;;
       showPortfolioStep (portfolioCurrentStep (vars p))
  else ret tt.

(** Lines 1798-1801. *)
Definition previousPortfolioStep : M unit :=
  modify_vars (fun g => with_step (portfolioCurrentStep g - 1)%Z g) ;;
  p <- get ;;
  showPortfolioStep (portfolioCurrentStep (vars p)).

(** Lines 1823-1830 and 1929-1936; [element] is the handle of the card
    clicked. *)
Fixpoint forEachElement (handles : list string) (f : Element -> Element) : M unit :=
  match handles with
  | [] => ret tt
  | h :: rest => setElementById h f ;; forEachElement rest f
  end.

Definition selectPortfolioDomain (domain element : string) : M unit :=
  p <- get ;;
  forEachElement (domainCards (dom p)) (classList_remove "selected") ;;
  setElementById element (classList_add "selected") ;;
  setElementById "portfolioSelectedDomain" (with_value domain).

Definition selectPortfolioTheme (theme element : string) : M unit :=
  p <- get ;;
  forEachElement (themeCards (dom p)) (classList_remove "selected") ;;
  setElementById element (classList_add "selected") ;;
  setElementById "portfolioSelectedTheme" (with_value theme).

(** A [for] loop over an array that builds a string, with the index. *)
Fixpoint forEachIndexed {A : Type} (body : string -> nat -> A -> string)
  (i : nat) (l : list A) (acc : string) : string :=
  match l with
  | [] => acc
  | x :: l' => forEachIndexed body (S i) l' (body acc i x)
  end.

(** Lines 1921-1927. *)
Definition renderPortfolioList (containerId : string) (items : list string) (removeFn : string)
  : M unit :=
  let html_ := forEachIndexed (fun html_ i item =>
      html_ += html "<div class=`portfolio-list-item`><span>" ++ item ++ html "</span><span class=`portfolio-remove-btn` onclick=`" ++ removeFn ++ "(" ++ string_of_nat i ++ html ")`>×</span></div>") 0 items "" in
  setElementById containerId (with_innerHTML html_).

(** Lines 1881-1887. *)
Definition renderPortfolioCertsList : M unit :=
  p <- get ;;
  let html_ := forEachIndexed (fun html_ i c =>
      html_ += html "<div class=`portfolio-list-item`><div><strong>" ++ c_name c ++ "</strong><br><small>" ++ c_issuer c ++ html "</small></div><span class=`portfolio-remove-btn` onclick=`removePortfolioCert(" ++ string_of_nat i ++ html ")`>×</span></div>") 0 (portfolioCertificates (vars p)) "" in
  setElementById "portfolioCertsList" (with_innerHTML html_).

(** Lines 1908-1914. *)
Definition renderPortfolioWorkList : M unit :=
  p <- get ;;
  let html_ := forEachIndexed (fun html_ i w =>
      html_ += html "<div class=`portfolio-list-item`><div><strong>" ++ w_title w ++ "</strong> at " ++ w_company w ++ "<br><small>" ++ w_desc w ++ html "</small></div><span class=`portfolio-remove-btn` onclick=`removePortfolioWork(" ++ string_of_nat i ++ html ")`>×</span></div>") 0 (portfolioWorkExperience (vars p)) "" in
  setElementById "portfolioWorkList" (with_innerHTML html_).

(** Lines 1832-1841. *)
Definition addPortfolioSkill : M unit :=
  input <- getElementById "portfolioSkillInput" ;;
  let skill := trim (el_value input) in
  p <- get ;;
  if truthy skill && (indexOf skill (portfolioSkills (vars p)) =? -1)%Z
  then modify_vars (fun g => with_skills (portfolioSkills g ++ [skill])%list g) ;;
       p <- get ;;
       renderPortfolioList "portfolioSkillsList" (portfolioSkills (vars p)) "removePortfolioSkill" ;;
       setElementById "portfolioSkillInput" (with_value "")
  else ret tt.

(** Lines 1843-1846. *)
Definition removePortfolioSkill (index : Z) : M unit :=
  modify_vars (fun g => with_skills (splice index 1 (portfolioSkills g)) g) ;;
  p <- get ;;
  renderPortfolioList "portfolioSkillsList" (portfolioSkills (vars p)) "removePortfolioSkill".

(** [reader.readAsDataURL(imageFile)] with the [onload] closure over [cert]. *)
Definition readAsDataURL (cert : Certificate) (imageFile : File) : M unit :=
  modify (fun p => set_env (with_readers (readers (env p) ++ [(cert, imageFile)])%list (env p)) p).

Definition pushCertificate (cert : Certificate) : M unit :=
  modify_vars (fun g => with_certificates (portfolioCertificates g ++ [cert])%list g).

(** Lines 1848-1879.  [proceed] is false after the [return] of line 1860. *)
Definition addPortfolioCertificate : M unit :=
  nameEl <- getElementById "portfolioCertName" ;;
  let name := trim (el_value nameEl) in
  issuerEl <- getElementById "portfolioCertIssuer" ;;
  let issuer := trim (el_value issuerEl) in
  imageEl <- getElementById "portfolioCertImage" ;;
  let imageFile := hd_error (el_files imageEl) in
  if truthy name && truthy issuer
  then
    let cert := {| c_name := name; c_issuer := issuer; c_image := None |} in
    proceed <-
      match imageFile with
      | Some imageFile =>
          if (file_size imageFile >? 5 * 1024 * 1024)%Z
          then alert "Image file size should be less than 5MB" ;; ret false
          else readAsDataURL cert imageFile ;; ret true
      | None =>
          pushCertificate cert ;; renderPortfolioCertsList ;; ret true
      end ;;
    if proceed
    then setElementById "portfolioCertName" (with_value "") ;;
         setElementById "portfolioCertIssuer" (with_value "") ;;
         setElementById "portfolioCertImage" with_value_cleared
    else ret tt
  else ret tt.

(** The [onload] closure of lines 1864-1868, run when the read of the
    [k]-th pending file ends. *)
Definition readerOnload (k : nat) : M unit :=
  p <- get ;;
  match nth_error (readers (env p)) k with
  | None => ret tt
  | Some (cert, imageFile) =>
      modify (fun p => set_env (with_readers
        (firstn k (readers (env p)) ++ skipn (S k) (readers (env p)))%list (env p)) p) ;;
      pushCertificate {| c_name := c_name cert; c_issuer := c_issuer cert;
                         c_image := Some (file_dataURL imageFile) |} ;;
      renderPortfolioCertsList
  end.

(** Lines 1889-1892. *)
Definition removePortfolioCert (index : Z) : M unit :=
  modify_vars (fun g => with_certificates (splice index 1 (portfolioCertificates g)) g) ;;
  renderPortfolioCertsList.

(** Lines 1894-1906. *)
Definition addPortfolioWork : M unit :=
  titleEl <- getElementById "portfolioWorkTitle" ;;
  let title := trim (el_value titleEl) in
  companyEl <- getElementById "portfolioWorkCompany" ;;
  let company := trim (el_value companyEl) in
  descEl <- getElementById "portfolioWorkDesc" ;;
  let desc := trim (el_value descEl) in
  if truthy title && truthy company
  then modify_vars (fun g => with_work
         (portfolioWorkExperience g ++ [{| w_title := title; w_company := company; w_desc := desc |}])%list g) ;;
       renderPortfolioWorkList ;;
       setElementById "portfolioWorkTitle" (with_value "") ;;
       setElementById "portfolioWorkCompany" (with_value "") ;;
       setElementById "portfolioWorkDesc" (with_value "")
  else ret tt.

(** Lines 1916-1919. *)
Definition removePortfolioWork (index : Z) : M unit :=
  modify_vars (fun g => with_work (splice index 1 (portfolioWorkExperience g)) g) ;;
  renderPortfolioWorkList.

(** Lines 1938-1942; the markup is appended to the container's content. *)
Definition addPortfolioProjectField : M unit :=
  modify_vars (fun g => with_projectCount (portfolioProjectCount g + 1)%Z g) ;;
  p <- get ;;
  let count := portfolioProjectCount (vars p) in
  let html_ := html "<div class=`portfolio-project-card`><div class=`portfolio-form-group`><label>Project Name *</label><input type=`text` class=`portfolio-project-name` placeholder=`Project " ++ string_of_Z count ++ html "` required></div><div class=`portfolio-form-group`><label>Description *</label><textarea class=`portfolio-project-desc` placeholder=`Describe your project...` rows=`3` required></textarea></div><div class=`portfolio-form-group`><label>Project Image URL</label><input type=`url` class=`portfolio-project-image` placeholder=`https://...`></div><div class=`portfolio-form-group`><label>Live Link</label><input type=`url` class=`portfolio-project-link` placeholder=`https://...`></div><div class=`portfolio-form-group`><label>GitHub</label><input type=`url` class=`portfolio-project-github` placeholder=`https://github.com/...`></div></div>" in
  setElementById "portfolioProjectsContainer" (fun e => with_innerHTML (el_innerHTML e ++ html_) e).

(** The content line 2128 gives the projects container. *)
Definition initialProjectCard : string :=
  html "<div class=`portfolio-project-card`><div class=`portfolio-form-group`><label>Project Name *</label><input type=`text` class=`portfolio-project-name` placeholder=`Amazing Project` required></div><div class=`portfolio-form-group`><label>Description *</label><textarea class=`portfolio-project-desc` placeholder=`Describe what you built, technologies used, and impact...` rows=`3` required></textarea></div><div class=`portfolio-form-group`><label>Project Image URL (optional)</label><input type=`url` class=`portfolio-project-image` placeholder=`https://...`></div><div class=`portfolio-form-group`><label>Live Link / Demo</label><input type=`url` class=`portfolio-project-link` placeholder=`https://...`></div><div class=`portfolio-form-group`><label>GitHub / Source Code</label><input type=`url` class=`portfolio-project-github` placeholder=`https://github.com/...`></div></div>".

(** The preview, lines 2097-2115, up to the timer it sets. *)
Definition openPreview (portfolioHTML : string) (data : FormData) : M unit :=
  p <- get ;;
  if popupsBlocked (env p) then ret tt
  else modify (fun p => set_env (with_previews (previews (env p) ++ [portfolioHTML])%list (env p)) p) ;;
       setTimeout (DownloadPrompt portfolioHTML (fullName data)) 500.

(** Lines 1986-2134.  [portfolioHTML data] is the text of lines 1986-2094. *)
Definition generatePortfolioHTML (data : FormData) : M unit :=
  let portfolioHTML := portfolioHTML data in
  openPreview portfolioHTML data ;;
  closePortfolioModal ;;
  setTimeout ResetForm 1000.

(** The two timer closures: lines 2102-2114 and 2120-2133.  The form reset
    restores every control of the page; the blob and its object URL leave no
    trace once revoked. *)
Definition runCallback (cb : Callback) : M unit :=
  match cb with
  | DownloadPrompt portfolioHTML fullName =>
      let download := replace_ws_runs "_" 0 false fullName ++ "_Portfolio.html" in
      p <- get ;;
      if confirmAnswer (env p)
      then modify (fun p => set_env
             (with_downloads (downloads (env p) ++ [(download, portfolioHTML)])%list (env p)) p)
      else ret tt
  | ResetForm =>
      _ <- getElementById "portfolioBuilderForm" ;;
      modify (fun p => set_dom
        (with_elements (map (fun kv => (fst kv, reset_element (snd kv))) (elements (dom p))) (dom p)) p) ;;
      modify_vars (with_skills []) ;;
      modify_vars (with_certificates []) ;;
      modify_vars (with_work []) ;;
      modify_vars (with_projectCount 1) ;;
      modify_vars (with_step 1) ;;
      showPortfolioStep 1 ;;
      setElementById "portfolioProjectsContainer" (with_innerHTML initialProjectCard) ;;
      setElementById "portfolioCertsList" (with_innerHTML "") ;;
      setElementById "portfolioSkillsList" (with_innerHTML "") ;;
      setElementById "portfolioWorkList" (with_innerHTML "")
  end.

(** The next timer fires: the clock moves to its due time and its closure
    runs. *)
Definition fireTimer : M unit :=
  p <- get ;;
  match timers (env p) with
  | [] => ret tt
  | (due, cb) :: rest =>
      modify (fun p => set_env (with_now (Z.max (now (env p)) due) (with_timers rest (env p))) p) ;;
      runCallback cb
  end.

(** Fires timers until none is pending or [n] have fired.  An exception ends
    the task of one closure only: the event loop goes on with the next. *)
Fixpoint fireTimers (n : nat) (p : Page) : Page :=
  match n with
  | O => p
  | S n' =>
      match timers (env p) with
      | [] => p
      | _ :: _ => fireTimers n' (page_after (fireTimer p))
      end
  end.

(** A project card of the page as [createPortfolioFromBuilder] finds it: the
    values of its five inputs. *)
Definition projectOfCard (card : Project) : option Project :=
  let name := trim (p_name card) in
  let desc := trim (p_desc card) in
  if truthy name && truthy desc
  then Some {| p_name := name; p_desc := desc; p_image := trim (p_image card);
               p_link := trim (p_link card); p_github := trim (p_github card) |}
  else None.

Fixpoint harvestProjects (projectCards : list Project) : list Project :=
  match projectCards with
  | [] => []
  | card :: rest =>
      match projectOfCard card with
      | Some pr => pr :: harvestProjects rest
      | None => harvestProjects rest
      end
  end.

Definition valueOf (id : string) : M string :=
  e <- getElementById id ;; ret (el_value e).

(** Lines 1944-1984; [projectCards] are the [.portfolio-project-card]
    elements in the page when the function runs.  The snapshot shares its
    three arrays with the script variables; [generatePortfolioHTML] reads them
    before it returns, its closures keep only the text built and the name, and
    the reset assigns fresh arrays, so the sharing is never observed. *)
Definition createPortfolioFromBuilder (projectCards : list Project) : M unit :=
  let projects := harvestProjects projectCards in
  fullName <- valueOf "portfolioFullName" ;;
  email <- valueOf "portfolioEmail" ;;
  title <- valueOf "portfolioTitle" ;;
  bio <- valueOf "portfolioBio" ;;
  profileImage <- valueOf "portfolioProfileImage" ;;
  domain <- valueOf "portfolioSelectedDomain" ;;
  experience <- valueOf "portfolioExperience" ;;
  education <- valueOf "portfolioEducation" ;;
  phone <- valueOf "portfolioPhone" ;;
  location <- valueOf "portfolioLocation" ;;
  linkedin <- valueOf "portfolioLinkedin" ;;
  github <- valueOf "portfolioGithub" ;;
  website <- valueOf "portfolioWebsite" ;;
  twitter <- valueOf "portfolioTwitter" ;;
  theme <- valueOf "portfolioSelectedTheme" ;;
  p <- get ;;
  generatePortfolioHTML
    {| fullName := fullName; email := email; title := title; bio := bio;
       profileImage := profileImage; domain := domain; experience := experience;
       skills := portfolioSkills (vars p); projects := projects;
       certificates := portfolioCertificates (vars p);
       workExperience := portfolioWorkExperience (vars p);
       education := education; phone := phone; location := location;
       linkedin := linkedin; github := github; website := website;
       twitter := twitter; theme := theme |}.

(** The script's last statement, line 2137, run when the page loads. *)
Definition onLoad : M unit := showPortfolioStep 1.

End Wizard.

(** ** Vocabulary of the properties *)

(** *** Occurrence of one text in another *)

Module Text.

Fixpoint starts_with (m s : string) : bool :=
  match m, s with
  | EmptyString, _ => true
  | String _ _, EmptyString => false
  | String c m', String d s' => Ascii.eqb c d && starts_with m' s'
  end.

(** [occurs m s]: [m] is a substring of [s] (what [s.includes(m)] tests). *)
Fixpoint occurs (m s : string) : bool :=
  starts_with m s
  || match s with
     | EmptyString => false
     | String _ s' => occurs m s'
     end.

Definition lt_sign : ascii := ascii_of_nat 60.

(** No byte of [s] is the sign that opens a tag. *)
Fixpoint no_lt (s : string) : bool :=
  match s with
  | EmptyString => true
  | String c s' => negb (Ascii.eqb c lt_sign) && no_lt s'
  end.

(** [m] and [s] differ at a position both of them have. *)
Fixpoint mismatch (m s : string) : bool :=
  match m, s with
  | String c m', String d s' => if Ascii.eqb c d then mismatch m' s' else true
  | _, _ => false
  end.

(** At every tag-opening sign of [s], what follows inside [s] already differs
    from [m]: whatever is put around [s], no occurrence of [m] starts in it. *)
Fixpoint safe (m s : string) : bool :=
  match s with
  | EmptyString => true
  | String c s' => (negb (Ascii.eqb c lt_sign) || mismatch m s) && safe m s'
  end.

(** Every non-empty end of [m] differs from [r] at a position both of them
    have. *)
Fixpoint tails_mismatch (m r : string) : bool :=
  match m with
  | EmptyString => true
  | String _ m' => mismatch m r && tails_mismatch m' r
  end.

(** [r] continues no beginning of [m]: whatever text ends just before [r],
    an occurrence of [m] that starts in it does not run on into [r]. *)
Definition breaks (m r : string) : bool :=
  match m with
  | EmptyString => true
  | String _ m' => tails_mismatch m' r
  end.

End Text.

(** *** Blocks of the generated document and free text of a snapshot *)

Module Blocks.
Import JS Generator Text.

(** The text each optional section opens with (lines 2063, 2067, 2071, 2075
    and 2079), and the contact section's (line 2082). *)
Definition skillsOpen : string :=
  html "<section><h2 class=`section-title`>Skills & Expertise</h2><div class=`skills-grid`>".
Definition projectsOpen : string :=
  html "<section><h2 class=`section-title`>Featured Projects</h2><div class=`projects-grid`>".
Definition workOpen : string :=
  html "<section><h2 class=`section-title`>Work Experience</h2><div class=`work-timeline`>".
Definition certsOpen : string :=
  html "<section><h2 class=`section-title`>Certificates & Achievements</h2><div class=`certs-grid`>".
Definition educationOpen : string :=
  html "<section><h2 class=`section-title`>Education</h2><div style=`max-width:600px;margin:0 auto;background:".
Definition contactOpen : string :=
  html "<section class=`contact-section`><h2 class=`section-title`>Get In Touch</h2><p style=`opacity:0.9;margin-bottom:20px`>Let's connect and discuss opportunities!</p><div class=`contact-grid`>".

(** The header (lines 2047-2058): its opening, and the line that is written
    for every snapshot, with the name and the title. *)
Definition headerOpen : string := html "<header><div class=`container`>".
Definition headerNameTitle (data : FormData) : string :=
  "<h1>" ++ fullName data ++ html "</h1><p class=`tagline`>" ++ title data ++ "</p>".

(** The contact section with no channel in it: line 2082 directly followed by
    line 2092. *)
Definition contactEmpty : string := contactOpen ++ "</div></section></div>".

(** The entries of the contact section (lines 2084-2090), each one empty
    when its channel is. *)
Definition contactEntries (data : FormData) : list (string * string) :=
  [ (email data, html "<a href=`mailto:" ++ email data ++ html "` class=`contact-item`>📧 Email</a>");
    (phone data, html "<a href=`tel:" ++ phone data ++ html "` class=`contact-item`>📱 Phone</a>");
    (location data, html "<span class=`contact-item`>📍 " ++ location data ++ "</span>");
    (linkedin data, html "<a href=`" ++ linkedin data ++ html "` target=`_blank` class=`contact-item`>💼 LinkedIn</a>");
    (github data, html "<a href=`" ++ github data ++ html "` target=`_blank` class=`contact-item`>💻 GitHub</a>");
    (website data, html "<a href=`" ++ website data ++ html "` target=`_blank` class=`contact-item`>🌐 Website</a>");
    (twitter data, html "<a href=`" ++ twitter data ++ html "` target=`_blank` class=`contact-item`>🐦 Twitter</a>") ].

Definition image_text (c : Certificate) : string :=
  match c_image c with
  | Some img => img
  | None => EmptyString
  end.

(** The whole of each optional section, and of the contact section. *)
Definition skillsSection (data : FormData) : string :=
  skillsOpen ++ skillsHTML data ++ "</div></section>".
Definition projectsSection (data : FormData) : string :=
  projectsOpen ++ projectsHTML data ++ "</div></section>".
Definition workSection (data : FormData) : string :=
  workOpen ++ workHTML data ++ "</div></section>".
Definition certsSection (data : FormData) : string :=
  certsOpen ++ certsHTML data ++ "</div></section>".

Definition shown (entry : string * string) : string :=
  if truthy (fst entry) then snd entry else EmptyString.

Definition contactSection (data : FormData) : string :=
  contactOpen ++ fold_right append EmptyString (map shown (contactEntries data))
  ++ "</div></section></div>".

(** The condition under which the generator writes each optional section. *)
Definition sectionConditions (d : FormData) : list (string * bool) :=
  [ (skillsOpen, (0 <? Z.of_nat (List.length (skills d)))%Z);
    (projectsOpen, (0 <? Z.of_nat (List.length (projects d)))%Z);
    (workOpen, (0 <? Z.of_nat (List.length (workExperience d)))%Z);
    (certsOpen, (0 <? Z.of_nat (List.length (certificates d)))%Z);
    (educationOpen, truthy (education d)) ].

(** The five markers of the optional sections. *)
Definition sectionMarkers : list string :=
  [skillsOpen; projectsOpen; workOpen; certsOpen; educationOpen].

(** The text holds the opening of none of the five optional sections. *)
Definition opens_no_section (s : string) : bool :=
  forallb (fun m => negb (occurs m s)) sectionMarkers.

(** No text of the snapshot that reaches the document holds the opening of
    an optional section. *)
Definition section_free (data : FormData) : bool :=
  forallb opens_no_section
    [fullName data; title data; bio data; profileImage data; experience data;
     education data; email data; phone data; location data; linkedin data;
     github data; website data; twitter data]
  && forallb opens_no_section (skills data)
  && forallb (fun p => opens_no_section (p_name p) && opens_no_section (p_desc p)
                       && opens_no_section (p_image p) && opens_no_section (p_link p)
                       && opens_no_section (p_github p)) (projects data)
  && forallb (fun c => opens_no_section (c_name c) && opens_no_section (c_issuer c)
                       && opens_no_section (image_text c)) (certificates data)
  && forallb (fun w => opens_no_section (w_title w) && opens_no_section (w_desc w)
                       && opens_no_section (w_company w)) (workExperience data).

End Blocks.

(** *** Snapshots used as instances *)

Module Samples.
Import JS Generator Blocks.

Definition emptyData : FormData :=
  {| fullName := "Ada Lovelace"; email := ""; title := "Analyst"; bio := "";
     profileImage := ""; domain := ""; experience := ""; skills := [];
     projects := []; certificates := []; workExperience := []; education := "";
     phone := ""; location := ""; linkedin := ""; github := ""; website := "";
     twitter := ""; theme := "" |}.

Definition greenData : FormData :=
  {| fullName := "Ada Lovelace"; email := "ada@example.org"; title := "Analyst";
     bio := "Notes on the engine"; profileImage := ""; domain := "data";
     experience := "10 years"; skills := ["Rocq"; "JavaScript"];
     projects := [{| p_name := "Engine"; p_desc := "Notes"; p_image := "";
                     p_link := "https://example.org"; p_github := "" |}];
     certificates := [{| c_name := "Logic"; c_issuer := "Academy"; c_image := None |}];
     workExperience := [{| w_title := "Analyst"; w_company := "Babbage"; w_desc := "" |}];
     education := "Mathematics"; phone := ""; location := "London"; linkedin := "";
     github := ""; website := ""; twitter := ""; theme := "green" |}.

Definition with_theme (t : string) (d : FormData) : FormData :=
  {| fullName := fullName d; email := email d; title := title d; bio := bio d;
     profileImage := profileImage d; domain := domain d; experience := experience d;
     skills := skills d; projects := projects d; certificates := certificates d;
     workExperience := workExperience d; education := education d; phone := phone d;
     location := location d; linkedin := linkedin d; github := github d;
     website := website d; twitter := twitter d; theme := t |}.

(** No list entry and no education, and a biography that holds the markup of
    a skills section. *)
Definition injectedData : FormData :=
  {| fullName := "Ada Lovelace"; email := ""; title := "Analyst";
     bio := skillsOpen ++ "</div></section>";
     profileImage := ""; domain := ""; experience := ""; skills := [];
     projects := []; certificates := []; workExperience := []; education := "";
     phone := ""; location := ""; linkedin := ""; github := ""; website := "";
     twitter := ""; theme := "dark" |}.

(** No list entry and no education, and a biography with tag-opening signs
    that open no section. *)
Definition comparingData : FormData :=
  {| fullName := "Ada Lovelace"; email := ""; title := "Analyst";
     bio := "1 < 2 and I <3 C++";
     profileImage := ""; domain := ""; experience := ""; skills := [];
     projects := []; certificates := []; workExperience := []; education := "";
     phone := ""; location := ""; linkedin := ""; github := ""; website := "";
     twitter := ""; theme := "dark" |}.

End Samples.

(** *** Sessions of the wizard *)

Module Session.
Import JS Generator Wizard.

Definition lookup (id : string) (p : Page) : option Element :=
  assoc id (elements (dom p)).

Definition has (id : string) (p : Page) : bool :=
  match lookup id p with
  | Some _ => true
  | None => false
  end.

(** A control the user can reach: it is in the page and its [display] is not
    [none]. *)
Definition displayed (id : string) (p : Page) : bool :=
  match lookup id p with
  | Some e => negb (String.eqb (el_display e) "none")
  | None => false
  end.

Definition in_range {A : Type} (i : Z) (l : list A) : bool :=
  ((0 <=? i) && (i <? Z.of_nat (List.length l)))%Z.

(** What the user types into a control that is not hidden. *)
Definition with_typed (v : string) (e : Element) : Element :=
  {| el_value := v; el_defaultValue := el_defaultValue e;
     el_hidden := el_hidden e; el_files := el_files e; el_display := el_display e;
     el_width := el_width e; el_innerHTML := el_innerHTML e; el_classes := el_classes e |}.
Definition with_files (v : list File) (e : Element) : Element :=
  {| el_value := el_value e; el_defaultValue := el_defaultValue e;
     el_hidden := el_hidden e; el_files := v; el_display := el_display e;
     el_width := el_width e; el_innerHTML := el_innerHTML e; el_classes := el_classes e |}.

(** What can happen to the page once the script is loaded: the user clicks a
    button of the wizard or a remove mark of a list entry, types into a
    control or picks files, a file read ends, or the next timer fires. *)
Inductive Event : Type :=
| ClickNext
| ClickPrevious
| ClickCreate (projectCards : list Project)
| ClickAddSkill
| ClickRemoveSkill (index : Z)
| ClickAddCertificate
| ClickRemoveCert (index : Z)
| ClickAddWork
| ClickRemoveWork (index : Z)
| ClickDomain (domain element : string)
| ClickTheme (theme element : string)
| ClickAddProject
| OpenModal
| CloseModal
| ClickOverlay (target : string)
| TypeInto (handle value : string)
| PickFiles (handle : string) (files : list File)
| ReadEnds (k : nat)
| TimerFires.

(** The Next, Previous and Create buttons exist for the user while they are
    displayed; the remove marks that [renderPortfolioList] and its two
    siblings write carry the indices of the entries they were written for. *)
Definition enabled (ev : Event) (p : Page) : bool :=
  match ev with
  | ClickNext => displayed "portfolioNextBtn" p
  | ClickPrevious => displayed "portfolioPrevBtn" p
  | ClickCreate _ => displayed "portfolioCreateBtn" p
  | ClickRemoveSkill i => in_range i (portfolioSkills (vars p))
  | ClickRemoveCert i => in_range i (portfolioCertificates (vars p))
  | ClickRemoveWork i => in_range i (portfolioWorkExperience (vars p))
  | TypeInto h _ =>
      match lookup h p with
      | Some e => negb (el_hidden e)
      | None => false
      end
  | PickFiles h _ => has h p
  | _ => true
  end.

Definition react (ev : Event) : M unit :=
  match ev with
  | ClickNext => nextPortfolioStep
  | ClickPrevious => previousPortfolioStep
  | ClickCreate projectCards => createPortfolioFromBuilder projectCards
  | ClickAddSkill => addPortfolioSkill
  | ClickRemoveSkill i => removePortfolioSkill i
  | ClickAddCertificate => addPortfolioCertificate
  | ClickRemoveCert i => removePortfolioCert i
  | ClickAddWork => addPortfolioWork
  | ClickRemoveWork i => removePortfolioWork i
  | ClickDomain domain element => selectPortfolioDomain domain element
  | ClickTheme theme element => selectPortfolioTheme theme element
  | ClickAddProject => addPortfolioProjectField
  | OpenModal => openPortfolioModal
  | CloseModal => closePortfolioModal
  | ClickOverlay target => closePortfolioModalOnOverlay target
  | TypeInto h v => setElementById h (with_typed v)
  | PickFiles h files => setElementById h (with_files files)
  | ReadEnds k => readerOnload k
  | TimerFires => fireTimer
  end.

Definition after (ev : Event) (p : Page) : Page := page_after (react ev p).

Definition stepNumbers : list Z := [1; 2; 3; 4; 5; 6; 7; 8]%Z.

(** The page has a section for each of the eight steps, the progress bar and
    the three buttons of the wizard. *)
Definition page_ok (p : Page) : bool :=
  forallb (fun s => match querySelectorStep s (dom p) with
                    | Some _ => true
                    | None => false
                    end) stepNumbers
  && has "portfolioProgressFill" p && has "portfolioPrevBtn" p
  && has "portfolioNextBtn" p && has "portfolioCreateBtn" p.

(** The pages a session goes through: the script is loaded into a page with
    its variables as initialised, then events the page enables follow. *)
Inductive reachable : Page -> Prop :=
| reach_load (p0 : Page) :
    page_ok p0 = true -> vars p0 = initialGlobals -> reachable (page_after (onLoad p0))
| reach_event (p : Page) (ev : Event) :
    reachable p -> enabled ev p = true -> reachable (after ev p).

Fixpoint run (evs : list Event) (p : Page) : Page :=
  match evs with
  | [] => p
  | ev :: evs' => run evs' (after ev p)
  end.

(** The documents a call wrote to preview windows, given the pages before and
    after it. *)
Definition written_by (before after_ : Page) : list string :=
  skipn (List.length (previews (env before))) (previews (env after_)).

(** The controls named by a list of handles are all in the page. *)
Definition all_present (handles : list string) (p : Page) : bool :=
  forallb (fun h => has h p) handles.

(** A required control whose value is empty once trimmed. *)
Definition blank (p : Page) (h : string) : bool :=
  match lookup h p with
  | Some e => negb (truthy (trim (el_value e)))
  | None => false
  end.

Definition domainMissing (step : Z) (p : Page) : bool :=
  (step =? 2)%Z
  && match lookup "portfolioSelectedDomain" p with
     | Some e => negb (truthy (el_value e))
     | None => false
     end.

(** The list left by removing the entry at position [i]: the entries before
    it, then those after it. *)
Definition without {A : Type} (i : nat) (l : list A) : list A :=
  (firstn i l ++ skipn (S i) l)%list.

(** [l'] is [l] with the entry at position [i] excised: one entry fewer, the
    entries before [i] in place, and each later one a position down. *)
Definition excised {A : Type} (i : nat) (l l' : list A) : Prop :=
  List.length l = S (List.length l')
  /\ (forall j, (j < i)%nat -> nth_error l' j = nth_error l j)
  /\ (forall j, (i <= j)%nat -> nth_error l' j = nth_error l (S j)).

(** Every event of the list is enabled when its turn comes. *)
Fixpoint all_enabled (evs : list Event) (p : Page) : bool :=
  match evs with
  | [] => true
  | ev :: evs' => enabled ev p && all_enabled evs' (after ev p)
  end.

(** The page [validatePortfolioStep] leaves when the control [h] is the first
    required one left blank. *)
Definition rejected_at (h : string) (p : Page) : Page :=
  set_dom (with_focused (Some h) (dom p))
    (set_env (with_alerts (alerts (env p) ++ ["Please fill in all required fields"])%list (env p)) p).

(** [5 * 1024 * 1024] *)
Definition maxImageBytes : Z := 5242880.

(** The page after the size-limit message, nothing else touched. *)
Definition with_size_alert (p : Page) : Page :=
  set_env (with_alerts (alerts (env p) ++ ["Image file size should be less than 5MB"])%list (env p)) p.

(** The user types [v] as a skill and clicks the add button. *)
Definition enterSkill (v : string) (p : Page) : Page :=
  after ClickAddSkill (after (TypeInto "portfolioSkillInput" v) p).

(** The page [generatePortfolioHTML] leaves once every pending timer has
    fired. *)
Definition generation_completed (data : FormData) (p : Page) : Page :=
  let q := page_after (generatePortfolioHTML data p) in
  fireTimers (List.length (timers (env q))) q.

(** The name of the downloaded file (line 2107). *)
Definition downloadName (data : FormData) : string :=
  replace_ws_runs "_" 0 false (fullName data) ++ "_Portfolio.html".

End Session.

(** *** Invariants of a session *)

Module Invariants.
Import JS Generator Wizard Session.

Definition stable {A : Type} (I : Page -> Prop) (m : M A) : Prop :=
  forall p, I p -> I (page_after (m p)).

Definition keys (p : Page) : list string := map fst (elements (dom p)).

Definition steps_of (p : Page) : list Z := map data_step (stepSections (dom p)).

Definition frame (K : list string) (S : list Z) (p : Page) : Prop :=
  keys p = K /\ steps_of p = S.

Definition write (id : string) (f : Element -> Element) (p : Page) : Page :=
  set_dom (with_elements (update id f (elements (dom p))) (dom p)) p.

Definition controls (n : Z) (a b : bool) (p : Page) : Prop :=
  portfolioCurrentStep (vars p) = n
  /\ displayed "portfolioPrevBtn" p = a /\ displayed "portfolioNextBtn" p = b.

Definition skills_have (P : list string -> Prop) (p : Page) : Prop :=
  P (portfolioSkills (vars p)).

Definition skills_distinct (p : Page) : Prop := skills_have (@NoDup string) p.

Definition has_step (s : Z) (p : Page) : bool :=
  match querySelectorStep s (dom p) with
  | Some _ => true
  | None => false
  end.

Definition Inv (p : Page) : Prop :=
  page_ok p = true
  /\ (1 <= portfolioCurrentStep (vars p) <= portfolioTotalSteps)%Z
  /\ displayed "portfolioPrevBtn" p = negb (portfolioCurrentStep (vars p) =? 1)%Z
  /\ displayed "portfolioNextBtn" p = negb (portfolioCurrentStep (vars p) =? portfolioTotalSteps)%Z
  /\ skills_distinct p.

End Invariants.

(** *** Pages used as instances *)

Module SamplePages.
Import JS Generator Wizard Session.

Definition element (v : string) : Element :=
  {| el_value := v; el_defaultValue := ""; el_hidden := false; el_files := [];
     el_display := ""; el_width := ""; el_innerHTML := ""; el_classes := [] |}.

Definition hiddenInput (v : string) : Element :=
  {| el_value := v; el_defaultValue := v; el_hidden := true; el_files := [];
     el_display := ""; el_width := ""; el_innerHTML := ""; el_classes := [] |}.

Definition fileInput (files : list File) : Element :=
  {| el_value := ""; el_defaultValue := ""; el_hidden := false; el_files := files;
     el_display := ""; el_width := ""; el_innerHTML := ""; el_classes := [] |}.

Definition section (n : Z) (required : list string) : StepSection :=
  {| data_step := n; ss_active := false; ss_required := required |}.

Definition quietEnv : Env :=
  {| alerts := []; timers := []; now := 0; readers := []; popupsBlocked := false;
     confirmAnswer := true; previews := []; downloads := [] |}.

(** A page of the builder before the script runs, with the name filled in and
    nothing else. *)
Definition freshDom : Dom :=
  {| elements :=
       [ ("portfolioModalOverlay", element ""); ("portfolioBuilderForm", element "");
         ("portfolioProgressFill", element ""); ("portfolioPrevBtn", element "");
         ("portfolioNextBtn", element ""); ("portfolioCreateBtn", element "");
         ("portfolioFullName", element "Ada Lovelace"); ("portfolioEmail", element "");
         ("portfolioTitle", element ""); ("portfolioBio", element "");
         ("portfolioProfileImage", element ""); ("portfolioExperience", element "");
         ("domainCardData", element ""); ("themeCardGreen", element "");
         ("portfolioSelectedDomain", hiddenInput ""); ("portfolioSelectedTheme", hiddenInput "");
         ("portfolioSkillInput", element ""); ("portfolioSkillsList", element "");
         ("portfolioProjectsContainer", element "");
         ("portfolioCertName", element ""); ("portfolioCertIssuer", element "");
         ("portfolioCertImage", fileInput []); ("portfolioCertsList", element "");
         ("portfolioWorkTitle", element ""); ("portfolioWorkCompany", element "");
         ("portfolioWorkDesc", element ""); ("portfolioWorkList", element "");
         ("portfolioEducation", element ""); ("portfolioPhone", element "");
         ("portfolioLocation", element ""); ("portfolioLinkedin", element "");
         ("portfolioGithub", element ""); ("portfolioWebsite", element "");
         ("portfolioTwitter", element "") ];
     stepSections :=
       [ section 1 ["portfolioFullName"; "portfolioEmail"; "portfolioTitle"];
         section 2 ["portfolioExperience"]; section 3 []; section 4 [];
         section 5 []; section 6 []; section 7 []; section 8 [] ];
     domainCards := ["domainCardData"]; themeCards := ["themeCardGreen"];
     bodyOverflow := ""; focused := None |}.

Definition freshPage : Page :=
  {| vars := initialGlobals; dom := freshDom; env := quietEnv |}.

(** The page once the script is loaded. *)
Definition loadedPage : Page := page_after (onLoad freshPage).

Definition bigFile : File := {| file_size := 5 * 1024 * 1024 + 1; file_dataURL := "data:image/png;base64,AAAA" |}.

(** A session that fills in the required controls and walks to the last
    step. *)
Definition walkToLastStep : list Event :=
  [ TypeInto "portfolioEmail" "ada@example.org"; TypeInto "portfolioTitle" "Analyst"; ClickNext;
    TypeInto "portfolioExperience" "10 years"; ClickDomain "data" "domainCardData"; ClickNext;
    ClickNext; ClickNext; ClickNext; ClickNext; ClickNext ].

(** The page it ends on. *)
Definition lastStepPage : Page := run walkToLastStep loadedPage.

(** The second step of a session, its required control filled in and no
    domain chosen. *)
Definition secondStepPage : Page :=
  run [ TypeInto "portfolioEmail" "ada@example.org"; TypeInto "portfolioTitle" "Analyst";
        ClickNext; TypeInto "portfolioExperience" "10 years" ] loadedPage.

(** A page with two skills, three certificates and two work entries. *)
Definition listsPage : Page :=
  set_vars
    {| portfolioCurrentStep := 3;
       portfolioSkills := ["Rocq"; "JavaScript"];
       portfolioCertificates :=
         [ {| c_name := "Logic"; c_issuer := "Academy"; c_image := None |};
           {| c_name := "Algebra"; c_issuer := "Academy"; c_image := None |};
           {| c_name := "Analysis"; c_issuer := "Society"; c_image := None |} ];
       portfolioWorkExperience :=
         [ {| w_title := "Analyst"; w_company := "Babbage"; w_desc := "" |};
           {| w_title := "Author"; w_company := "Taylor"; w_desc := "Notes" |} ];
       portfolioProjectCount := 1 |} loadedPage.

(** A certificate form filled in, with an image of 5 MB and one byte. *)
Definition oversizedPage : Page :=
  run [ TypeInto "portfolioCertName" "Logic"; TypeInto "portfolioCertIssuer" " Academy ";
        PickFiles "portfolioCertImage" [bigFile] ] listsPage.

(** A page of a session in which the user declines the download. *)
Definition decliningPage : Page :=
  set_env {| alerts := []; timers := []; now := 0; readers := []; popupsBlocked := false;
             confirmAnswer := false; previews := []; downloads := [] |} listsPage.

(** The same with preview windows blocked. *)
Definition blockedPage : Page :=
  set_env {| alerts := []; timers := []; now := 0; readers := []; popupsBlocked := true;
             confirmAnswer := true; previews := []; downloads := [] |} listsPage.

End SamplePages.

(** ** Regular expressions *)

Module RegExp.
Import JS.

(** The characters of a string as the classes of an expression meet them: a
    white-space character is one character, whatever the number of its bytes;
    any other character is read byte by byte.  The expressions of the script
    name no character of several bytes, and count characters only in classes
    made of white space and characters of one byte. *)
Fixpoint take (n : nat) (s : string) : string :=
  match n, s with
  | S n', String c s' => String c (take n' s')
  | _, _ => EmptyString
  end.

Fixpoint characters (skip : nat) (s : string) : list string :=
  match s with
  | EmptyString => []
  | String c s' =>
      match skip with
      | S k => characters k s'
      | O => match ws_len s with
             | O => String c EmptyString :: characters 0 s'
             | S k => take (S k) s :: characters k s'
             end
      end
  end.

(** A member of a bracket expression: [\s], [\d] or a character. *)
Inductive Member : Type :=
| ClassSpace
| ClassDigit
| Char (c : ascii).

(** An atom: a character, or a bracket expression, negated or not. *)
Inductive Atom : Type :=
| Lit (c : ascii)
| Bracket (negated : bool) (members : list Member).

(** An atom with its quantifier: none is [{1,1}], [?] is [{0,1}], [+] is
    [{1,}] and [{n,}] has no upper bound. *)
Record Term : Type := {
  atom : Atom;
  least : nat;
  most : option nat
}.

(** The terms between [^] and [$]. *)
Definition Pattern : Type := list Term.

Definition is_space (c : string) : bool := (0 <? ws_len c)%nat.

Definition is_digit (c : string) : bool :=
  match c with
  | String d EmptyString => ((48 <=? code d) && (code d <=? 57))%N
  | _ => false
  end.

Definition member_matches (c : string) (m : Member) : bool :=
  match m with
  | ClassSpace => is_space c
  | ClassDigit => is_digit c
  | Char a => String.eqb c (String a EmptyString)
  end.

Definition atom_matches (a : Atom) (c : string) : bool :=
  match a with
  | Lit b => String.eqb c (String b EmptyString)
  | Bracket negated members => xorb negated (existsb (member_matches c) members)
  end.

(** A quantified atom followed by the rest of the pattern [k], by
    backtracking: one more character first, then none. *)
Fixpoint quantified (a : Atom) (least : nat) (most : option nat) (cs : list string)
  (k : list string -> bool) : bool :=
  let stop := (least =? 0)%nat && k cs in
  match cs with
  | [] => stop
  | c :: cs' =>
      match most with
      | Some O => false
      | _ => atom_matches a c && quantified a (Nat.pred least) (option_map Nat.pred most) cs' k
      end
      || stop
  end.

Fixpoint matches (r : Pattern) (cs : list string) : bool :=
  match r with
  | [] => match cs with
          | [] => true
          | _ :: _ => false
          end
  | t :: r' => quantified (atom t) (least t) (most t) cs (matches r')
  end.

(** [/^...$/.test(s)] *)
Definition test (r : Pattern) (s : string) : bool := matches r (characters 0 s).

Definition once (a : Atom) : Term := {| atom := a; least := 1; most := Some 1 |}.
Definition optional (a : Atom) : Term := {| atom := a; least := 0; most := Some 1 |}.
Definition plus (a : Atom) : Term := {| atom := a; least := 1; most := None |}.
Definition at_least (n : nat) (a : Atom) : Term := {| atom := a; least := n; most := None |}.

End RegExp.

(** ** The forms of the site *)

Module Forms.
Import JS RegExp.

(** Line 456: [/^[^\s@]+@[^\s@]+\.[^\s@]+$/]. *)
Definition emailRegex : Pattern :=
  [ plus (Bracket true [ClassSpace; Char "@"]); once (Lit "@");
    plus (Bracket true [ClassSpace; Char "@"]); once (Lit ".");
    plus (Bracket true [ClassSpace; Char "@"]) ].

(** Lines 455-458. *)
Definition validateEmail (email : string) : bool := test emailRegex email.

(** Line 464: [/^[\+]?[\d\s\-\(\)]{10,}$/]. *)
Definition phoneRegex : Pattern :=
  [ optional (Bracket false [Char "+"]);
    at_least 10 (Bracket false [ClassDigit; ClassSpace; Char "-"; Char "("; Char ")"]) ].

(** Lines 463-466. *)
Definition validatePhone (phone : string) : bool := test phoneRegex phone.

(** The object [Object.fromEntries] builds from the entries of a form, by its
    own properties; the values met here are the texts of the controls. *)
Definition FormObject : Type := list (string * string).

Definition prop (data : FormObject) (field : string) : value :=
  match assoc field data with
  | Some s => Str s
  | None => Undefined
  end.

(** [!v] *)
Definition falsy (v : value) : bool :=
  match v with
  | Str s => negb (truthy s)
  | Undefined => true
  end.

Definition required : list string := ["name"; "email"; "phone"; "subject"; "message"].

(** The loop of lines 443-447; [true] when it runs to its end. *)
Fixpoint requiredFilled (fields : list string) (data : FormObject) : bool :=
  match fields with
  | [] => true
  | field :: rest =>
      if falsy (prop data field) || (String.length (trim (ToString (prop data field))) =? 0)%nat
      then false
      else requiredFilled rest data
  end.

(** Lines 440-450.  A regular expression tests the text of its argument;
    that of [undefined] is the word. *)
Definition validateContactForm (data : FormObject) : bool :=
  if requiredFilled required data
  then validateEmail (ToString (prop data "email")) && validatePhone (ToString (prop data "phone"))
  else false.

End Forms.

(** *** Texts without white space *)

Module Plain.
Import JS RegExp Text.

(** A white-space character starts somewhere in [s]. *)
Fixpoint has_ws (s : string) : bool :=
  match s with
  | EmptyString => false
  | String _ s' => (0 <? ws_len s)%nat || has_ws s'
  end.

(** The byte [c] is in [s]. *)
Fixpoint has_byte (c : ascii) (s : string) : bool :=
  match s with
  | EmptyString => false
  | String d s' => Ascii.eqb d c || has_byte c s'
  end.

(** A character a telephone number may hold. *)
Definition phoneChar (c : string) : bool :=
  is_digit c || is_space c || String.eqb c "-" || String.eqb c "(" || String.eqb c ")".

(** The characters of a telephone number after its optional plus sign. *)
Definition afterPlus (cs : list string) : list string :=
  match cs with
  | c :: rest => if String.eqb c "+" then rest else cs
  | [] => []
  end.

(** A number of repetitions is within the upper bound of a quantifier. *)
Definition within (most : option nat) (n : nat) : Prop :=
  match most with
  | Some m => (n <= m)%nat
  | None => True
  end.

(** The bytes of a string, each as a character of its own. *)
Definition bytes (s : string) : list string :=
  map (fun c => String c "") (list_ascii_of_string s).

(** A character that [[^\s@]] matches. *)
Definition free : string -> bool := atom_matches (Bracket true [ClassSpace; Char "@"]).

End Plain.

(** *** What the page shows *)

Module Displays.
Import JS Generator Wizard Session.

(** The [data-step] of the sections that carry the class [active], in
    document order. *)
Definition activeSteps (p : Page) : list Z :=
  map data_step (filter ss_active (stepSections (dom p))).

Definition widthOf (id : string) (p : Page) : option string :=
  option_map el_width (lookup id p).

Definition innerHTMLOf (id : string) (p : Page) : option string :=
  option_map el_innerHTML (lookup id p).

Definition valueOf_ (id : string) (p : Page) : option string :=
  option_map el_value (lookup id p).

Definition filesOf (id : string) (p : Page) : option (list File) :=
  option_map el_files (lookup id p).

(** The element carries the class. *)
Definition classOn (c id : string) (p : Page) : bool :=
  match lookup id p with
  | Some e => mem c (el_classes e)
  | None => false
  end.

(** What the wizard shows of its position: the step variable, the active
    sections, the width of the progress bar and whether the Create button is
    displayed. *)
Definition shows (n : Z) (a : list Z) (w : option string) (c : bool) (p : Page) : Prop :=
  portfolioCurrentStep (vars p) = n /\ activeSteps p = a
  /\ widthOf "portfolioProgressFill" p = w /\ displayed "portfolioCreateBtn" p = c.

(** The container shows the array: it is in the page, and rendering again
    would leave its content as it is. *)
Definition rendered (render : M unit) (container : string) (p : Page) : Prop :=
  has container p = true
  /\ innerHTMLOf container (page_after (render p)) = innerHTMLOf container p.

Definition listsRendered (p : Page) : Prop :=
  rendered (renderPortfolioList "portfolioSkillsList" (portfolioSkills (vars p))
              "removePortfolioSkill") "portfolioSkillsList" p
  /\ rendered renderPortfolioCertsList "portfolioCertsList" p
  /\ rendered renderPortfolioWorkList "portfolioWorkList" p.

(** The container [c] holds the markup [mk] of the array [proj] reads. *)
Definition shown_list {A : Type} (c : string) (proj : Globals -> list A)
  (mk : list A -> string) (p : Page) : Prop :=
  has c p = true /\ innerHTMLOf c p = Some (mk (proj (vars p))).

(** The step on show is the current step. *)
Definition on_show (p : Page) : Prop :=
  shows (portfolioCurrentStep (vars p)) [portfolioCurrentStep (vars p)]
    (Some (progressWidth (portfolioCurrentStep (vars p))))
    (portfolioCurrentStep (vars p) =? portfolioTotalSteps)%Z p.

(** The downloads a timer closure adds when it runs. *)
Definition offered (confirmed : bool) (cb : Callback) : list (string * string) :=
  match cb with
  | DownloadPrompt portfolioHTML fullName =>
      if confirmed then [(replace_ws_runs "_" 0 false fullName ++ "_Portfolio.html", portfolioHTML)]
      else []
  | ResetForm => []
  end.

(** The text of a control, empty when the control is not in the page. *)
Definition textOf (id : string) (p : Page) : string :=
  match lookup id p with
  | Some e => el_value e
  | None => EmptyString
  end.

(** The controls [createPortfolioFromBuilder] reads, in the order it reads
    them. *)
Definition snapshotControls : list string :=
  [ "portfolioFullName"; "portfolioEmail"; "portfolioTitle"; "portfolioBio";
    "portfolioProfileImage"; "portfolioSelectedDomain"; "portfolioExperience";
    "portfolioEducation"; "portfolioPhone"; "portfolioLocation"; "portfolioLinkedin";
    "portfolioGithub"; "portfolioWebsite"; "portfolioTwitter"; "portfolioSelectedTheme" ].

(** The snapshot of a page: the texts of the controls as they are, the
    three arrays, and the project cards that have a name and a description. *)
Definition snapshot (projectCards : list Project) (p : Page) : FormData :=
  {| fullName := textOf "portfolioFullName" p; email := textOf "portfolioEmail" p;
     title := textOf "portfolioTitle" p; bio := textOf "portfolioBio" p;
     profileImage := textOf "portfolioProfileImage" p;
     domain := textOf "portfolioSelectedDomain" p;
     experience := textOf "portfolioExperience" p;
     skills := portfolioSkills (vars p); projects := harvestProjects projectCards;
     certificates := portfolioCertificates (vars p);
     workExperience := portfolioWorkExperience (vars p);
     education := textOf "portfolioEducation" p; phone := textOf "portfolioPhone" p;
     location := textOf "portfolioLocation" p; linkedin := textOf "portfolioLinkedin" p;
     github := textOf "portfolioGithub" p; website := textOf "portfolioWebsite" p;
     twitter := textOf "portfolioTwitter" p; theme := textOf "portfolioSelectedTheme" p |}.

(** A project as the harvest leaves it: a name and a description, and the
    five texts trimmed. *)
Definition harvested (pr : Project) : Prop :=
  p_name pr <> EmptyString /\ p_desc pr <> EmptyString
  /\ trim (p_name pr) = p_name pr /\ trim (p_desc pr) = p_desc pr
  /\ trim (p_image pr) = p_image pr /\ trim (p_link pr) = p_link pr
  /\ trim (p_github pr) = p_github pr.



End Displays.

(** ** The manager of the site: menu, navigation and certificate cards *)

Module Site.
Import JS.

(** What the manager reads and writes of an element: two attributes, the
    class list, [aria-expanded], the animation of its style, its offset from
    the top, and the first element inside it that matches
    [.cert-preview, .cert-placeholder], if any. *)
Record Node : Type := {
  n_id : option string;
  n_href : option string;
  n_classes : list string;
  n_ariaExpanded : option string;
  n_animation : string;
  n_offsetTop : Z;
  n_preview : option nat
}.

(** The elements of the page by position in the document, those the
    constructor caches (lines 51-65), the state of the manager (lines 18-23),
    the overflow of the body and the positions [window.scrollTo] was asked
    for. *)
Record State : Type := {
  nodes : list Node;
  menuToggle : option nat;
  navbar : option nat;
  navLinks : list nat;
  isMenuOpen : bool;
  currentSection : option string;
  animatedElements : list nat;
  bodyOverflow : string;
  scrolledTo : list Z
}.

Definition with_classes (v : list string) (n : Node) : Node :=
  {| n_id := n_id n; n_href := n_href n; n_classes := v; n_ariaExpanded := n_ariaExpanded n;
     n_animation := n_animation n; n_offsetTop := n_offsetTop n; n_preview := n_preview n |}.
Definition with_ariaExpanded (v : string) (n : Node) : Node :=
  {| n_id := n_id n; n_href := n_href n; n_classes := n_classes n; n_ariaExpanded := Some v;
     n_animation := n_animation n; n_offsetTop := n_offsetTop n; n_preview := n_preview n |}.
Definition with_animation (v : string) (n : Node) : Node :=
  {| n_id := n_id n; n_href := n_href n; n_classes := n_classes n;
     n_ariaExpanded := n_ariaExpanded n;
     n_animation := v; n_offsetTop := n_offsetTop n; n_preview := n_preview n |}.

Definition with_nodes (v : list Node) (s : State) : State :=
  {| nodes := v; menuToggle := menuToggle s; navbar := navbar s; navLinks := navLinks s;
     isMenuOpen := isMenuOpen s; currentSection := currentSection s;
     animatedElements := animatedElements s; bodyOverflow := bodyOverflow s;
     scrolledTo := scrolledTo s |}.
Definition with_isMenuOpen (v : bool) (s : State) : State :=
  {| nodes := nodes s; menuToggle := menuToggle s; navbar := navbar s; navLinks := navLinks s;
     isMenuOpen := v; currentSection := currentSection s;
     animatedElements := animatedElements s; bodyOverflow := bodyOverflow s;
     scrolledTo := scrolledTo s |}.
Definition with_currentSection (v : option string) (s : State) : State :=
  {| nodes := nodes s; menuToggle := menuToggle s; navbar := navbar s; navLinks := navLinks s;
     isMenuOpen := isMenuOpen s; currentSection := v;
     animatedElements := animatedElements s; bodyOverflow := bodyOverflow s;
     scrolledTo := scrolledTo s |}.
Definition with_animatedElements (v : list nat) (s : State) : State :=
  {| nodes := nodes s; menuToggle := menuToggle s; navbar := navbar s; navLinks := navLinks s;
     isMenuOpen := isMenuOpen s; currentSection := currentSection s;
     animatedElements := v; bodyOverflow := bodyOverflow s;
     scrolledTo := scrolledTo s |}.
Definition with_bodyOverflow (v : string) (s : State) : State :=
  {| nodes := nodes s; menuToggle := menuToggle s; navbar := navbar s; navLinks := navLinks s;
     isMenuOpen := isMenuOpen s; currentSection := currentSection s;
     animatedElements := animatedElements s; bodyOverflow := v;
     scrolledTo := scrolledTo s |}.
Definition with_scrolledTo (v : list Z) (s : State) : State :=
  {| nodes := nodes s; menuToggle := menuToggle s; navbar := navbar s; navLinks := navLinks s;
     isMenuOpen := isMenuOpen s; currentSection := currentSection s;
     animatedElements := animatedElements s; bodyOverflow := bodyOverflow s;
     scrolledTo := v |}.

(** [classList]: a set of tokens kept in the order they were added. *)
Definition contains (c : string) (n : Node) : bool := mem c (n_classes n).
Definition add (c : string) (n : Node) : Node :=
  if contains c n then n else with_classes (n_classes n ++ [c])%list n.
Definition remove (c : string) (n : Node) : Node :=
  with_classes (filter (fun x => negb (String.eqb x c)) (n_classes n)) n.
Definition toggle (c : string) (n : Node) : Node :=
  if contains c n then remove c n else add c n.

(** A write to the element at position [k]. *)
Fixpoint update_nth (k : nat) (f : Node -> Node) (l : list Node) : list Node :=
  match l, k with
  | [], _ => []
  | n :: l', O => f n :: l'
  | n :: l', S k' => n :: update_nth k' f l'
  end.

(** *** Calls: state and exceptions *)

Inductive Result (A : Type) : Type :=
| Done (a : A) (s : State)
| Failed (s : State).
Arguments Done {A} a s.
Arguments Failed {A} s.

Definition Act (A : Type) : Type := State -> Result A.

Definition pure {A : Type} (a : A) : Act A := fun s => Done a s.
Definition andThen {A B : Type} (m : Act A) (k : A -> Act B) : Act B :=
  fun s => match m s with
           | Done a s' => k a s'
           | Failed s' => Failed s'
           end.
Definition typeError {A : Type} : Act A := fun s => Failed s.
Definition read : Act State := fun s => Done s s.
Definition change (f : State -> State) : Act unit := fun s => Done tt (f s).

Notation "x <-- m ;;; k" := (andThen m (fun x => k))
  (at level 61, m at next level, right associativity).
Notation "m ;;; k" := (andThen m (fun _ => k))
  (at level 61, right associativity).

Definition state_after {A : Type} (r : Result A) : State :=
  match r with
  | Done _ s => s
  | Failed s => s
  end.

(** A property read on a cached element: a [TypeError] when the element is
    [null]. *)
Definition deref (e : option nat) : Act nat :=
  match e with
  | Some k => pure k
  | None => typeError
  end.

Definition node (k : nat) : Act Node :=
  s <-- read ;;;
  match nth_error (nodes s) k with
  | Some n => pure n
  | None => typeError
  end.

Definition write (k : nat) (f : Node -> Node) : Act unit :=
  change (fun s => with_nodes (update_nth k f (nodes s)) s).

Fixpoint forEach {A : Type} (l : list A) (body : A -> Act unit) : Act unit :=
  match l with
  | [] => pure tt
  | x :: l' => body x ;;; forEach l' body
  end.

(** *** The methods *)

(** Lines 1164-1169. *)
Definition smoothScrollTo (targetPosition : Z) : Act unit :=
  change (fun s => with_scrolledTo (scrolledTo s ++ [targetPosition])%list s).

(** Lines 1174-1179. *)
Definition closeMobileMenu : Act unit :=
  change (with_isMenuOpen false) ;;;
  s <-- read ;;;
  t <-- deref (menuToggle s) ;;;
  write t (remove "bx-x") ;;;
  n <-- deref (navbar s) ;;;
  write n (remove "active") ;;;
  change (with_bodyOverflow "").

(** Lines 1184-1191. *)
Definition updateActiveNavLink (activeHref : string) : Act unit :=
  s <-- read ;;;
  forEach (navLinks s) (fun link =>
    write link (remove "active") ;;;
    l <-- node link ;;;
    match n_href l with
    | Some h => if String.eqb h activeHref then write link (add "active") else pure tt
    | None => pure tt
    end).

(** Lines 294-304. *)
Definition toggleMobileMenu : Act unit :=
  change (fun s => with_isMenuOpen (negb (isMenuOpen s)) s) ;;;
  s <-- read ;;;
  t <-- deref (menuToggle s) ;;;
  write t (toggle "bx-x") ;;;
  n <-- deref (navbar s) ;;;
  write n (toggle "active") ;;;
  change (fun s => with_bodyOverflow (if isMenuOpen s then "hidden" else "") s).

(** Lines 309-321; [link] is the link clicked, [targetSection] the element
    [getElementById] finds for its [href] without the first character. *)
Definition handleNavigation (link : nat) (targetSection : option nat) : Act unit :=
  l <-- node link ;;;
  match n_href l with
  | None => typeError
  | Some href =>
      match targetSection with
      | None => pure tt
      | Some target =>
          t <-- node target ;;;
          smoothScrollTo (n_offsetTop t - 100) ;;;
          closeMobileMenu ;;;
          updateActiveNavLink href
      end
  end.

(** Lines 350-357.  The text of a missing [id] is that of [null]. *)
Definition handleSectionIntersection (section : nat) : Act unit :=
  sec <-- node section ;;;
  change (with_currentSection (n_id sec)) ;;;
  updateActiveNavLink ("#" ++ match n_id sec with Some i => i | None => "null" end) ;;;
  write section (add "start-animation").

(** Lines 362-377. *)
Definition animateElement (element : nat) : Act unit :=
  s <-- read ;;;
  if existsb (Nat.eqb element) (animatedElements s) then pure tt
  else
    change (fun s => with_animatedElements (animatedElements s ++ [element])%list s) ;;;
    e <-- node element ;;;
    if contains "education-content" e then write element (add "animate-slide-left")
    else if contains "skill-item" e then write element (add "animate-scale")
    else if contains "project-card" e then write element (add "animate-fade-in")
    else write element (add "animate-fade-in").

(** Lines 1121-1124. *)
Definition closeCertificatePreview (card : nat) : Act unit :=
  _ <-- node card ;;;
  write card (remove "cert-card-active") ;;;
  write card (with_ariaExpanded "false").

(** Lines 1107-1116. *)
Definition openCertificatePreview (card : nat) : Act unit :=
  c <-- node card ;;;
  write card (add "cert-card-active") ;;;
  write card (with_ariaExpanded "true") ;;;
  match n_preview c with
  | Some preview => write preview (with_animation "certificateAppear 0.6s ease-out")
  | None => pure tt
  end.

(** [document.querySelectorAll('.cert-card-active')] *)
Fixpoint activeFrom (i : nat) (l : list Node) : list nat :=
  match l with
  | [] => []
  | n :: l' => if contains "cert-card-active" n then i :: activeFrom (S i) l'
               else activeFrom (S i) l'
  end.

(** Lines 1087-1102. *)
Definition toggleCertificatePreview (card : nat) : Act unit :=
  c <-- node card ;;;
  let isActive := contains "cert-card-active" c in
  s <-- read ;;;
  forEach (activeFrom 0 (nodes s)) (fun activeCard =>
    if negb (Nat.eqb activeCard card) then closeCertificatePreview activeCard else pure tt) ;;;
  if isActive then closeCertificatePreview card else openCertificatePreview card.

(** Lines 1125-1130. *)
Definition handleKeyboardNavigation (key : string) : Act unit :=
  s <-- read ;;;
  if String.eqb key "Escape" && isMenuOpen s then closeMobileMenu else pure tt.

(** Lines 1135-1141; the event says whether the navbar and the menu toggle
    contain its target. *)
Definition handleOutsideClick (inNavbar inMenuToggle : bool) : Act unit :=
  s <-- read ;;;
  if isMenuOpen s
  then _ <-- deref (navbar s) ;;;
       if negb inNavbar
       then _ <-- deref (menuToggle s) ;;;
            if negb inMenuToggle then closeMobileMenu else pure tt
       else pure tt
  else pure tt.

(** Lines 1146-1151. *)
Definition handleResize (innerWidth : Z) : Act unit :=
  s <-- read ;;;
  if (innerWidth >? 768)%Z && isMenuOpen s then closeMobileMenu else pure tt.

(** *** What happens to the site *)

Inductive Event : Type :=
| MenuClick
| NavClick (link : nat) (targetSection : option nat)
| KeyDown (key : string)
| DocumentClick (inNavbar inMenuToggle : bool)
| Resize (innerWidth : Z)
| SectionSeen (section : nat)
| ElementSeen (element : nat)
| CardToggled (card : nat)
| CardClosed (card : nat).

Definition handle (ev : Event) : Act unit :=
  match ev with
  | MenuClick => toggleMobileMenu
  | NavClick link targetSection => handleNavigation link targetSection
  | KeyDown key => handleKeyboardNavigation key
  | DocumentClick inNavbar inMenuToggle => handleOutsideClick inNavbar inMenuToggle
  | Resize innerWidth => handleResize innerWidth
  | SectionSeen section => handleSectionIntersection section
  | ElementSeen element => animateElement element
  | CardToggled card => toggleCertificatePreview card
  | CardClosed card => closeCertificatePreview card
  end.

Fixpoint play (evs : list Event) (s : State) : State :=
  match evs with
  | [] => s
  | ev :: evs' => play evs' (state_after (handle ev s))
  end.

(** *** Vocabulary *)

Definition hasClass (c : string) (k : nat) (s : State) : bool :=
  match nth_error (nodes s) k with
  | Some n => contains c n
  | None => false
  end.

Definition hrefOf (k : nat) (s : State) : option string :=
  match nth_error (nodes s) k with
  | Some n => n_href n
  | None => None
  end.

Definition ariaOf (k : nat) (s : State) : option string :=
  match nth_error (nodes s) k with
  | Some n => n_ariaExpanded n
  | None => None
  end.



(** A call keeps a property of the site, whether it returns or throws. *)
Definition keeps {A : Type} (I : State -> Prop) (m : Act A) : Prop :=
  forall s, I s -> I (state_after (m s)).

(** What no method changes: which elements are cached, and how many
    elements the page has. *)
Definition wiring (s : State) : option nat * option nat * list nat * nat :=
  (menuToggle s, navbar s, navLinks s, List.length (nodes s)).


(** The cards whose preview is open. *)
Definition openCards (s : State) : list nat := activeFrom 0 (nodes s).

Definition previewOpen (k : nat) (s : State) : bool := hasClass "cert-card-active" k s.

Definition active (nd : Node) : bool := contains "cert-card-active" nd.

(** The link is among the navigation links. *)
Definition isNavLink (k : nat) (s : State) : bool := existsb (Nat.eqb k) (navLinks s).

(** The [href] of the element is the text [h]. *)
Definition hrefIs (h : string) (k : nat) (s : State) : bool :=
  match hrefOf k s with
  | Some x => String.eqb x h
  | None => false
  end.

(** A page with a menu toggle, a navbar, two navigation links, two sections
    and two certificate cards, one of them with a preview inside. *)
Definition plainNode : Node :=
  {| n_id := None; n_href := None; n_classes := []; n_ariaExpanded := None;
     n_animation := ""; n_offsetTop := 0; n_preview := None |}.

Definition sampleSite : State :=
  {| nodes :=
       [ plainNode; plainNode;
         {| n_id := None; n_href := Some "#home"; n_classes := ["active"];
            n_ariaExpanded := None; n_animation := ""; n_offsetTop := 0; n_preview := None |};
         {| n_id := None; n_href := Some "#skills"; n_classes := [];
            n_ariaExpanded := None; n_animation := ""; n_offsetTop := 0; n_preview := None |};
         {| n_id := Some "home"; n_href := None; n_classes := [];
            n_ariaExpanded := None; n_animation := ""; n_offsetTop := 0; n_preview := None |};
         {| n_id := Some "skills"; n_href := None; n_classes := ["skill-item"];
            n_ariaExpanded := None; n_animation := ""; n_offsetTop := 900; n_preview := None |};
         {| n_id := None; n_href := None; n_classes := ["cert-card"];
            n_ariaExpanded := None; n_animation := ""; n_offsetTop := 0; n_preview := Some 8%nat |};
         {| n_id := None; n_href := None; n_classes := ["cert-card"];
            n_ariaExpanded := None; n_animation := ""; n_offsetTop := 0; n_preview := None |};
         {| n_id := None; n_href := None; n_classes := ["cert-preview"];
            n_ariaExpanded := None; n_animation := ""; n_offsetTop := 0; n_preview := None |} ];
     menuToggle := Some 0%nat; navbar := Some 1%nat; navLinks := [2%nat; 3%nat];
     isMenuOpen := false; currentSection := Some "home"; animatedElements := [];
     bodyOverflow := ""; scrolledTo := [] |}.

End Site.

(** ** The typewriter of the hero section (script.js, lines 226-265) *)

Module Typewriter.
Import JS.

(** [String.prototype.substring]: both indices are clamped to the string and
    swapped when out of order.  A string is the sequence of its code units,
    which for the phrases of the script are its bytes. *)
Definition clamp (x : Z) (len : nat) : nat := Z.to_nat (Z.min (Z.max x 0) (Z.of_nat len)).

Definition substring (indexStart indexEnd : Z) (s : string) : string :=
  let a := clamp indexStart (String.length s) in
  let b := clamp indexEnd (String.length s) in
  String.substring (Nat.min a b) (Nat.max a b - Nat.min a b) s.

(** Lines 14-15 of the configuration. *)
Definition typewriterSpeed : Z := 100.
Definition typewriterDelay : Z := 2000.

(** Lines 229-234. *)
Definition phrases : list string :=
  [ "BTech Student | Aspiring Developer"; "Frontend Enthusiast"; "Problem Solver";
    "Creative Thinker" ].

(** The variables of the closure and the text of the element. *)
Record Typing : Type := {
  currentPhrase : nat;
  currentChar : Z;
  isDeleting : bool;
  textContent : string
}.

(** Lines 240-262, one call of [typeWriter] over the phrases [phrases]: the
    variables after it and the delay given to [setTimeout].  [None] is the
    [TypeError] of [current.substring] on a phrase that is [undefined]. *)
Definition typeWriter (phrases : list string) (t : Typing) : option (Typing * Z) :=
  match nth_error phrases (currentPhrase t) with
  | None => None
  | Some current =>
      let text := if isDeleting t
                  then substring 0 (currentChar t - 1) current
                  else substring 0 (currentChar t + 1) current in
      let char := if isDeleting t then (currentChar t - 1)%Z else (currentChar t + 1)%Z in
      let speed := if isDeleting t then 50%Z else typewriterSpeed in
      if negb (isDeleting t) && (char =? Z.of_nat (String.length current))%Z
      then Some ({| currentPhrase := currentPhrase t; currentChar := char;
                    isDeleting := true; textContent := text |}, typewriterDelay)
      else if isDeleting t && (char =? 0)%Z
      then Some ({| currentPhrase := (currentPhrase t + 1) mod List.length phrases;
                    currentChar := char; isDeleting := false; textContent := text |}, speed)
      else Some ({| currentPhrase := currentPhrase t; currentChar := char;
                    isDeleting := isDeleting t; textContent := text |}, speed)
  end.

(** The variables as [initTypewriter] declares them (lines 236-238), over
    the text the element has. *)
Definition start (text : string) : Typing :=
  {| currentPhrase := 0; currentChar := 0; isDeleting := false; textContent := text |}.

(** Lines 226-265: nothing happens without the element; with it, the first
    call of [typeWriter] is made at once. *)
Definition initTypewriter (typewriterElement : option string) : option (option (Typing * Z)) :=
  match typewriterElement with
  | None => None
  | Some text => Some (typeWriter phrases (start text))
  end.

(** [n] calls of [typeWriter], each made by the timer the one before has
    set, and the delays of the timers in the order they were set. *)
Fixpoint ticks (phrases : list string) (n : nat) (t : Typing) : option (Typing * list Z) :=
  match n with
  | O => Some (t, [])
  | S n' =>
      match typeWriter phrases t with
      | None => None
      | Some (t', speed) =>
          match ticks phrases n' t' with
          | None => None
          | Some (t'', speeds) => Some (t'', speed :: speeds)
          end
      end
  end.

(** The variables at the start of phrase [i], whatever the element shows. *)
Definition atPhrase (i : nat) (text : string) : Typing :=
  {| currentPhrase := i; currentChar := 0; isDeleting := false; textContent := text |}.

(** The variables are within a cycle: while typing, fewer letters than the
    phrase has are shown; while deleting, one at least. *)
Definition inCycle (phrases : list string) (t : Typing) : Prop :=
  exists w, nth_error phrases (currentPhrase t) = Some w
    /\ (if isDeleting t
        then (1 <= currentChar t <= Z.of_nat (String.length w))%Z
        else (0 <= currentChar t < Z.of_nat (String.length w))%Z).

(** The element shows the first [currentChar] letters of the current
    phrase. *)
Definition showsPrefix (phrases : list string) (t : Typing) : Prop :=
  exists w, nth_error phrases (currentPhrase t) = Some w
    /\ textContent t = String.substring 0 (Z.to_nat (currentChar t)) w.

End Typewriter.

(** ** The throttle and the debounce of the manager (script.js, lines 1196-1218) *)

Module Timing.

(** What happens to a debounced function: the wrapper is called with some
    arguments, time passes, or the timer that is due first fires (at its due
    time or later, never before). *)
Inductive Event (A : Type) : Type :=
| Call (args : A)
| Pass (ms : nat)
| TimerFires.
Arguments Call {A} args.
Arguments Pass {A} ms.
Arguments TimerFires {A}.


(** [setTimeout] takes a negative delay for zero. *)
Definition dueAfter (now delay : Z) : Z := (now + Z.max 0 delay)%Z.

(** *** throttle (lines 1196-1207) *)

Module Throttle.

(** What happens to a throttled function: the wrapper is called with some
    arguments, and [func], if it runs, returns or throws; time passes; the
    timer that is due first fires.  [func] is taken not to call the wrapper
    itself while it runs. *)
Inductive Happening (A : Type) : Type :=
| Called (args : A) (returns : bool)
| Passed (ms : nat)
| Fired.
Arguments Called {A} args returns.
Arguments Passed {A} ms.
Arguments Fired {A}.

(** The variable [inThrottle] of the closure, the clock, the due times of
    the pending timers, and the runs of [func] so far: when, with which
    arguments, and whether the run returned. *)
Record State (A : Type) : Type := {
  now : Z;
  inThrottle : bool;
  timers : list Z;
  invoked : list (Z * A * bool)
}.
Arguments now {A} _.
Arguments inThrottle {A} _.
Arguments timers {A} _.
Arguments invoked {A} _.

Fixpoint insert_timer (due : Z) (l : list Z) : list Z :=
  match l with
  | [] => [due]
  | d :: rest => if (due <? d)%Z then due :: l else d :: insert_timer due rest
  end.

(** [inThrottle] is [undefined] when the wrapper is made. *)
Definition created {A : Type} (t0 : Z) : State A :=
  {| now := t0; inThrottle := false; timers := []; invoked := [] |}.

(** Lines 1198-1205, the function [throttle] returns.  [func.apply] comes
    first (line 1202): when it throws, the exception leaves the wrapper
    before [inThrottle] is set and before the timer is (lines 1203-1204). *)
Definition wrapper {A : Type} (limit : Z) (args : A) (returns : bool) (s : State A)
  : State A :=
  if negb (inThrottle s)
  then if returns
       then {| now := now s;
               inThrottle := true;
               timers := insert_timer (dueAfter (now s) limit) (timers s);
               invoked := invoked s ++ [(now s, args, true)] |}
       else {| now := now s;
               inThrottle := inThrottle s;
               timers := timers s;
               invoked := invoked s ++ [(now s, args, false)] |}
  else s.

(** Line 1204, the callback of the timer. *)
Definition fire {A : Type} (s : State A) : State A :=
  match timers s with
  | [] => s
  | due :: rest =>
      {| now := Z.max (now s) due; inThrottle := false; timers := rest;
         invoked := invoked s |}
  end.

Definition step {A : Type} (limit : Z) (ev : Happening A) (s : State A) : State A :=
  match ev with
  | Called args returns => wrapper limit args returns s
  | Passed ms => {| now := now s + Z.of_nat ms; inThrottle := inThrottle s;
                    timers := timers s; invoked := invoked s |}
  | Fired => fire s
  end.

Fixpoint play {A : Type} (limit : Z) (evs : list (Happening A)) (s : State A) : State A :=
  match evs with
  | [] => s
  | ev :: evs' => play limit evs' (step limit ev s)
  end.




End Throttle.

(** *** debounce (lines 1212-1218) *)

Module Debounce.

(** The variable [timeoutId] of the closure, the clock, the pending timers
    (identifier, due time, arguments of the call that set it), and the
    calls of [func] made so far with their times. *)
Record State (A : Type) : Type := {
  now : Z;
  nextId : nat;
  timeoutId : option nat;
  timers : list (nat * Z * A);
  invoked : list (Z * A)
}.
Arguments now {A} _.
Arguments nextId {A} _.
Arguments timeoutId {A} _.
Arguments timers {A} _.
Arguments invoked {A} _.

Fixpoint insert_timer {A : Type} (t : nat * Z * A) (l : list (nat * Z * A))
  : list (nat * Z * A) :=
  match l with
  | [] => [t]
  | d :: rest => if (snd (fst t) <? snd (fst d))%Z then t :: l else d :: insert_timer t rest
  end.

(** [clearTimeout]: nothing happens for [undefined] or for a timer that is
    no longer pending. *)
Definition clearTimeout {A : Type} (id : option nat) (l : list (nat * Z * A))
  : list (nat * Z * A) :=
  match id with
  | None => l
  | Some i => filter (fun t => negb (Nat.eqb (fst (fst t)) i)) l
  end.

Definition created {A : Type} (t0 : Z) : State A :=
  {| now := t0; nextId := 1; timeoutId := None; timers := []; invoked := [] |}.

(** Lines 1214-1217, the function [debounce] returns. *)
Definition wrapper {A : Type} (delay : Z) (args : A) (s : State A) : State A :=
  let cleared := clearTimeout (timeoutId s) (timers s) in
  {| now := now s;
     nextId := S (nextId s);
     timeoutId := Some (nextId s);
     timers := insert_timer (nextId s, dueAfter (now s) delay, args) cleared;
     invoked := invoked s |}.

(** Line 1216, the callback of the timer. *)
Definition fire {A : Type} (s : State A) : State A :=
  match timers s with
  | [] => s
  | (_, due, args) :: rest =>
      {| now := Z.max (now s) due; nextId := nextId s; timeoutId := timeoutId s;
         timers := rest; invoked := invoked s ++ [(Z.max (now s) due, args)] |}
  end.

Definition step {A : Type} (delay : Z) (ev : Event A) (s : State A) : State A :=
  match ev with
  | Call args => wrapper delay args s
  | Pass ms => {| now := now s + Z.of_nat ms; nextId := nextId s; timeoutId := timeoutId s;
                  timers := timers s; invoked := invoked s |}
  | TimerFires => fire s
  end.

Fixpoint play {A : Type} (delay : Z) (evs : list (Event A)) (s : State A) : State A :=
  match evs with
  | [] => s
  | ev :: evs' => play delay evs' (step delay ev s)
  end.



End Debounce.

End Timing.

(** * Properties *)

(** ** Texts *)

Module TextFacts.
Import JS Text.

Lemma append_nil_r (s : string) : s ++ "" = s.
Proof. induction s as [|c s IH]; simpl; [reflexivity | now rewrite IH]. Qed.

Lemma append_assoc (a b c : string) : (a ++ b) ++ c = a ++ (b ++ c).
Proof. induction a as [|x a IH]; simpl; [reflexivity | now rewrite IH]. Qed.

Lemma starts_with_app (m s : string) : starts_with m (m ++ s) = true.
Proof.
  induction m as [|c m IH]; simpl; [reflexivity|].
  now rewrite Ascii.eqb_refl, IH.
Qed.

Lemma starts_with_app_l (m a b : string) :
  starts_with m a = true -> starts_with m (a ++ b) = true.
Proof.
  revert a; induction m as [|c m IH]; intros a H; [reflexivity|].
  destruct a as [|d a]; simpl in *; [discriminate|].
  apply andb_true_iff in H as [H1 H2].
  now rewrite H1, (IH _ H2).
Qed.

Lemma occurs_here (m s : string) : occurs m (m ++ s) = true.
Proof.
  destruct (m ++ s) eqn:E; simpl; rewrite <- E, starts_with_app; reflexivity.
Qed.

Lemma occurs_app_l (m a b : string) : occurs m a = true -> occurs m (a ++ b) = true.
Proof.
  induction a as [|c a IH]; simpl; intros H.
  - rewrite orb_false_r in H. destruct m; [|discriminate].
    destruct b; reflexivity.
  - apply orb_true_iff in H as [H|H].
    + change (String c (a ++ b)) with (String c a ++ b).
      now rewrite (starts_with_app_l _ _ _ H).
    + rewrite (IH H). apply orb_true_r.
Qed.

Lemma occurs_app_r (m a b : string) : occurs m b = true -> occurs m (a ++ b) = true.
Proof.
  intros H; induction a as [|c a IH]; simpl; [exact H|].
  rewrite IH. apply orb_true_r.
Qed.

(** [occurs] is the substring relation. *)
Lemma starts_with_iff (m s : string) :
  starts_with m s = true <-> exists b, s = m ++ b.
Proof.
  split.
  - revert s; induction m as [|c m IH]; intros s H; [now exists s|].
    destruct s as [|d s]; simpl in H; [discriminate|].
    apply andb_true_iff in H as [H1 H2].
    apply Ascii.eqb_eq in H1; subst d.
    destruct (IH _ H2) as [b ->]. now exists b.
  - intros [b ->]. apply starts_with_app.
Qed.

Lemma occurs_iff (m s : string) :
  occurs m s = true <-> exists a b, s = a ++ m ++ b.
Proof.
  split.
  - induction s as [|c s IH]; simpl; intros H.
    + rewrite orb_false_r in H. apply starts_with_iff in H as [b Hb].
      now exists "", b.
    + apply orb_true_iff in H as [H|H].
      * apply starts_with_iff in H as [b Hb]. now exists "", b.
      * destruct (IH H) as (a & b & ->). now exists (String c a), b.
  - intros (a & b & ->). apply occurs_app_r, occurs_here.
Qed.

Lemma mismatch_app (m s t : string) : mismatch m s = true -> mismatch m (s ++ t) = true.
Proof.
  revert s; induction m as [|c m IH]; intros s H; [discriminate|].
  destruct s as [|d s]; simpl in *; [discriminate|].
  destruct (Ascii.eqb c d); [now apply IH | reflexivity].
Qed.

Lemma mismatch_starts_with (m s : string) : mismatch m s = true -> starts_with m s = false.
Proof.
  revert s; induction m as [|c m IH]; intros s H; [discriminate|].
  destruct s as [|d s]; simpl in *; [reflexivity|].
  destruct (Ascii.eqb c d); simpl; [now apply IH | reflexivity].
Qed.

Lemma safe_app (m a b : string) :
  safe m a = true -> safe m b = true -> safe m (a ++ b) = true.
Proof.
  intros Ha Hb; induction a as [|c a IH]; simpl; [exact Hb|].
  simpl in Ha. apply andb_true_iff in Ha as [H1 H2].
  rewrite (IH H2), andb_true_r.
  apply orb_true_iff in H1 as [H1|H1]; [now rewrite H1|].
  change (String c (a ++ b)) with (String c a ++ b).
  rewrite (mismatch_app _ _ _ H1). apply orb_true_r.
Qed.

Lemma no_lt_safe (m s : string) : no_lt s = true -> safe m s = true.
Proof.
  induction s as [|c s IH]; simpl; intros H; [reflexivity|].
  apply andb_true_iff in H as [H1 H2]. now rewrite H1, (IH H2).
Qed.

(** A text that is [safe] for [m] holds no occurrence of [m], when [m] starts
    with the tag-opening sign. *)
Lemma safe_not_occurs (m s : string) :
  starts_with (String lt_sign "") m = true -> safe m s = true -> occurs m s = false.
Proof.
  intros Hm. destruct m as [|c m]; [discriminate|].
  cbn [starts_with] in Hm. rewrite andb_true_r in Hm. apply Ascii.eqb_eq in Hm; subst c.
  induction s as [|d s IH]; intros H; [reflexivity|].
  cbn [safe] in H. apply andb_true_iff in H as [H1 H2].
  cbn [occurs]. rewrite (IH H2), orb_false_r.
  apply orb_true_iff in H1 as [H1|H1].
  - cbn [starts_with]. rewrite Ascii.eqb_sym. apply negb_true_iff in H1. now rewrite H1.
  - now apply mismatch_starts_with.
Qed.

(** A beginning of [m] that [t] holds to its end is not continued by [r]. *)
Lemma mismatch_continue (m t r : string) :
  tails_mismatch m r = true -> starts_with m t = false -> mismatch m (t ++ r) = true.
Proof.
  revert t; induction m as [|c m IH]; intros t Hb Hs; [cbn in Hs; discriminate|].
  cbn [tails_mismatch] in Hb. apply andb_true_iff in Hb as [Hb1 Hb2].
  destruct t as [|d t]; [exact Hb1|].
  cbn [append mismatch]. cbn [starts_with] in Hs.
  destruct (Ascii.eqb c d); [now apply IH | reflexivity].
Qed.

(** A text that holds no occurrence of [m], put before a text that continues
    no beginning of [m], lets no occurrence of [m] start in it. *)
Lemma safe_field (m s r rest : string) :
  breaks m r = true -> occurs m s = false -> safe m (r ++ rest) = true ->
  safe m (s ++ (r ++ rest)) = true.
Proof.
  intros Hb Ho Hr. induction s as [|c s IH]; [exact Hr|].
  cbn [occurs] in Ho. apply orb_false_iff in Ho as [Hs Ho].
  cbn [append safe]. rewrite (IH Ho), andb_true_r.
  destruct (Ascii.eqb c lt_sign); [|reflexivity]. cbn [negb orb].
  change (String c (s ++ (r ++ rest))) with (String c s ++ (r ++ rest)).
  rewrite <- append_assoc. apply mismatch_app.
  destruct m as [|a m]; [cbn in Hs; discriminate|].
  cbn [append mismatch]. cbn [starts_with] in Hs. cbn [breaks] in Hb.
  destruct (Ascii.eqb a c); [now apply mismatch_continue | reflexivity].
Qed.

Lemma safe_field_last (m s r : string) :
  breaks m r = true -> occurs m s = false -> safe m r = true -> safe m (s ++ r) = true.
Proof.
  intros Hb Ho Hr. rewrite <- (append_nil_r r). apply safe_field; [exact Hb | exact Ho|].
  now rewrite append_nil_r.
Qed.

(** *** Trimming *)

Lemma rev_append_app (s acc : string) : rev_append s acc = rev s ++ acc.
Proof.
  unfold rev. revert acc; induction s as [|c s IH]; intros acc; cbn [rev_append]; [reflexivity|].
  rewrite IH, (IH (String c "")), append_assoc. reflexivity.
Qed.

Lemma rev_app (a b : string) : rev (a ++ b) = rev b ++ rev a.
Proof.
  induction a as [|c a IH]; cbn [append].
  - now rewrite append_nil_r.
  - unfold rev at 1 3. cbn [rev_append]. rewrite !rev_append_app, IH, append_assoc. reflexivity.
Qed.

Lemma rev_involutive (s : string) : rev (rev s) = s.
Proof.
  induction s as [|c s IH]; [reflexivity|].
  unfold rev at 2. cbn [rev_append]. rewrite rev_append_app, rev_app, IH. reflexivity.
Qed.

(** What [drop_ws] returns starts with no white space and is the end of its
    argument. *)
Lemma drop_ws_clean (len : string -> nat) (s : string) (skip : nat) :
  len "" = 0%nat -> len (drop_ws len skip s) = 0%nat.
Proof.
  intros H0. revert skip; induction s as [|c s IH]; intros skip; cbn [drop_ws]; [exact H0|].
  destruct skip as [|k]; [|apply IH].
  destruct (len (String c s)) eqn:E; [exact E | apply IH].
Qed.

Lemma drop_ws_suffix (len : string -> nat) (s : string) (skip : nat) :
  exists pre, s = pre ++ drop_ws len skip s.
Proof.
  revert skip; induction s as [|c s IH]; intros skip; cbn [drop_ws]; [now exists ""|].
  destruct skip as [|k].
  - destruct (len (String c s)); [now exists ""|].
    destruct (IH n) as [pre E]. exists (String c pre). cbn [append]. now rewrite <- E.
  - destruct (IH k) as [pre E]. exists (String c pre). cbn [append]. now rewrite <- E.
Qed.

Lemma drop_ws_id (len : string -> nat) (s : string) :
  len s = 0%nat -> drop_ws len 0 s = s.
Proof. intros H. destruct s as [|c s]; cbn [drop_ws]; [reflexivity | now rewrite H]. Qed.

(** A text that does not start with white space has no beginning that does. *)
Lemma ws_len_prefix (u w : string) : ws_len (u ++ w) = 0%nat -> ws_len u = 0%nat.
Proof.
  destruct u as [|a [|b [|c u]]]; cbn [append ws_len]; intros H; try reflexivity.
  - destruct (ws1 (code a)); [|reflexivity]. destruct w; exact H.
  - destruct (ws1 (code a)); [exact H|].
    destruct (ws2 (code a) (code b)); [exact H | reflexivity].
  - exact H.
Qed.

Lemma trimStart_clean (s : string) : ws_len (trimStart s) = 0%nat.
Proof. apply drop_ws_clean. reflexivity. Qed.

Lemma trimEnd_clean (s : string) : ws_len_rev (rev (trimEnd s)) = 0%nat.
Proof. unfold trimEnd. rewrite rev_involutive. apply drop_ws_clean. reflexivity. Qed.

Lemma trimEnd_prefix (s : string) : exists w, s = trimEnd s ++ w.
Proof.
  unfold trimEnd. destruct (drop_ws_suffix ws_len_rev (rev s) 0) as [pre E].
  exists (rev pre). rewrite <- rev_app, <- E. now rewrite rev_involutive.
Qed.

(** [s.trim().trim()] is [s.trim()]. *)
Lemma trim_idempotent (s : string) : trim (trim s) = trim s.
Proof.
  unfold trim at 1.
  assert (H : trimStart (trim s) = trim s).
  { apply drop_ws_id. unfold trim.
    destruct (trimEnd_prefix (trimStart s)) as [w E].
    apply (ws_len_prefix _ w). rewrite <- E. apply trimStart_clean. }
  rewrite H. unfold trimEnd. rewrite drop_ws_id.
  - apply rev_involutive.
  - unfold trim. apply trimEnd_clean.
Qed.

End TextFacts.

(** ** The document generator *)

Module GeneratorFacts.
Import JS Generator Text Blocks Samples TextFacts.

Lemma occurs_refl (m : string) : occurs m m = true.
Proof. rewrite <- (append_nil_r m) at 2. apply occurs_here. Qed.

Lemma append_if_eq (c : bool) (acc x : string) :
  append_if c acc x = acc ++ (if c then x else "").
Proof. destruct c; simpl; [reflexivity | now rewrite append_nil_r]. Qed.

Lemma occurs_append_if_acc (m acc x : string) (c : bool) :
  occurs m acc = true -> occurs m (append_if c acc x) = true.
Proof. intros H; destruct c; simpl; [now apply occurs_app_l | exact H]. Qed.

Lemma occurs_append_if_x (m acc x : string) (c : bool) :
  c = true -> occurs m x = true -> occurs m (append_if c acc x) = true.
Proof. intros -> H; simpl. now apply occurs_app_r. Qed.

Lemma safe_append_if (m acc x : string) (c : bool) :
  safe m acc = true -> (c = true -> safe m x = true) -> safe m (append_if c acc x) = true.
Proof. intros Ha Hx; destruct c; simpl; [apply safe_app; auto | exact Ha]. Qed.

Lemma safe_fold_left {A : Type} (m : string) (body : string -> A -> string) (P : A -> bool) :
  (forall acc x, P x = true -> safe m acc = true -> safe m (body acc x) = true) ->
  forall l acc, forallb P l = true -> safe m acc = true -> safe m (fold_left body l acc) = true.
Proof.
  intros Hbody l; induction l as [|x l IH]; intros acc Hl Hacc; simpl; [exact Hacc|].
  simpl in Hl. apply andb_true_iff in Hl as [Hx Hl].
  apply IH; [exact Hl | now apply Hbody].
Qed.

Lemma length_pos {A : Type} (l : list A) :
  (0 <? Z.of_nat (List.length l))%Z = true <-> l <> [].
Proof.
  destruct l; simpl; split; intros H; try discriminate; try reflexivity.
  now contradiction H.
Qed.

Lemma truthy_iff (s : string) : truthy s = true <-> s <> "".
Proof. destruct s; simpl; split; intros H; try discriminate; try reflexivity. now contradiction H. Qed.

(** *** The palette in force *)

Lemma assoc_In {A : Type} (k : string) (l : list (string * A)) (v : A) :
  assoc k l = Some v -> In (k, v) l.
Proof.
  induction l as [|[k' v'] l IH]; simpl; [discriminate|].
  destruct (String.eqb_spec k' k) as [->|]; intros H.
  - injection H as ->. now left.
  - right. now apply IH.
Qed.

Lemma assoc_None_iff {A : Type} (k : string) (l : list (string * A)) :
  assoc k l = None <-> ~ In k (map fst l).
Proof.
  induction l as [|[k' v'] l IH]; simpl; [tauto|].
  destruct (String.eqb_spec k' k) as [->|Hne]; split; intros H.
  - discriminate.
  - contradiction H. now left.
  - intros [E|E]; [now contradiction Hne | now apply IH in H].
  - apply IH. tauto.
Qed.

Lemma mem_iff (k : string) (l : list string) : mem k l = true <-> In k l.
Proof.
  unfold mem. rewrite existsb_exists. split.
  - intros (x & Hx & E). apply String.eqb_eq in E. now subst.
  - intros H. exists k. split; [exact H | apply String.eqb_refl].
Qed.

(** A theme that names one of the five palettes selects it. *)
Lemma resolveColors_own (key : string) (p : Palette) :
  In (key, p) themeColors -> resolveColors key = Own p.
Proof.
  cbn [themeColors In]. intros H.
  repeat (destruct H as [H|H]; [injection H as <- <-; reflexivity|]).
  contradiction.
Qed.

(** A theme name found neither among the own properties of [themeColors] nor
    on [Object.prototype] selects the palette [dark]. *)
Lemma resolveColors_fallback (key : string) :
  ~ In key (map fst themeColors) -> ~ In key objectPrototypeKeys ->
  resolveColors key = Own dark.
Proof.
  intros H1 H2. unfold resolveColors, themeColors_get.
  apply assoc_None_iff in H1. rewrite H1.
  destruct (mem key objectPrototypeKeys) eqn:E; [|reflexivity].
  apply mem_iff in E. contradiction.
Qed.

(** A theme name found on [Object.prototype] selects the inherited object. *)
Lemma resolveColors_inherited (key : string) :
  In key objectPrototypeKeys -> resolveColors key = Inherited key.
Proof.
  cbn [objectPrototypeKeys In]. intros H.
  repeat (destruct H as [H|H]; [subst key; reflexivity|]).
  contradiction.
Qed.

Lemma colors_no_lt (key : string) :
  let colors := resolveColors key in
  no_lt colors.[primary] = true /\ no_lt colors.[secondary] = true /\ no_lt colors.[bg] = true
  /\ no_lt colors.[cardBg] = true /\ no_lt colors.[text] = true.
Proof.
  unfold resolveColors, themeColors_get.
  destruct (assoc key themeColors) as [p|] eqn:E.
  - apply assoc_In in E. cbn [themeColors In] in E.
    repeat (destruct E as [E|E]; [injection E as _ <-; repeat split; reflexivity|]).
    contradiction.
  - destruct (mem key objectPrototypeKeys); repeat split; reflexivity.
Qed.

(** *** Where the marker of a section cannot occur *)

Lemma opens_no_section_occurs (s m : string) :
  opens_no_section s = true -> In m sectionMarkers -> occurs m s = false.
Proof.
  unfold opens_no_section. rewrite forallb_forall. intros H Hin.
  apply negb_true_iff. now apply H.
Qed.

(** A text without tag-opening sign opens no section. *)
Lemma no_lt_opens_no_section (s : string) : no_lt s = true -> opens_no_section s = true.
Proof.
  intros H. unfold opens_no_section. apply forallb_forall. intros m Hm.
  apply negb_true_iff. apply safe_not_occurs; [|now apply no_lt_safe].
  cbn [sectionMarkers In] in Hm.
  repeat (destruct Hm as [Hm|Hm]; [subst m; reflexivity|]). contradiction.
Qed.

Ltac split_andb :=
  repeat match goal with
  | H : (_ && _)%bool = true |- _ => apply andb_true_iff in H; destruct H
  end.

Ltac in_markers := cbn [sectionMarkers In]; tauto.

Ltac safe_leaf :=
  lazymatch goal with
  | H : no_lt ?s = true |- safe _ ?s = true => apply no_lt_safe; exact H
  | H : forall m, In m sectionMarkers -> safe m ?s = true |- safe _ ?s = true =>
      apply H; in_markers
  | |- safe _ _ = true => first [ assumption | vm_compute; reflexivity ]
  end.

(** Along one statement of the generator, a chain [a ++ (b ++ ...)] of
    literals and texts of the snapshot: a literal lets no marker start in
    it; a text of the snapshot holds no marker, and the literal after it
    continues no beginning of one. *)
Ltac safe_tac :=
  lazymatch goal with
  | H : opens_no_section ?s = true |- safe ?m (append ?s (append ?r ?rest)) = true =>
      apply (safe_field m s r rest);
      [ vm_compute; reflexivity
      | apply (opens_no_section_occurs s m H); in_markers
      | safe_tac ]
  | H : opens_no_section ?s = true |- safe ?m (append ?s ?r) = true =>
      apply (safe_field_last m s r);
      [ vm_compute; reflexivity
      | apply (opens_no_section_occurs s m H); in_markers
      | safe_tac ]
  | |- safe _ (append _ _) = true => apply safe_app; safe_tac
  | |- safe _ (append_if _ _ _) = true =>
      apply safe_append_if; [safe_tac | first [ let H := fresh in intros H; exfalso; congruence | intros _; safe_tac ] ]
  | |- _ => safe_leaf
  end.

Lemma safe_skillsHTML m d :
  In m sectionMarkers -> forallb opens_no_section (skills d) = true ->
  safe m (skillsHTML d) = true.
Proof.
  intros Hm H. unfold skillsHTML.
  apply safe_fold_left with (P := opens_no_section); [|exact H|reflexivity].
  intros acc x Hx Hacc.
  cbn [sectionMarkers In] in Hm.
  repeat (destruct Hm as [Hm|Hm]; [subst m; safe_tac|]). contradiction.
Qed.

Lemma safe_projectsHTML m d :
  In m sectionMarkers ->
  forallb (fun p => opens_no_section (p_name p) && opens_no_section (p_desc p)
                    && opens_no_section (p_image p) && opens_no_section (p_link p)
                    && opens_no_section (p_github p)) (projects d) = true ->
  safe m (projectsHTML d) = true.
Proof.
  intros Hm H. unfold projectsHTML.
  eapply safe_fold_left; [|exact H|reflexivity].
  intros acc x Hx Hacc. cbv beta in Hx. split_andb.
  cbn [sectionMarkers In] in Hm.
  repeat (destruct Hm as [Hm|Hm]; [subst m; safe_tac|]). contradiction.
Qed.

Lemma safe_certsHTML m d :
  In m sectionMarkers ->
  forallb (fun c => opens_no_section (c_name c) && opens_no_section (c_issuer c)
                    && opens_no_section (image_text c)) (certificates d) = true ->
  safe m (certsHTML d) = true.
Proof.
  intros Hm H. unfold certsHTML.
  eapply safe_fold_left; [|exact H|reflexivity].
  intros acc x Hx Hacc. cbv beta in Hx. split_andb. cbv zeta.
  unfold image_text in *.
  cbn [sectionMarkers In] in Hm.
  destruct (c_image x) as [img|]; [destruct (truthy img)|];
    repeat (destruct Hm as [Hm|Hm]; [subst m; safe_tac|]); contradiction.
Qed.

Lemma safe_workHTML m d :
  In m sectionMarkers ->
  forallb (fun w => opens_no_section (w_title w) && opens_no_section (w_desc w)
                    && opens_no_section (w_company w)) (workExperience d) = true ->
  safe m (workHTML d) = true.
Proof.
  intros Hm H. unfold workHTML.
  eapply safe_fold_left; [|exact H|reflexivity].
  intros acc x Hx Hacc. cbv beta in Hx. split_andb.
  cbn [sectionMarkers In] in Hm.
  repeat (destruct Hm as [Hm|Hm]; [subst m; safe_tac|]). contradiction.
Qed.

Lemma safe_document d m cond :
  section_free d = true -> In (m, cond) (sectionConditions d) -> cond = false ->
  safe m (portfolioHTML d) = true.
Proof.
  intros Hfree Hin Hc.
  unfold section_free in Hfree. cbn [forallb] in Hfree. split_andb.
  destruct (colors_no_lt (theme d)) as (K1 & K2 & K3 & K4 & K5). cbv zeta in K1, K2, K3, K4, K5.
  assert (S1 : forall m, In m sectionMarkers -> safe m (skillsHTML d) = true)
    by (intros; now apply safe_skillsHTML).
  assert (S2 : forall m, In m sectionMarkers -> safe m (projectsHTML d) = true)
    by (intros; now apply safe_projectsHTML).
  assert (S3 : forall m, In m sectionMarkers -> safe m (certsHTML d) = true)
    by (intros; now apply safe_certsHTML).
  assert (S4 : forall m, In m sectionMarkers -> safe m (workHTML d) = true)
    by (intros; now apply safe_workHTML).
  unfold portfolioHTML. cbv zeta.
  cbn [sectionConditions In] in Hin.
  repeat (destruct Hin as [Hin|Hin];
          [injection Hin as Hm' Hc'; subst m cond; safe_tac|]).
  contradiction.
Qed.

(** *** Where a block does occur *)

(** Inside one statement of the generator: a chain [a ++ (b ++ ...)]. *)
Ltac occ_leaf :=
  lazymatch goal with
  | |- occurs ?m ?m = true => apply occurs_refl
  | |- occurs ?m (append ?m _) = true => apply occurs_here
  | |- occurs _ (append _ _) = true => apply occurs_app_r; occ_leaf
  end.

(** Along the statements, from the last one back to the first. *)
Ltac occ_tac :=
  lazymatch goal with
  | |- occurs _ (append_if _ _ _) = true =>
      first [ apply occurs_append_if_x; [assumption | occ_leaf]
            | apply occurs_append_if_acc; occ_tac ]
  | |- occurs _ (append _ _) = true =>
      first [ apply occurs_app_r; occ_leaf | apply occurs_app_l; occ_tac ]
  | |- _ => occ_leaf
  end.

Lemma header_occurs (d : FormData) :
  occurs headerOpen (portfolioHTML d) = true /\ occurs (headerNameTitle d) (portfolioHTML d) = true.
Proof.
  unfold portfolioHTML, headerOpen, headerNameTitle; cbv zeta. split.
  - occ_tac.
  - occ_tac.
Qed.

Lemma section_occurs (d : FormData) (m : string) (cond : bool) :
  In (m, cond) (sectionConditions d) -> cond = true -> occurs m (portfolioHTML d) = true.
Proof.
  intros Hin Hc. cbn [sectionConditions In] in Hin.
  unfold portfolioHTML; cbv zeta.
  destruct Hin as [Hin|[Hin|[Hin|[Hin|[Hin|[]]]]]];
    injection Hin as Hm' Hc'; subst m cond;
    unfold skillsOpen, projectsOpen, workOpen, certsOpen, educationOpen; occ_tac.
Qed.

Lemma green_occurs (d : FormData) :
  theme d = "green" ->
  occurs "#10b981" (portfolioHTML d) = true /\ occurs "#047857" (portfolioHTML d) = true.
Proof.
  intros H. unfold portfolioHTML; cbv zeta. rewrite H.
  change (resolveColors "green") with (Own green).
  cbn [ToString field green primary secondary bg cardBg text].
  split.
  - occ_tac.
  - occ_tac.
Qed.

Lemma section_block_occurs (d : FormData) :
  (skills d <> [] -> occurs (skillsSection d) (portfolioHTML d) = true)
  /\ (projects d <> [] -> occurs (projectsSection d) (portfolioHTML d) = true)
  /\ (workExperience d <> [] -> occurs (workSection d) (portfolioHTML d) = true)
  /\ (certificates d <> [] -> occurs (certsSection d) (portfolioHTML d) = true).
Proof.
  unfold portfolioHTML, skillsSection, projectsSection, workSection, certsSection,
    skillsOpen, projectsOpen, workOpen, certsOpen; cbv zeta.
  repeat split; intros H; apply length_pos in H; occ_tac.
Qed.

Lemma marker_starts_tag (d : FormData) (m : string) (cond : bool) :
  In (m, cond) (sectionConditions d) -> starts_with (String lt_sign "") m = true.
Proof.
  cbn [sectionConditions In].
  intros [H|[H|[H|[H|[H|[]]]]]]; injection H as <- _; reflexivity.
Qed.

Lemma section_iff (d : FormData) (m : string) (cond : bool) :
  section_free d = true -> In (m, cond) (sectionConditions d) ->
  occurs m (portfolioHTML d) = cond.
Proof.
  intros Hfree Hin. destruct cond eqn:E.
  - now apply (section_occurs d m true).
  - apply safe_not_occurs; [now apply (marker_starts_tag d m false)|].
    now apply (safe_document d m false).
Qed.

(** C7 (amended).  Whatever the snapshot, the document holds the header with
    the name and the title, and the opening of each of the skills, projects,
    work-experience, certificates and education sections whose data is not
    empty.  When no text of the snapshot holds the opening of one of these
    sections, the converse holds too: the document holds the opening of a
    section exactly when its data is not empty. *)
Theorem sections_follow_data (d : FormData) :
  occurs headerOpen (portfolioHTML d) = true
  /\ occurs (headerNameTitle d) (portfolioHTML d) = true
  /\ (skills d <> [] -> occurs skillsOpen (portfolioHTML d) = true)
  /\ (projects d <> [] -> occurs projectsOpen (portfolioHTML d) = true)
  /\ (workExperience d <> [] -> occurs workOpen (portfolioHTML d) = true)
  /\ (certificates d <> [] -> occurs certsOpen (portfolioHTML d) = true)
  /\ (education d <> "" -> occurs educationOpen (portfolioHTML d) = true)
  /\ (section_free d = true ->
      (occurs skillsOpen (portfolioHTML d) = true <-> skills d <> [])
      /\ (occurs projectsOpen (portfolioHTML d) = true <-> projects d <> [])
      /\ (occurs workOpen (portfolioHTML d) = true <-> workExperience d <> [])
      /\ (occurs certsOpen (portfolioHTML d) = true <-> certificates d <> [])
      /\ (occurs educationOpen (portfolioHTML d) = true <-> education d <> "")).
Proof.
  destruct (header_occurs d) as [H1 H2].
  split; [exact H1|]. split; [exact H2|].
  assert (F : forall m cond, In (m, cond) (sectionConditions d) -> cond = true ->
                             occurs m (portfolioHTML d) = true)
    by (intros m cond; apply section_occurs).
  split; [intros H; apply length_pos in H; apply (F _ _ ltac:(cbn [sectionConditions In]; tauto) H)|].
  split; [intros H; apply length_pos in H;
          apply (F projectsOpen _ ltac:(cbn [sectionConditions In]; tauto) H)|].
  split; [intros H; apply length_pos in H;
          apply (F workOpen _ ltac:(cbn [sectionConditions In]; tauto) H)|].
  split; [intros H; apply length_pos in H;
          apply (F certsOpen _ ltac:(cbn [sectionConditions In]; tauto) H)|].
  split; [intros H; apply truthy_iff in H;
          apply (F educationOpen _ ltac:(cbn [sectionConditions In]; tauto) H)|].
  intros Hfree.
  assert (K : forall m cond, In (m, cond) (sectionConditions d) ->
                             (occurs m (portfolioHTML d) = true <-> cond = true)).
  { intros m cond Hin. now rewrite (section_iff d m cond Hfree Hin). }
  repeat (split; [first [ rewrite <- length_pos | rewrite <- truthy_iff ];
                  apply K; cbn [sectionConditions In]; tauto|]).
  rewrite <- truthy_iff. apply K; cbn [sectionConditions In]; tauto.
Qed.

Lemma sections_follow_data_witness :
  (section_free greenData = true /\ occurs skillsOpen (portfolioHTML greenData) = true)
  /\ (section_free emptyData = true /\ occurs educationOpen (portfolioHTML emptyData) = false)
  /\ (section_free comparingData = true
      /\ occurs skillsOpen (portfolioHTML comparingData) = false).
Proof.
  assert (G : section_free greenData = true) by (vm_compute; reflexivity).
  assert (E : section_free emptyData = true) by (vm_compute; reflexivity).
  assert (C : section_free comparingData = true) by (vm_compute; reflexivity).
  destruct (sections_follow_data greenData) as (_ & _ & _ & _ & _ & _ & _ & Hg).
  destruct (sections_follow_data emptyData) as (_ & _ & _ & _ & _ & _ & _ & He).
  destruct (sections_follow_data comparingData) as (_ & _ & _ & _ & _ & _ & _ & Hc).
  destruct (Hg G) as (Hg1 & _). destruct (He E) as (_ & _ & _ & _ & He5).
  destruct (Hc C) as (Hc1 & _).
  split; [|split]; (split; [assumption|]).
  - apply Hg1. cbn. discriminate.
  - destruct (occurs educationOpen (portfolioHTML emptyData)); [|reflexivity].
    exfalso. now apply (proj1 He5).
  - destruct (occurs skillsOpen (portfolioHTML comparingData)); [|reflexivity].
    exfalso. now apply (proj1 Hc1).
Defined.

(** C7, as stated, fails: a snapshot whose four lists and education text are
    empty, and whose document holds a whole skills section nevertheless,
    brought in by the biography. *)
Lemma injected_section_marker :
  skills injectedData = [] /\ projects injectedData = []
  /\ certificates injectedData = [] /\ workExperience injectedData = []
  /\ education injectedData = ""
  /\ occurs skillsOpen (portfolioHTML injectedData) = true
  /\ occurs (skillsSection injectedData) (portfolioHTML injectedData) = true.
Proof. repeat split; vm_compute; reflexivity. Qed.

(** *** The contact section *)

Lemma occurs_assoc (m a b c : string) :
  occurs m (a ++ (b ++ c)) = true -> occurs m ((a ++ b) ++ c) = true.
Proof. now rewrite append_assoc. Qed.

Lemma occurs_assoc_if (m a x r : string) (c : bool) :
  occurs m (a ++ ((if c then x else "") ++ r)) = true ->
  occurs m (append_if c a x ++ r) = true.
Proof. now rewrite append_if_eq, append_assoc. Qed.

Lemma contactSection_eq (d : FormData) :
  contactSection d =
  contactOpen ++ fold_right (fun e r => shown e ++ r) "</div></section></div>" (contactEntries d).
Proof.
  unfold contactSection. f_equal.
  induction (contactEntries d) as [|e l IH]; cbn [map fold_right]; [reflexivity|].
  now rewrite append_assoc, IH.
Qed.

Lemma contactSection_occurs (d : FormData) :
  occurs (contactSection d) (portfolioHTML d) = true.
Proof.
  rewrite contactSection_eq.
  unfold portfolioHTML, contactOpen; cbv zeta.
  cbn [contactEntries fold_right shown fst snd].
  apply occurs_app_l.
  do 7 apply occurs_assoc_if.
  apply occurs_assoc, occurs_app_r, occurs_refl.
Qed.

Lemma shown_empty_iff (d : FormData) (e : string * string) :
  In e (contactEntries d) -> (shown e = "" <-> fst e = "").
Proof.
  cbn [contactEntries In].
  intros [H|[H|[H|[H|[H|[H|[H|[]]]]]]]]; subst e; unfold shown; cbn [fst snd];
    match goal with |- context [truthy ?s] => destruct s end; cbn [truthy];
    split; intros E; try reflexivity; discriminate E.
Qed.

(** C10.  Whatever the snapshot, the document holds the contact section: its
    opening with the heading, then one entry for each channel whose value is
    not empty and nothing for the others, then its closing text.  The
    opening alone therefore occurs in every document. *)
Theorem contact_section_always (d : FormData) :
  occurs contactOpen (portfolioHTML d) = true
  /\ occurs (contactSection d) (portfolioHTML d) = true
  /\ (forall e, In e (contactEntries d) -> (shown e = "" <-> fst e = ""))
  /\ (forall e, In e (contactEntries d) -> fst e <> "" -> occurs (snd e) (portfolioHTML d) = true).
Proof.
  assert (H : occurs (contactSection d) (portfolioHTML d) = true) by apply contactSection_occurs.
  assert (H0 : occurs contactOpen (portfolioHTML d) = true).
  { apply occurs_iff in H as (a & b & E). apply occurs_iff.
    exists a, (fold_right append "" (map shown (contactEntries d)) ++ "</div></section></div>" ++ b).
    rewrite E. unfold contactSection. now rewrite !append_assoc. }
  split; [exact H0|]. split; [exact H|]. split; [apply shown_empty_iff|].
  intros e He Hne. apply truthy_iff in Hne.
  cbn [contactEntries In] in He.
  unfold portfolioHTML; cbv zeta.
  destruct He as [He|[He|[He|[He|[He|[He|[He|[]]]]]]]]; subst e; cbn [fst snd] in *; occ_tac.
Qed.

(** When no channel has a value, the section is its opening directly followed
    by its closing text. *)
Lemma contact_section_empty :
  contactSection emptyData = contactEmpty
  /\ occurs contactEmpty (portfolioHTML emptyData) = true.
Proof. split; vm_compute; reflexivity. Qed.

(** *** The theme *)

(** The document depends on the theme only through the entry it selects. *)
Lemma portfolioHTML_theme (d : FormData) (t : string) :
  resolveColors (theme d) = resolveColors t ->
  portfolioHTML d = portfolioHTML (with_theme t d).
Proof.
  intros H. unfold portfolioHTML. cbv zeta.
  change (theme (with_theme t d)) with t. rewrite H. reflexivity.
Qed.

(** The part of C1 that holds: the theme [green] puts its primary and
    secondary colours in the style sheet, and a theme name that is neither one
    of the five palettes nor a property of [Object.prototype] gives the
    document of the theme [dark]. *)
Lemma theme_fallback (d : FormData) :
  ~ In (theme d) (map fst themeColors) -> ~ In (theme d) objectPrototypeKeys ->
  resolveColors (theme d) = Own dark /\ portfolioHTML d = portfolioHTML (with_theme "dark" d).
Proof.
  intros H1 H2. pose proof (resolveColors_fallback _ H1 H2) as H.
  split; [exact H|]. apply portfolioHTML_theme. now rewrite H.
Qed.

Lemma green_occurs_witness :
  occurs "#10b981" (portfolioHTML greenData) = true
  /\ occurs "#047857" (portfolioHTML greenData) = true.
Proof. exact (green_occurs greenData eq_refl). Defined.

Lemma theme_fallback_witness :
  resolveColors (theme emptyData) = Own dark
  /\ portfolioHTML emptyData = portfolioHTML (with_theme "dark" emptyData).
Proof.
  apply (theme_fallback emptyData); cbn; intros H;
    repeat (destruct H as [H|H]; [discriminate H|]); exact H.
Defined.

(** C1 at the theme name [constructor], which is none of the five built-in
    names: the property read finds [Object.prototype.constructor], the
    fallback is not taken, every colour of the style sheet reads
    [undefined], and no colour of the palette [dark] is in the document. *)
Theorem theme_constructor_undefined :
  let d := with_theme "constructor" emptyData in
  mem (theme d) (map fst themeColors) = false
  /\ resolveColors (theme d) = Inherited "constructor"
  /\ occurs "background:undefined;color:undefined;" (portfolioHTML d) = true
  /\ occurs "linear-gradient(135deg,undefined,undefined)" (portfolioHTML d) = true
  /\ occurs (primary dark) (portfolioHTML d) = false
  /\ occurs (secondary dark) (portfolioHTML d) = false
  /\ occurs (bg dark) (portfolioHTML d) = false
  /\ occurs (cardBg dark) (portfolioHTML d) = false
  /\ portfolioHTML d <> portfolioHTML (with_theme "dark" d).
Proof.
  cbv zeta. repeat split; try (vm_compute; reflexivity).
  intros E.
  assert (K : occurs (bg dark) (portfolioHTML (with_theme "constructor" emptyData))
              = occurs (bg dark) (portfolioHTML (with_theme "dark" (with_theme "constructor" emptyData))))
    by now rewrite E.
  vm_compute in K. discriminate K.
Qed.

End GeneratorFacts.

(** ** The wizard *)

Module WizardFacts.
Import JS Generator Wizard Session Invariants Samples SamplePages TextFacts GeneratorFacts.

(** *** Predicates kept by every step of a call *)

Section Stable.
Context {I : Page -> Prop}.

Lemma stable_ret {A : Type} (a : A) : stable I (ret a).
Proof. intros p H; exact H. Qed.

Lemma stable_get : stable I get.
Proof. intros p H; exact H. Qed.

Lemma stable_throw {A : Type} : stable I (@throwTypeError A).
Proof. intros p H; exact H. Qed.

Lemma stable_getElementById (id : string) : stable I (getElementById id).
Proof. intros p H; unfold getElementById. destruct (assoc id _); exact H. Qed.

Lemma stable_bind {A B : Type} (m : M A) (k : A -> M B) :
  stable I m -> (forall a, stable I (k a)) -> stable I (bind m k).
Proof.
  intros Hm Hk p H. unfold bind. specialize (Hm p H).
  destruct (m p) as [a p'|p']; cbn in *; [now apply Hk | exact Hm].
Qed.

Lemma stable_modify (f : Page -> Page) : (forall p, I p -> I (f p)) -> stable I (modify f).
Proof. intros Hf p H. now apply Hf. Qed.

Lemma stable_setElementById (id : string) (f : Element -> Element) :
  (forall p, I p -> I (set_dom (with_elements (update id f (elements (dom p))) (dom p)) p)) ->
  stable I (setElementById id f).
Proof.
  intros Hf. unfold setElementById. apply stable_bind; [apply stable_getElementById|].
  intros _. apply stable_modify. exact Hf.
Qed.

Lemma stable_forEachElement (handles : list string) (f : Element -> Element) :
  (forall id p, I p -> I (set_dom (with_elements (update id f (elements (dom p))) (dom p)) p)) ->
  stable I (forEachElement handles f).
Proof.
  intros Hf. induction handles as [|h rest IH]; cbn [forEachElement]; [apply stable_ret|].
  apply stable_bind; [apply stable_setElementById; apply Hf | intros _; exact IH].
Qed.

End Stable.

(** One step of the decomposition of a call into its primitive writes. *)
Ltac stable_step :=
  lazymatch goal with
  | |- stable _ (bind _ _) => apply stable_bind; [ | intros ? ]
  | |- stable _ (ret _) => apply stable_ret
  | |- stable _ get => apply stable_get
  | |- stable _ throwTypeError => apply stable_throw
  | |- stable _ (getElementById _) => apply stable_getElementById
  | |- stable _ (valueOf _) => unfold valueOf
  | |- stable _ (modify _) => apply stable_modify
  | |- stable _ (setElementById _ _) => apply stable_setElementById
  | |- stable _ (forEachElement _ _) => apply stable_forEachElement; intros ?
  | |- stable _ (alert _) => unfold alert
  | |- stable _ (focus _) => unfold focus
  | |- stable _ (modify_vars _) => unfold modify_vars
  | |- stable _ (setTimeout _ _) => unfold setTimeout
  | |- stable _ (readAsDataURL _ _) => unfold readAsDataURL
  | |- stable _ (pushCertificate _) => unfold pushCertificate
  | |- stable _ (openPreview _ _) => unfold openPreview
  | |- stable _ (renderPortfolioList _ _ _) => unfold renderPortfolioList; cbv zeta
  | |- stable _ renderPortfolioCertsList => unfold renderPortfolioCertsList; cbv zeta
  | |- stable _ renderPortfolioWorkList => unfold renderPortfolioWorkList; cbv zeta
  | |- stable _ closePortfolioModal => unfold closePortfolioModal
  | |- stable _ openPortfolioModal => unfold openPortfolioModal
  | |- stable _ (generatePortfolioHTML _) => unfold generatePortfolioHTML; cbv zeta
  | |- stable _ (if ?c then _ else _) => destruct c
  | |- stable _ (match ?x with _ => _ end) => destruct x
  | |- stable _ (let (_, _) := ?x in _) => destruct x
  end.

(** *** The frame: handles and step numbers never change *)

Lemma keys_update (k : string) (f : Element -> Element) (l : list (string * Element)) :
  map fst (update k f l) = map fst l.
Proof.
  induction l as [|[k' v] l IH]; cbn [update map]; [reflexivity|].
  destruct (String.eqb k' k); cbn [map fst]; [reflexivity | now rewrite IH].
Qed.

Lemma steps_deactivate (l : list StepSection) :
  map data_step (map deactivate l) = map data_step l.
Proof. rewrite map_map. reflexivity. Qed.

Lemma steps_activate (s : Z) (l : list StepSection) :
  map data_step (activate s l) = map data_step l.
Proof.
  induction l as [|x l IH]; cbn [activate map]; [reflexivity|].
  destruct (data_step x =? s)%Z; cbn [map data_step]; [reflexivity | now rewrite IH].
Qed.

Lemma keys_reset (l : list (string * Element)) :
  map fst (map (fun kv => (fst kv, reset_element (snd kv))) l) = map fst l.
Proof. rewrite map_map. reflexivity. Qed.

Ltac frame_leaf :=
  let p := fresh "p" in let H1 := fresh in let H2 := fresh in
  intros p [H1 H2]; split; unfold keys, steps_of in *; cbn;
  rewrite ?keys_update, ?steps_deactivate, ?steps_activate, ?keys_reset; assumption.

Section Frame.
Variables (K : list string) (S : list Z).

Lemma frame_showPortfolioStep (s : Z) : stable (frame K S) (showPortfolioStep s).
Proof. unfold showPortfolioStep. repeat stable_step; frame_leaf. Qed.

Lemma frame_checkRequired (inputs : list string) : stable (frame K S) (checkRequired inputs).
Proof.
  induction inputs as [|h rest IH]; cbn [checkRequired]; [apply stable_ret|].
  repeat stable_step; try frame_leaf. exact IH.
Qed.

Lemma frame_validatePortfolioStep (s : Z) : stable (frame K S) (validatePortfolioStep s).
Proof.
  unfold validatePortfolioStep.
  repeat first [ apply frame_checkRequired | stable_step ]; frame_leaf.
Qed.

Lemma frame_runCallback (cb : Callback) : stable (frame K S) (runCallback cb).
Proof.
  unfold runCallback. destruct cb; cbv zeta;
    repeat first [ apply frame_showPortfolioStep | stable_step ]; frame_leaf.
Qed.

Lemma frame_react (ev : Event) : stable (frame K S) (react ev).
Proof.
  destruct ev; cbn [react];
    unfold nextPortfolioStep, previousPortfolioStep, createPortfolioFromBuilder,
      addPortfolioSkill, removePortfolioSkill, addPortfolioCertificate, removePortfolioCert,
      addPortfolioWork, removePortfolioWork, selectPortfolioDomain, selectPortfolioTheme,
      addPortfolioProjectField, closePortfolioModalOnOverlay, readerOnload, fireTimer; cbv zeta;
    repeat first [ apply frame_showPortfolioStep | apply frame_validatePortfolioStep
                 | apply frame_runCallback | stable_step ];
    frame_leaf.
Qed.

End Frame.

(** *** Reading an element back after a write *)

Lemma assoc_update (k id : string) (f : Element -> Element) (l : list (string * Element)) :
  assoc k (update id f l) = if String.eqb k id then option_map f (assoc k l) else assoc k l.
Proof.
  induction l as [|[k' v] l IH]; cbn [update assoc].
  - now destruct (String.eqb k id).
  - destruct (String.eqb_spec k' id) as [->|Hne]; cbn [assoc].
    + destruct (String.eqb_spec id k) as [->|Hne'].
      * now rewrite String.eqb_refl.
      * apply not_eq_sym in Hne'. apply String.eqb_neq in Hne'. now rewrite Hne'.
    + destruct (String.eqb_spec k' k) as [->|Hne']; [|exact IH].
      apply String.eqb_neq in Hne. now rewrite Hne.
Qed.

Lemma lookup_write (k id : string) (f : Element -> Element) (p : Page) :
  lookup k (write id f p) = if String.eqb k id then option_map f (lookup k p) else lookup k p.
Proof. apply assoc_update. Qed.

Lemma displayed_write (k id : string) (f : Element -> Element) (p : Page) :
  (forall e, el_display (f e) = el_display e) ->
  displayed k (write id f p) = displayed k p.
Proof.
  intros Hf. unfold displayed. rewrite lookup_write.
  destruct (String.eqb k id); [|reflexivity].
  destruct (lookup k p); cbn; [now rewrite Hf | reflexivity].
Qed.

Lemma setElementById_ok (id : string) (f : Element -> Element) (p : Page) :
  has id p = true -> setElementById id f p = Returned tt (write id f p).
Proof.
  unfold has, lookup, setElementById, bind, getElementById, modify.
  destruct (assoc id _); [reflexivity | discriminate].
Qed.

Lemma has_write (k id : string) (f : Element -> Element) (p : Page) :
  has k (write id f p) = has k p.
Proof.
  unfold has. rewrite lookup_write.
  destruct (String.eqb k id); [|reflexivity]. now destruct (lookup k p).
Qed.

(** *** The step and the two buttons that gate it *)

Ltac keeps_display :=
  let e := fresh "e" in
  intros e; unfold classList_add, classList_remove; try destruct (mem _ _); reflexivity.

Ltac controls_leaf :=
  let p := fresh "p" in let H1 := fresh in let H2 := fresh in let H3 := fresh in
  intros p (H1 & H2 & H3);
  repeat split;
  try (change (set_dom (with_elements (update ?id ?f (elements (dom p))) (dom p)) p)
         with (write id f p));
  rewrite ?displayed_write by keeps_display;
  first [ assumption | exact H1 | exact H2 | exact H3 ].

Section Controls.
Variables (n : Z) (a b : bool).

Lemma controls_checkRequired (inputs : list string) : stable (controls n a b) (checkRequired inputs).
Proof.
  induction inputs as [|h rest IH]; cbn [checkRequired]; [apply stable_ret|].
  repeat stable_step; try controls_leaf. exact IH.
Qed.

Lemma controls_validatePortfolioStep (s : Z) : stable (controls n a b) (validatePortfolioStep s).
Proof.
  unfold validatePortfolioStep.
  repeat first [ apply controls_checkRequired | stable_step ]; controls_leaf.
Qed.

Lemma controls_react (ev : Event) :
  ev <> ClickNext -> ev <> ClickPrevious -> ev <> TimerFires ->
  stable (controls n a b) (react ev).
Proof.
  intros N1 N2 N3.
  destruct ev; try congruence; cbn [react];
    unfold createPortfolioFromBuilder,
      addPortfolioSkill, removePortfolioSkill, addPortfolioCertificate, removePortfolioCert,
      addPortfolioWork, removePortfolioWork, selectPortfolioDomain, selectPortfolioTheme,
      addPortfolioProjectField, closePortfolioModalOnOverlay, readerOnload; cbv zeta;
    repeat stable_step; controls_leaf.
Qed.

End Controls.

(** *** Properties of the skill list kept by every event *)

(** [splice] removes a stretch of the list and keeps the rest in order. *)
Lemma splice_parts {A : Type} (start count : Z) (l : list A) :
  exists l1 l2 l3, l = (l1 ++ l2 ++ l3)%list /\ splice start count l = (l1 ++ l3)%list.
Proof.
  unfold splice. cbv zeta.
  set (len := Z.of_nat (List.length l)).
  set (s := if (start <? 0)%Z then Z.max (len + start) 0 else Z.min start len).
  assert (0 <= s <= len)%Z by (subst s len; destruct (Z.ltb_spec start 0); lia).
  set (a := Z.to_nat s). set (b := Z.to_nat (s + Z.min (Z.max count 0) (len - s))).
  assert (Hab : (a <= b)%nat) by (subst a b; lia).
  exists (firstn a l), (firstn (b - a) (skipn a l)), (skipn b l). split; [|reflexivity].
  replace (skipn b l) with (skipn (b - a) (skipn a l))
    by (rewrite skipn_skipn; f_equal; lia).
  now rewrite !firstn_skipn.
Qed.

Lemma NoDup_app_remove_mid {A : Type} (l1 l2 l3 : list A) :
  NoDup (l1 ++ l2 ++ l3) -> NoDup (l1 ++ l3).
Proof.
  induction l2 as [|x l2 IH]; cbn [app]; [auto|].
  intros H. apply IH. now apply NoDup_remove_1 in H.
Qed.

Lemma NoDup_splice {A : Type} (start count : Z) (l : list A) :
  NoDup l -> NoDup (splice start count l).
Proof.
  intros H. destruct (splice_parts start count l) as (l1 & l2 & l3 & E & ->).
  rewrite E in H. now apply NoDup_app_remove_mid in H.
Qed.

Lemma Forall_splice {A : Type} (Q : A -> Prop) (start count : Z) (l : list A) :
  Forall Q l -> Forall Q (splice start count l).
Proof.
  intros H. destruct (splice_parts start count l) as (l1 & l2 & l3 & E & ->).
  rewrite E in H. apply Forall_app in H as [H1 H23]. apply Forall_app in H23 as [_ H3].
  apply Forall_app. now split.
Qed.

Lemma indexOf_from_In (i : Z) (x : string) (l : list string) :
  (0 <= i)%Z -> (indexOf_from i x l = -1)%Z <-> ~ In x l.
Proof.
  revert i; induction l as [|y l IH]; intros i Hi; cbn [indexOf_from In]; [tauto|].
  destruct (String.eqb_spec y x) as [->|Hne].
  - split; [lia | intros H; contradiction H; now left].
  - rewrite IH by lia. tauto.
Qed.

Lemma indexOf_In (x : string) (l : list string) : (indexOf x l = -1)%Z <-> ~ In x l.
Proof. apply indexOf_from_In. lia. Qed.

Section SkillList.
(** A property of lists of skills that the empty list has, that [splice]
    keeps, and that allows a trimmed text not yet in the list at its end. *)
Variable P : list string -> Prop.
Hypothesis P_nil : P [].
Hypothesis P_splice : forall start count l, P l -> P (splice start count l).
Hypothesis P_push : forall l v, P l -> ~ In (trim v) l -> P (l ++ [trim v])%list.

Ltac skills_leaf :=
  let p := fresh "p" in let H := fresh in
  intros p H; unfold skills_have in *; cbn;
  first [ assumption | now apply P_splice | apply P_nil ].

Lemma skills_showPortfolioStep (s : Z) : stable (skills_have P) (showPortfolioStep s).
Proof. unfold showPortfolioStep. repeat stable_step; skills_leaf. Qed.

Lemma skills_checkRequired (inputs : list string) : stable (skills_have P) (checkRequired inputs).
Proof.
  induction inputs as [|h rest IH]; cbn [checkRequired]; [apply stable_ret|].
  repeat stable_step; try skills_leaf. exact IH.
Qed.

Lemma skills_validatePortfolioStep (s : Z) : stable (skills_have P) (validatePortfolioStep s).
Proof.
  unfold validatePortfolioStep.
  repeat first [ apply skills_checkRequired | stable_step ]; skills_leaf.
Qed.

Lemma skills_runCallback (cb : Callback) : stable (skills_have P) (runCallback cb).
Proof.
  unfold runCallback. destruct cb; cbv zeta;
    repeat first [ apply skills_showPortfolioStep | stable_step ]; skills_leaf.
Qed.

(** The only write that lengthens the list is guarded by [indexOf]. *)
Lemma skills_addPortfolioSkill : stable (skills_have P) addPortfolioSkill.
Proof.
  intros p H. unfold addPortfolioSkill. unfold bind at 1. unfold getElementById.
  destruct (assoc "portfolioSkillInput" (elements (dom p))) as [input|]; [|exact H].
  cbv zeta. unfold bind at 1, get.
  destruct (truthy (trim (el_value input)) && _) eqn:C; [|exact H].
  apply andb_true_iff in C as [_ C]. apply Z.eqb_eq, indexOf_In in C.
  unfold bind at 1, modify_vars, modify.
  assert (K : stable (skills_have P)
    (p0 <- get;;
     renderPortfolioList "portfolioSkillsList" (portfolioSkills (vars p0)) "removePortfolioSkill";;
     setElementById "portfolioSkillInput" (with_value ""))).
  { repeat stable_step; skills_leaf. }
  apply K. unfold skills_have; cbn. now apply P_push.
Qed.

Lemma skills_react (ev : Event) : stable (skills_have P) (react ev).
Proof.
  destruct ev; cbn [react]; try apply skills_addPortfolioSkill;
    unfold nextPortfolioStep, previousPortfolioStep, createPortfolioFromBuilder,
      removePortfolioSkill, addPortfolioCertificate, removePortfolioCert,
      addPortfolioWork, removePortfolioWork, selectPortfolioDomain, selectPortfolioTheme,
      addPortfolioProjectField, closePortfolioModalOnOverlay, readerOnload, fireTimer; cbv zeta;
    repeat first [ apply skills_showPortfolioStep | apply skills_validatePortfolioStep
                 | apply skills_runCallback | stable_step ];
    skills_leaf.
Qed.

(** Hence every page of a session has it. *)
Lemma skills_reachable (p : Page) : reachable p -> skills_have P p.
Proof.
  induction 1 as [p0 Hok Hv | p ev _ IH He].
  - apply (skills_showPortfolioStep 1). unfold skills_have. rewrite Hv. exact P_nil.
  - now apply skills_react.
Qed.

End SkillList.

(** No skill is listed twice. *)
Lemma NoDup_push (l : list string) (v : string) :
  NoDup l -> ~ In (trim v) l -> NoDup (l ++ [trim v]).
Proof.
  intros H Hn. apply NoDup_app; [exact H | repeat constructor; auto | ].
  intros x Hx [<-|[]]. contradiction.
Qed.

Lemma distinct_showPortfolioStep (s : Z) : stable skills_distinct (showPortfolioStep s).
Proof.
  unfold skills_distinct. apply skills_showPortfolioStep;
    first [ apply NoDup_nil | intros; now apply NoDup_splice | apply NoDup_push ].
Qed.

Lemma distinct_validatePortfolioStep (s : Z) : stable skills_distinct (validatePortfolioStep s).
Proof.
  unfold skills_distinct. apply skills_validatePortfolioStep;
    first [ apply NoDup_nil | intros; now apply NoDup_splice | apply NoDup_push ].
Qed.

Lemma distinct_react (ev : Event) : stable skills_distinct (react ev).
Proof.
  unfold skills_distinct. apply skills_react;
    first [ apply NoDup_nil | intros; now apply NoDup_splice | apply NoDup_push ].
Qed.

Ltac distinct_leaf :=
  let p := fresh "p" in let H := fresh in
  intros p H; unfold skills_distinct, skills_have in *; cbn;
  first [ assumption | now apply NoDup_splice | apply NoDup_nil ].

(** Every skill listed is a text as [trim] leaves it. *)
Lemma trimmed_push (l : list string) (v : string) :
  Forall (fun s => trim s = s) l -> ~ In (trim v) l ->
  Forall (fun s => trim s = s) (l ++ [trim v]).
Proof.
  intros H _. apply Forall_app. split; [exact H|].
  constructor; [apply trim_idempotent | constructor].
Qed.

Lemma reachable_trimmed (p : Page) :
  reachable p -> Forall (fun s => trim s = s) (portfolioSkills (vars p)).
Proof.
  apply (skills_reachable (Forall (fun s => trim s = s)));
    first [ now constructor | intros; now apply Forall_splice | apply trimmed_push ].
Qed.

(** *** The page keeps what [page_ok] asks for *)

Lemma has_existsb (id : string) (p : Page) :
  has id p = existsb (fun k => String.eqb k id) (keys p).
Proof.
  unfold has, lookup, keys. induction (elements (dom p)) as [|[k v] l IH]; cbn; [reflexivity|].
  destruct (String.eqb k id); [reflexivity | exact IH].
Qed.

Lemma has_step_existsb (s : Z) (p : Page) :
  has_step s p = existsb (fun z => (z =? s)%Z) (steps_of p).
Proof.
  unfold has_step, querySelectorStep, steps_of.
  induction (stepSections (dom p)) as [|x l IH]; cbn; [reflexivity|].
  destruct (data_step x =? s)%Z; [reflexivity | exact IH].
Qed.

Lemma forallb_pointwise {A : Type} (f g : A -> bool) (l : list A) :
  (forall x, f x = g x) -> forallb f l = forallb g l.
Proof. intros H; induction l as [|x l IH]; cbn; [reflexivity | now rewrite H, IH]. Qed.

Lemma page_ok_frame (p q : Page) :
  keys p = keys q -> steps_of p = steps_of q -> page_ok p = page_ok q.
Proof.
  intros HK HS. unfold page_ok.
  rewrite !has_existsb, HK. f_equal. f_equal. f_equal. f_equal.
  apply forallb_pointwise. intros s. fold (has_step s p). fold (has_step s q).
  now rewrite !has_step_existsb, HS.
Qed.

Lemma page_ok_has_step (p : Page) (s : Z) :
  page_ok p = true -> In s stepNumbers -> has_step s p = true.
Proof.
  unfold page_ok. intros H Hs.
  do 4 (apply andb_true_iff in H as [H _]).
  rewrite forallb_forall in H. exact (H s Hs).
Qed.

Lemma page_ok_has (p : Page) :
  page_ok p = true ->
  has "portfolioProgressFill" p = true /\ has "portfolioPrevBtn" p = true
  /\ has "portfolioNextBtn" p = true /\ has "portfolioCreateBtn" p = true.
Proof.
  unfold page_ok. intros H.
  do 4 (apply andb_true_iff in H as [H ?]). auto.
Qed.

Lemma bind_returned {A B : Type} (m : M A) (k : A -> M B) (p p' : Page) (a : A) :
  m p = Returned a p' -> bind m k p = k a p'.
Proof. intros H. unfold bind. now rewrite H. Qed.

(** On a page that has what [page_ok] asks for, [showPortfolioStep] runs to
    its end for each of the eight steps and leaves the two buttons as the
    step requires. *)
Lemma showPortfolioStep_ok (s : Z) (p : Page) :
  page_ok p = true -> In s stepNumbers ->
  exists q, showPortfolioStep s p = Returned tt q
    /\ vars q = vars p /\ env q = env p
    /\ displayed "portfolioPrevBtn" q = negb (s =? 1)%Z
    /\ displayed "portfolioNextBtn" q = negb (s =? portfolioTotalSteps)%Z.
Proof.
  intros Hok Hs.
  destruct (page_ok_has p Hok) as (E1 & E2 & E3 & E4).
  unfold showPortfolioStep.
  set (p1 := set_dom (with_stepSections (map deactivate (stepSections (dom p))) (dom p)) p).
  rewrite (bind_returned _ _ p p1 tt) by reflexivity.
  rewrite (bind_returned _ _ p1 p1 p1) by reflexivity.
  assert (H1 : has_step s p1 = true).
  { assert (E : steps_of p1 = steps_of p) by apply steps_deactivate.
    rewrite has_step_existsb, E, <- has_step_existsb. now apply page_ok_has_step. }
  unfold has_step in H1. destruct (querySelectorStep s (dom p1)) as [sec|]; [clear H1|discriminate].
  set (p2 := set_dom (with_stepSections (activate s (stepSections (dom p1))) (dom p1)) p1).
  rewrite (bind_returned _ _ p1 p2 tt) by reflexivity.
  assert (HK : forall id, has id p2 = has id p) by reflexivity.
  erewrite bind_returned by (apply setElementById_ok; now rewrite HK).
  erewrite bind_returned by (apply setElementById_ok; now rewrite !has_write, HK).
  erewrite bind_returned by (apply setElementById_ok; now rewrite !has_write, HK).
  rewrite setElementById_ok by (now rewrite !has_write, HK).
  eexists. split; [reflexivity|]. split; [reflexivity|]. split; [reflexivity|].
  unfold displayed. rewrite !lookup_write. cbn [String.eqb Ascii.eqb Bool.eqb].
  change (lookup "portfolioPrevBtn" p2) with (lookup "portfolioPrevBtn" p).
  change (lookup "portfolioNextBtn" p2) with (lookup "portfolioNextBtn" p).
  unfold has in E2, E3.
  destruct (lookup "portfolioPrevBtn" p); [|discriminate].
  destruct (lookup "portfolioNextBtn" p); [|discriminate].
  cbn [option_map with_display el_display].
  split; [destruct (s =? 1)%Z | destruct (s =? portfolioTotalSteps)%Z]; reflexivity.
Qed.

(** *** The invariant of a session *)

Lemma in_stepNumbers (s : Z) : (1 <= s <= 8)%Z -> In s stepNumbers.
Proof.
  intros H. unfold stepNumbers. cbn [In].
  assert (s = 1 \/ s = 2 \/ s = 3 \/ s = 4 \/ s = 5 \/ s = 6 \/ s = 7 \/ s = 8)%Z by lia.
  intuition auto.
Qed.

Lemma page_ok_after {A : Type} (m : M A) (p : Page) :
  (forall K S, stable (frame K S) m) -> page_ok (page_after (m p)) = page_ok p.
Proof.
  intros H. destruct (H (keys p) (steps_of p) p (conj eq_refl eq_refl)) as [HK HS].
  now apply page_ok_frame.
Qed.

Lemma Inv_load (p0 : Page) :
  page_ok p0 = true -> vars p0 = initialGlobals -> Inv (page_after (onLoad p0)).
Proof.
  intros Hok Hv. unfold onLoad.
  destruct (showPortfolioStep_ok 1 p0 Hok) as (q & E & Ev & _ & Hp & Hn);
    [apply in_stepNumbers; lia|].
  pose proof (page_ok_after (showPortfolioStep 1) p0
                (fun K S => frame_showPortfolioStep K S 1)) as Hok'.
  rewrite E in *. cbn [page_after] in *.
  unfold Inv. rewrite Ev, Hv. cbn [portfolioCurrentStep initialGlobals].
  repeat split; try assumption; try (unfold portfolioTotalSteps; lia); try congruence.
  unfold skills_distinct, skills_have. rewrite Ev, Hv. apply NoDup_nil.
Qed.

(** [showPortfolioStep] after the step variable has been set to a step in
    range restores the invariant, whatever the buttons showed before. *)
Lemma Inv_show (p : Page) :
  page_ok p = true -> (1 <= portfolioCurrentStep (vars p) <= portfolioTotalSteps)%Z ->
  skills_distinct p ->
  Inv (page_after (showPortfolioStep (portfolioCurrentStep (vars p)) p)).
Proof.
  intros Hok Hr Hd.
  destruct (showPortfolioStep_ok (portfolioCurrentStep (vars p)) p Hok) as (q & E & Ev & _ & Hp & Hn);
    [apply in_stepNumbers; unfold portfolioTotalSteps in Hr; lia|].
  pose proof (page_ok_after (showPortfolioStep (portfolioCurrentStep (vars p))) p
                (fun K S => frame_showPortfolioStep K S _)) as Hok'.
  rewrite E in *. cbn [page_after] in *.
  unfold Inv, skills_distinct, skills_have in *. rewrite Ev.
  repeat split; try assumption; try lia; congruence.
Qed.

Lemma Inv_controls (p q : Page) :
  Inv p -> page_ok q = true -> skills_distinct q ->
  controls (portfolioCurrentStep (vars p)) (displayed "portfolioPrevBtn" p)
    (displayed "portfolioNextBtn" p) q ->
  Inv q.
Proof.
  intros (H1 & H2 & H3 & H4 & H5) Hok Hd (C1 & C2 & C3).
  unfold Inv. rewrite C1, C2, C3. auto.
Qed.

Lemma Inv_next (p : Page) :
  Inv p -> displayed "portfolioNextBtn" p = true -> Inv (page_after (nextPortfolioStep p)).
Proof.
  intros HI Hn.
  assert (Hok := page_ok_after (react ClickNext) p (fun K S => frame_react K S ClickNext)).
  assert (Hd := distinct_react ClickNext p (proj2 (proj2 (proj2 (proj2 HI))))).
  cbn [react] in Hok, Hd.
  pose proof (controls_validatePortfolioStep _ _ _ (portfolioCurrentStep (vars p)) p
                (conj eq_refl (conj eq_refl eq_refl))) as Hc.
  pose proof (page_ok_after (validatePortfolioStep (portfolioCurrentStep (vars p))) p
                (fun K S => frame_validatePortfolioStep K S _)) as Hokv.
  pose proof (distinct_validatePortfolioStep (portfolioCurrentStep (vars p)) p
                (proj2 (proj2 (proj2 (proj2 HI))))) as Hdv.
  unfold nextPortfolioStep in *.
  rewrite (bind_returned _ _ p p p) in * by reflexivity.
  unfold bind at 1. unfold bind at 1 in Hok. unfold bind at 1 in Hd.
  destruct (validatePortfolioStep (portfolioCurrentStep (vars p)) p) as [[|] p1|p1];
    cbn [page_after] in Hc, Hokv, Hdv;
    pose proof HI as (H1 & H2 & H3 & H4 & H5).
  - (* the step is valid: the variable is incremented and the step shown *)
    unfold bind at 1, modify_vars, modify. unfold bind at 1, get.
    set (p2 := set_vars _ p1).
    destruct Hc as (C1 & C2 & C3).
    assert (Hs : portfolioCurrentStep (vars p2) = (portfolioCurrentStep (vars p) + 1)%Z)
      by (unfold p2; cbn; now rewrite C1).
    apply Inv_show.
    + change (page_ok p2) with (page_ok p1). congruence.
    + rewrite Hs. rewrite H4 in Hn. apply negb_true_iff, Z.eqb_neq in Hn. lia.
    + exact Hdv.
  - cbn [page_after ret]. apply (Inv_controls p); [exact HI | congruence | exact Hdv | exact Hc].
  - cbn [page_after]. apply (Inv_controls p); [exact HI | congruence | exact Hdv | exact Hc].
Qed.

Lemma Inv_previous (p : Page) :
  Inv p -> displayed "portfolioPrevBtn" p = true -> Inv (page_after (previousPortfolioStep p)).
Proof.
  intros (H1 & H2 & H3 & H4 & H5) Hp.
  unfold previousPortfolioStep.
  unfold bind at 1, modify_vars, modify. unfold bind at 1, get.
  set (p2 := set_vars _ p).
  assert (Hs : portfolioCurrentStep (vars p2) = (portfolioCurrentStep (vars p) - 1)%Z)
    by reflexivity.
  apply Inv_show.
  - exact H1.
  - rewrite Hs. rewrite H3 in Hp. apply negb_true_iff, Z.eqb_neq in Hp. lia.
  - exact H5.
Qed.

(** A call that keeps the frame, the controls and the skills keeps the
    invariant. *)
Lemma Inv_stable {A : Type} (m : M A) :
  (forall K S, stable (frame K S) m) ->
  (forall n a b, stable (controls n a b) m) ->
  stable skills_distinct m ->
  stable Inv m.
Proof.
  intros HF HC HD p HI.
  apply (Inv_controls p); [exact HI | | | ].
  - rewrite (page_ok_after m p HF). apply HI.
  - apply HD, HI.
  - apply HC. repeat split.
Qed.

Lemma Inv_runCallback_download (html_ name : string) :
  stable Inv (runCallback (DownloadPrompt html_ name)).
Proof.
  apply Inv_stable; intros; cbn [runCallback]; cbv zeta; repeat stable_step;
    first [ frame_leaf | controls_leaf | distinct_leaf ].
Qed.

Lemma Inv_reset_tail :
  stable Inv
    (setElementById "portfolioProjectsContainer" (with_innerHTML initialProjectCard);;
     setElementById "portfolioCertsList" (with_innerHTML "");;
     setElementById "portfolioSkillsList" (with_innerHTML "");;
     setElementById "portfolioWorkList" (with_innerHTML "")).
Proof.
  apply Inv_stable; intros; repeat stable_step;
    first [ frame_leaf | controls_leaf | distinct_leaf ].
Qed.

Lemma Inv_env (p : Page) (e : Env) : Inv p -> Inv (set_env e p).
Proof. intros H. exact H. Qed.

Lemma Inv_runCallback_reset : stable Inv (runCallback ResetForm).
Proof.
  intros p HI. cbn [runCallback].
  unfold bind at 1, getElementById.
  destruct (assoc "portfolioBuilderForm" (elements (dom p))); [|exact HI].
  unfold bind at 1, modify.
  set (p2 := set_dom _ p).
  do 5 (unfold bind at 1, modify_vars, modify).
  set (p3 := set_vars _ _).
  assert (Hok : page_ok p3 = true).
  { rewrite (page_ok_frame p3 p); [apply HI | apply keys_reset | reflexivity]. }
  assert (H3 : Inv (page_after (showPortfolioStep 1 p3))).
  { apply (Inv_show p3 Hok); [cbn; unfold portfolioTotalSteps; lia | apply NoDup_nil]. }
  unfold bind at 1.
  destruct (showPortfolioStep 1 p3) as [[] q|q]; cbn [page_after] in H3; [|exact H3].
  now apply Inv_reset_tail.
Qed.

Lemma Inv_fireTimer : stable Inv fireTimer.
Proof.
  intros p HI. unfold fireTimer. unfold bind at 1, get.
  destruct (timers (env p)) as [|[due cb] rest]; [exact HI|].
  unfold bind at 1, modify.
  destruct cb; [apply Inv_runCallback_download | apply Inv_runCallback_reset]; exact HI.
Qed.

Lemma Inv_event (p : Page) (ev : Event) : Inv p -> enabled ev p = true -> Inv (after ev p).
Proof.
  intros HI He. unfold after.
  destruct ev eqn:E;
    try (apply Inv_stable;
         [ intros; apply frame_react
         | intros; apply controls_react; discriminate
         | apply distinct_react
         | exact HI ]).
  - now apply Inv_next.
  - now apply Inv_previous.
  - now apply Inv_fireTimer.
Qed.

Lemma reachable_Inv (p : Page) : reachable p -> Inv p.
Proof.
  induction 1 as [p0 Hok Hv | p ev _ IH He]; [now apply Inv_load | now apply Inv_event].
Qed.

(** Pages reached by running a list of events. *)
Lemma reachable_run (evs : list Event) (p : Page) :
  reachable p -> all_enabled evs p = true -> reachable (run evs p).
Proof.
  revert p; induction evs as [|ev evs IH]; intros p Hp H; cbn [run]; [exact Hp|].
  cbn [all_enabled] in H. apply andb_true_iff in H as [H1 H2]. apply IH; [now apply reach_event | exact H2].
Defined.

Lemma reachable_loadedPage : reachable loadedPage.
Proof. apply reach_load; reflexivity. Defined.

(** ** The step stays in range (C2) *)

(** C2 (amended).  In every page of a session (the script loaded into a page
    that has the eight step sections, the progress bar and the three buttons,
    then any events the page enables, the Next and Previous buttons being
    clickable only while displayed) the current step is between 1 and 8. *)
Theorem step_within_bounds (p : Page) :
  reachable p -> (1 <= portfolioCurrentStep (vars p) <= 8)%Z.
Proof.
  intros H.
  assert (HI : Inv p).
  { induction H as [p0 Hok Hv | p ev _ IH He].
    - now apply Inv_load.
    - now apply Inv_event. }
  destruct HI as (_ & Hb & _). exact Hb.
Qed.

Lemma step_within_bounds_witness :
  reachable lastStepPage
  /\ (1 <= portfolioCurrentStep (vars lastStepPage) <= 8)%Z.
Proof.
  assert (H : reachable lastStepPage).
  { apply reachable_run; [exact reachable_loadedPage | vm_compute; reflexivity]. }
  split; [exact H | exact (step_within_bounds lastStepPage H)].
Defined.

(** C2, as stated, fails: called on the first step, [previousPortfolioStep]
    leaves the step at 0, and called on the last step of a session with
    nothing left to fill in, [nextPortfolioStep] leaves it at 9. *)
Lemma step_leaves_bounds :
  portfolioCurrentStep (vars loadedPage) = 1%Z
  /\ portfolioCurrentStep (vars (page_after (previousPortfolioStep loadedPage))) = 0%Z
  /\ portfolioCurrentStep (vars lastStepPage) = 8%Z
  /\ portfolioCurrentStep (vars (page_after (nextPortfolioStep lastStepPage))) = 9%Z.
Proof. repeat split; vm_compute; reflexivity. Qed.

(** ** Validation of a step (C3) *)

Lemma existsb_find {A : Type} (f : A -> bool) (l : list A) :
  existsb f l = match find f l with Some _ => true | None => false end.
Proof.
  induction l as [|x l IH]; cbn [existsb find]; [reflexivity|].
  destruct (f x); [reflexivity | exact IH].
Qed.

(** The loop over the required controls stops at the first blank one, with one
    message and the focus on it; it changes nothing when there is none. *)
Lemma checkRequired_spec (inputs : list string) (p : Page) :
  all_present inputs p = true ->
  checkRequired inputs p =
  match find (blank p) inputs with
  | Some h => Returned false (rejected_at h p)
  | None => Returned true p
  end.
Proof.
  induction inputs as [|h rest IH]; intros H; cbn [checkRequired find]; [reflexivity|].
  cbn [all_present forallb] in H. apply andb_true_iff in H as [Hh Hrest].
  unfold bind at 1, getElementById. unfold blank at 1. unfold has, lookup in *.
  destruct (assoc h (elements (dom p))) as [e|]; [|discriminate].
  destruct (negb (truthy (trim (el_value e)))); [reflexivity | now apply IH].
Qed.

(** C3 (amended).  For a step whose section and required controls are in the page,
    validation returns false exactly when a required control of the section is
    empty once trimmed, or the step is 2 and the selected domain is empty.  A
    failed validation changes no script variable and adds exactly one
    message; it puts the focus on the first blank required control when there
    is one, and leaves the focus where it was when only the domain is missing.
    On the current step, [nextPortfolioStep] then returns with the page as
    validation left it: the step does not advance. *)
Theorem validation_fails_exactly (p : Page) (s : Z) (sec : StepSection) :
  querySelectorStep s (dom p) = Some sec ->
  all_present (ss_required sec) p = true ->
  (s = 2%Z -> has "portfolioSelectedDomain" p = true) ->
  let o := validatePortfolioStep s p in
  let q := page_after o in
  result o = Some (negb (existsb (blank p) (ss_required sec) || domainMissing s p))
  /\ vars q = vars p
  /\ elements (dom q) = elements (dom p)
  /\ match find (blank p) (ss_required sec) with
     | Some h =>
         alerts (env q) = (alerts (env p) ++ ["Please fill in all required fields"])%list
         /\ focused (dom q) = Some h
     | None =>
         alerts (env q) =
           (alerts (env p) ++ (if domainMissing s p then ["Please select a domain"] else []))%list
         /\ focused (dom q) = focused (dom p)
     end
  /\ (s = portfolioCurrentStep (vars p) -> result o = Some false ->
      nextPortfolioStep p = Returned tt q).
Proof.
  intros Hsec Hreq Hdom. cbv zeta.
  assert (E : validatePortfolioStep s p =
    match find (blank p) (ss_required sec) with
    | Some h => Returned false (rejected_at h p)
    | None =>
        if domainMissing s p
        then Returned false
               (set_env (with_alerts (alerts (env p) ++ ["Please select a domain"])%list (env p)) p)
        else Returned true p
    end).
  { unfold validatePortfolioStep. rewrite (bind_returned _ _ p p p) by reflexivity.
    rewrite Hsec. unfold bind at 1. rewrite (checkRequired_spec _ _ Hreq).
    destruct (find (blank p) (ss_required sec)); [reflexivity|].
    cbn [negb]. unfold domainMissing.
    destruct (Z.eqb_spec s 2) as [->|Hne]; [|reflexivity].
    specialize (Hdom eq_refl). unfold has, lookup in *.
    unfold bind at 1, getElementById.
    destruct (assoc "portfolioSelectedDomain" (elements (dom p))) as [d|]; [|discriminate].
    cbn [andb]. destruct (negb (truthy (el_value d))); reflexivity. }
  assert (N : result (validatePortfolioStep s p) = Some false ->
              s = portfolioCurrentStep (vars p) ->
              nextPortfolioStep p = Returned tt (page_after (validatePortfolioStep s p))).
  { intros Hr ->. unfold nextPortfolioStep. rewrite (bind_returned _ _ p p p) by reflexivity.
    unfold bind at 1.
    destruct (validatePortfolioStep (portfolioCurrentStep (vars p)) p) as [[|] q|q];
      cbn in Hr; try discriminate. reflexivity. }
  split; [|split; [|split; [|split]]].
  - rewrite E, existsb_find.
    destruct (find (blank p) (ss_required sec)); [reflexivity|].
    destruct (domainMissing s p); reflexivity.
  - rewrite E. destruct (find (blank p) (ss_required sec)); [reflexivity|].
    destruct (domainMissing s p); reflexivity.
  - rewrite E. destruct (find (blank p) (ss_required sec)); [reflexivity|].
    destruct (domainMissing s p); reflexivity.
  - rewrite E. destruct (find (blank p) (ss_required sec)); [split; reflexivity|].
    destruct (domainMissing s p); split; try reflexivity.
    cbn. now rewrite app_nil_r.
  - intros Hs Hr. now apply N.
Qed.

Lemma validation_fails_exactly_witness :
  (result (validatePortfolioStep 1 loadedPage) = Some false
   /\ focused (dom (page_after (validatePortfolioStep 1 loadedPage))) = Some "portfolioEmail"
   /\ nextPortfolioStep loadedPage = Returned tt (page_after (validatePortfolioStep 1 loadedPage)))
  /\ (result (validatePortfolioStep 2 secondStepPage) = Some false
      /\ alerts (env (page_after (validatePortfolioStep 2 secondStepPage)))
         = ["Please select a domain"]
      /\ focused (dom (page_after (validatePortfolioStep 2 secondStepPage))) = None).
Proof.
  split.
  - pose proof (validation_fails_exactly loadedPage 1 _ eq_refl eq_refl ltac:(discriminate)) as H.
    cbv zeta in H. destruct H as (H1 & _ & _ & H4 & H5).
    split; [exact H1|]. split; [exact (proj2 H4)|].
    apply H5; [reflexivity | exact H1].
  - pose proof (validation_fails_exactly secondStepPage 2 _ eq_refl eq_refl
                  ltac:(reflexivity)) as H.
    cbv zeta in H. destruct H as (H1 & _ & _ & H4 & _).
    split; [exact H1|]. exact H4.
Defined.

(** C3, as stated, fails: on the second step, its required control filled in
    and no domain chosen, validation fails with its one message and no
    control receives the focus. *)
Lemma missing_domain_moves_no_focus :
  option_map (fun sec => existsb (blank secondStepPage) (ss_required sec))
    (querySelectorStep 2 (dom secondStepPage)) = Some false
  /\ result (validatePortfolioStep 2 secondStepPage) = Some false
  /\ alerts (env (page_after (validatePortfolioStep 2 secondStepPage)))
     = ["Please select a domain"]
  /\ focused (dom secondStepPage) = None
  /\ focused (dom (page_after (validatePortfolioStep 2 secondStepPage))) = None.
Proof. repeat split; vm_compute; reflexivity. Qed.

(** ** Removal by position (C5) *)

Lemma splice_one {A : Type} (i : Z) (l : list A) :
  in_range i l = true -> splice i 1 l = without (Z.to_nat i) l.
Proof.
  unfold in_range, splice, without. intros H.
  apply andb_true_iff in H as [H1 H2]. apply Z.leb_le in H1. apply Z.ltb_lt in H2.
  cbv zeta. destruct (Z.ltb_spec i 0); [lia|].
  rewrite Z.min_l by lia.
  replace (Z.min (Z.max 1 0) (Z.of_nat (List.length l) - i))%Z with 1%Z by lia.
  replace (Z.to_nat (i + 1)) with (S (Z.to_nat i)) by lia. reflexivity.
Qed.

Lemma without_excised {A : Type} (i : nat) (l : list A) :
  (i < List.length l)%nat -> excised i l (without i l).
Proof.
  intros Hi. unfold excised, without. repeat split.
  - rewrite length_app, firstn_length_le, length_skipn by lia. lia.
  - intros j Hj. rewrite nth_error_app1 by (rewrite firstn_length_le; lia).
    rewrite nth_error_firstn. apply Nat.ltb_lt in Hj. now rewrite Hj.
  - intros j Hj. rewrite nth_error_app2 by (rewrite firstn_length_le; lia).
    rewrite firstn_length_le by lia. rewrite nth_error_skipn. f_equal. lia.
Qed.

Lemma in_range_lt {A : Type} (i : Z) (l : list A) :
  in_range i l = true -> (Z.to_nat i < List.length l)%nat.
Proof.
  unfold in_range. intros H. apply andb_true_iff in H as [H1 H2].
  apply Z.leb_le in H1. apply Z.ltb_lt in H2. lia.
Qed.

(** C5.  For each of the three lists and every position of it, the remove
    operation leaves the list with the entry at that position excised and
    the later entries one position down, and leaves the other two lists as
    they were. *)
Theorem remove_by_index (p : Page) (i : Z) :
  (in_range i (portfolioSkills (vars p)) = true ->
   let q := page_after (removePortfolioSkill i p) in
   excised (Z.to_nat i) (portfolioSkills (vars p)) (portfolioSkills (vars q))
   /\ portfolioCertificates (vars q) = portfolioCertificates (vars p)
   /\ portfolioWorkExperience (vars q) = portfolioWorkExperience (vars p))
  /\ (in_range i (portfolioCertificates (vars p)) = true ->
      let q := page_after (removePortfolioCert i p) in
      excised (Z.to_nat i) (portfolioCertificates (vars p)) (portfolioCertificates (vars q))
      /\ portfolioSkills (vars q) = portfolioSkills (vars p)
      /\ portfolioWorkExperience (vars q) = portfolioWorkExperience (vars p))
  /\ (in_range i (portfolioWorkExperience (vars p)) = true ->
      let q := page_after (removePortfolioWork i p) in
      excised (Z.to_nat i) (portfolioWorkExperience (vars p)) (portfolioWorkExperience (vars q))
      /\ portfolioSkills (vars q) = portfolioSkills (vars p)
      /\ portfolioCertificates (vars q) = portfolioCertificates (vars p)).
Proof.
  assert (V : forall (m : M unit) (p0 : Page) (g : Globals),
             vars p0 = g -> stable (fun q => vars q = g) m -> vars (page_after (m p0)) = g).
  { intros m p0 g Hg Hm. now apply Hm. }
  assert (R1 : forall g items, stable (fun q => vars q = g)
                 (renderPortfolioList "portfolioSkillsList" items "removePortfolioSkill")).
  { intros. repeat stable_step. intros q Hq. exact Hq. }
  assert (R2 : forall g, stable (fun q => vars q = g) renderPortfolioCertsList).
  { intros. repeat stable_step; intros q Hq; exact Hq. }
  assert (R3 : forall g, stable (fun q => vars q = g) renderPortfolioWorkList).
  { intros. repeat stable_step; intros q Hq; exact Hq. }
  repeat split.
  all: match goal with
       | H : in_range _ _ = true |- _ =>
           pose proof (in_range_lt _ _ H) as Hlt; pose proof (splice_one _ _ H) as Hsp
       end.
  all: unfold removePortfolioSkill, removePortfolioCert, removePortfolioWork.
  all: unfold bind at 1, modify_vars, modify; try (unfold bind at 1, get).
  all: first [ erewrite (V _ _ _ eq_refl (R1 _ _))
             | erewrite (V _ _ _ eq_refl (R2 _))
             | erewrite (V _ _ _ eq_refl (R3 _)) ].
  all: cbn [vars set_vars with_skills with_certificates with_work portfolioSkills
            portfolioCertificates portfolioWorkExperience]; try reflexivity.
  all: rewrite Hsp; now apply without_excised.
Qed.

Lemma remove_by_index_witness :
  portfolioSkills (vars (page_after (removePortfolioSkill 0 listsPage))) = ["JavaScript"]
  /\ excised 1 (portfolioCertificates (vars listsPage))
       (portfolioCertificates (vars (page_after (removePortfolioCert 1 listsPage))))
  /\ excised 1 (portfolioWorkExperience (vars listsPage))
       (portfolioWorkExperience (vars (page_after (removePortfolioWork 1 listsPage)))).
Proof.
  split; [reflexivity|]. split.
  - exact (proj1 (proj1 (proj2 (remove_by_index listsPage 1)) eq_refl)).
  - exact (proj1 (proj2 (proj2 (remove_by_index listsPage 1)) eq_refl)).
Defined.

(** ** The size limit of certificate images (C6) *)

(** C6.  When the name and the issuer are not empty once trimmed and the
    first file picked is larger than 5 MB, [addPortfolioCertificate] returns
    after one message: the certificates, the other script variables, every
    element of the page (the three controls of the form keep their content),
    the file reads in flight and the timers are as before, and the messages
    are the former ones followed by the size-limit message. *)
Theorem oversized_image_rejected (p : Page) (nameEl issuerEl imageEl : Element)
  (imageFile : File) (others : list File) :
  lookup "portfolioCertName" p = Some nameEl ->
  lookup "portfolioCertIssuer" p = Some issuerEl ->
  lookup "portfolioCertImage" p = Some imageEl ->
  trim (el_value nameEl) <> "" ->
  trim (el_value issuerEl) <> "" ->
  el_files imageEl = imageFile :: others ->
  (file_size imageFile > maxImageBytes)%Z ->
  let q := page_after (addPortfolioCertificate p) in
  addPortfolioCertificate p = Returned tt (with_size_alert p)
  /\ portfolioCertificates (vars q) = portfolioCertificates (vars p)
  /\ vars q = vars p /\ dom q = dom p
  /\ readers (env q) = readers (env p) /\ timers (env q) = timers (env p)
  /\ alerts (env q) = (alerts (env p) ++ ["Image file size should be less than 5MB"])%list
  /\ List.length (alerts (env q)) = S (List.length (alerts (env p))).
Proof.
  intros Hn Hi Him Hname Hissuer Hfiles Hsize. cbv zeta.
  assert (E : addPortfolioCertificate p = Returned tt (with_size_alert p)).
  { unfold addPortfolioCertificate, lookup in *.
    unfold bind at 1, getElementById. rewrite Hn. cbv zeta.
    unfold bind at 1, getElementById. rewrite Hi.
    unfold bind at 1, getElementById. rewrite Him.
    apply truthy_iff in Hname, Hissuer. rewrite Hname, Hissuer, Hfiles.
    cbn [andb hd_error].
    assert (G : (file_size imageFile >? 5 * 1024 * 1024)%Z = true)
      by (apply Z.gtb_lt; unfold maxImageBytes in Hsize; lia).
    rewrite G. reflexivity. }
  rewrite E. cbn [page_after with_size_alert set_env vars dom env with_alerts
                  readers timers alerts].
  repeat split. rewrite length_app. cbn. lia.
Qed.

Lemma oversized_image_rejected_witness :
  addPortfolioCertificate oversizedPage = Returned tt (with_size_alert oversizedPage)
  /\ portfolioCertificates (vars (page_after (addPortfolioCertificate oversizedPage)))
     = portfolioCertificates (vars oversizedPage).
Proof.
  pose proof (oversized_image_rejected oversizedPage _ _ _ bigFile [] eq_refl eq_refl eq_refl
                ltac:(discriminate) ltac:(discriminate) eq_refl eq_refl) as H.
  cbv zeta in H. split; [exact (proj1 H) | exact (proj1 (proj2 H))].
Defined.

(** ** Adding a skill (C4) *)

Lemma count_occ_app_one (l : list string) (x : string) :
  ~ In x l -> count_occ string_dec (l ++ [x]) x = 1%nat.
Proof.
  intros H. rewrite count_occ_app. apply (count_occ_not_In string_dec) in H. rewrite H.
  cbn. destruct (string_dec x x); [reflexivity | congruence].
Qed.

Lemma count_occ_NoDup_In (l : list string) (x : string) :
  NoDup l -> In x l -> count_occ string_dec l x = 1%nat.
Proof.
  intros Hd Hin. rewrite (NoDup_count_occ string_dec) in Hd. specialize (Hd x).
  apply (count_occ_In string_dec) in Hin. lia.
Qed.

(** What [addPortfolioSkill] does to the list, whether or not rendering
    succeeds afterwards. *)
Lemma addPortfolioSkill_skills (p : Page) (input : Element) :
  lookup "portfolioSkillInput" p = Some input ->
  let skill := trim (el_value input) in
  portfolioSkills (vars (page_after (addPortfolioSkill p))) =
  if truthy skill && (indexOf skill (portfolioSkills (vars p)) =? -1)%Z
  then (portfolioSkills (vars p) ++ [skill])%list
  else portfolioSkills (vars p).
Proof.
  intros Hin. cbv zeta. unfold addPortfolioSkill, lookup in *.
  unfold bind at 1, getElementById. rewrite Hin. cbv zeta.
  unfold bind at 1, get.
  destruct (truthy (trim (el_value input)) && _) eqn:C; [|reflexivity].
  unfold bind at 1, modify_vars, modify.
  match goal with |- portfolioSkills (vars (page_after (?m ?q))) = ?l =>
    assert (K : stable (fun r => portfolioSkills (vars r) = l) m)
  end.
  { repeat stable_step; intros r Hr; exact Hr. }
  now apply K.
Qed.

Lemma lookup_typed (v : string) (p : Page) (input : Element) :
  lookup "portfolioSkillInput" p = Some input ->
  exists input', lookup "portfolioSkillInput" (after (TypeInto "portfolioSkillInput" v) p) = Some input'
    /\ el_value input' = v
    /\ vars (after (TypeInto "portfolioSkillInput" v) p) = vars p.
Proof.
  intros H. unfold after. cbn [react].
  rewrite setElementById_ok by (unfold has; now rewrite H).
  cbn [page_after]. rewrite lookup_write, String.eqb_refl, H. cbn [option_map].
  eexists. repeat split.
Qed.

(** C4 (amended).  When the content of the skill input, trimmed, is empty or already
    in the list, [addPortfolioSkill] returns with the page untouched; in a
    session the same holds when the content as typed is already in the list,
    every skill listed being a trimmed text.  In a session, entering the same
    non-blank text twice leaves its trimmed form in the list exactly once.
    Membership is equality of byte strings, hence case-sensitive. *)
Theorem add_skill_once (p : Page) (input : Element) (v : string) :
  lookup "portfolioSkillInput" p = Some input ->
  (trim (el_value input) = "" \/ In (trim (el_value input)) (portfolioSkills (vars p)) ->
   addPortfolioSkill p = Returned tt p)
  /\ (reachable p -> In (el_value input) (portfolioSkills (vars p)) ->
      addPortfolioSkill p = Returned tt p)
  /\ (reachable p -> trim v <> "" ->
      count_occ string_dec (portfolioSkills (vars (enterSkill v (enterSkill v p)))) (trim v) = 1%nat).
Proof.
  intros Hin.
  assert (Noop : trim (el_value input) = "" \/ In (trim (el_value input)) (portfolioSkills (vars p)) ->
                 addPortfolioSkill p = Returned tt p).
  { intros H. unfold addPortfolioSkill, lookup in *.
    unfold bind at 1, getElementById. rewrite Hin. cbv zeta. unfold bind at 1, get.
    destruct H as [H|H].
    + rewrite H. reflexivity.
    + destruct (Z.eqb_spec (indexOf (trim (el_value input)) (portfolioSkills (vars p))) (-1))
        as [E|E]; [apply indexOf_In in E; contradiction | now rewrite andb_false_r]. }
  split; [exact Noop|]. split.
  - intros Hr Hl. apply Noop. right.
    pose proof (reachable_trimmed p Hr) as Ht. rewrite Forall_forall in Ht.
    now rewrite (Ht _ Hl).
  - intros Hr Hv. apply reachable_Inv in Hr. destruct Hr as (_ & _ & _ & _ & Hd).
    unfold skills_distinct, skills_have in Hd. apply truthy_iff in Hv.
    assert (Step : forall q inp, lookup "portfolioSkillInput" q = Some inp ->
              exists inp', lookup "portfolioSkillInput" (enterSkill v q) = Some inp'
              /\ portfolioSkills (vars (enterSkill v q)) =
                 if (indexOf (trim v) (portfolioSkills (vars q)) =? -1)%Z
                 then (portfolioSkills (vars q) ++ [trim v])%list
                 else portfolioSkills (vars q)).
    { intros q inp Hq. unfold enterSkill.
      destruct (lookup_typed v q inp Hq) as (inp' & L & V & G).
      pose proof (frame_react (keys (after (TypeInto "portfolioSkillInput" v) q))
                    (steps_of (after (TypeInto "portfolioSkillInput" v) q)) ClickAddSkill
                    _ (conj eq_refl eq_refl)) as [HK _].
      fold (after ClickAddSkill (after (TypeInto "portfolioSkillInput" v) q)) in HK.
      assert (Hh : has "portfolioSkillInput"
                     (after ClickAddSkill (after (TypeInto "portfolioSkillInput" v) q)) = true).
      { rewrite has_existsb, HK, <- has_existsb. unfold has. now rewrite L. }
      unfold has in Hh.
      destruct (lookup "portfolioSkillInput"
                  (after ClickAddSkill (after (TypeInto "portfolioSkillInput" v) q))) as [inp''|];
        [|discriminate].
      exists inp''. split; [reflexivity|].
      unfold after at 1. cbn [react].
      rewrite (addPortfolioSkill_skills _ inp' L). cbv zeta.
      rewrite V, G, Hv. reflexivity. }
    destruct (Step p input Hin) as (inp1 & L1 & S1).
    destruct (Step (enterSkill v p) inp1 L1) as (_ & _ & S2).
    rewrite S2, S1.
    destruct (Z.eqb_spec (indexOf (trim v) (portfolioSkills (vars p))) (-1)) as [E|E].
    + apply indexOf_In in E.
      destruct (Z.eqb_spec (indexOf (trim v) (portfolioSkills (vars p) ++ [trim v])) (-1)) as [E'|E'].
      * apply indexOf_In in E'. contradiction E'. apply in_or_app. right. now left.
      * now apply count_occ_app_one.
    + assert (Hi : In (trim v) (portfolioSkills (vars p))).
      { destruct (in_dec string_dec (trim v) (portfolioSkills (vars p))) as [Hi|Hi]; [exact Hi|].
        apply indexOf_In in Hi. contradiction. }
      destruct (Z.eqb_spec (indexOf (trim v) (portfolioSkills (vars p))) (-1)); [contradiction|].
      now apply count_occ_NoDup_In.
Qed.

Lemma add_skill_once_witness :
  addPortfolioSkill loadedPage = Returned tt loadedPage
  /\ portfolioSkills (vars (enterSkill " Rocq " (enterSkill " Rocq " loadedPage))) = ["Rocq"]
  /\ portfolioSkills (vars (enterSkill "rocq" (enterSkill "Rocq" loadedPage))) = ["Rocq"; "rocq"]
  /\ count_occ string_dec
       (portfolioSkills (vars (enterSkill " Rocq " (enterSkill " Rocq " loadedPage)))) "Rocq" = 1%nat.
Proof.
  pose proof (add_skill_once loadedPage _ " Rocq " eq_refl) as (H1 & _ & H3).
  split; [apply H1; left; reflexivity|]. split; [reflexivity|]. split; [reflexivity|].
  apply H3; [exact reachable_loadedPage | discriminate].
Defined.

(** C4, as stated, fails.  A text typed with spaces around it and entered
    twice is not in the list at all: what the list holds, once, is the text
    trimmed; a blank text entered twice leaves the list empty.  The list of
    a session holds trimmed texts without duplicates; on a list that is not
    so, a text that is in the list as it is typed is added all the same, and
    a text that was there twice stays there twice. *)
Lemma untrimmed_skill_not_listed :
  (portfolioSkills (vars (enterSkill " Rocq " (enterSkill " Rocq " loadedPage))) = ["Rocq"]
   /\ mem " Rocq " (portfolioSkills (vars (enterSkill " Rocq " (enterSkill " Rocq " loadedPage))))
      = false)
  /\ portfolioSkills (vars (enterSkill "  " (enterSkill "  " loadedPage))) = []
  /\ (let p := set_vars (with_skills [" Rocq "] (vars loadedPage)) loadedPage in
      portfolioSkills (vars (enterSkill " Rocq " p)) = [" Rocq "; "Rocq"])
  /\ (let p := set_vars (with_skills ["Rocq"; "Rocq"] (vars loadedPage)) loadedPage in
      portfolioSkills (vars (enterSkill "Rocq" (enterSkill "Rocq" p))) = ["Rocq"; "Rocq"]).
Proof. repeat split; vm_compute; reflexivity. Qed.

(** ** The text written is a function of the snapshot (C8) *)

Lemma generatePortfolioHTML_previews (d : FormData) (p : Page) :
  previews (env (page_after (generatePortfolioHTML d p))) =
  (previews (env p) ++ (if popupsBlocked (env p) then [] else [portfolioHTML d]))%list.
Proof.
  unfold generatePortfolioHTML. cbv zeta.
  unfold bind at 1. unfold openPreview at 1. unfold bind at 1, get.
  destruct (popupsBlocked (env p)).
  - cbn [ret]. rewrite app_nil_r.
    assert (K : stable (fun q => previews (env q) = previews (env p))
                  (closePortfolioModal;; setTimeout ResetForm 1000)).
    { repeat stable_step; intros q Hq; exact Hq. }
    now apply K.
  - unfold bind at 1, modify. unfold setTimeout at 1, modify.
    match goal with |- previews (env (page_after (?m ?q))) = ?l =>
      assert (K : stable (fun r => previews (env r) = l) m)
    end.
    { repeat stable_step; intros q Hq; exact Hq. }
    now apply K.
Qed.

Lemma written_by_app (p q : Page) (l : list string) :
  previews (env q) = (previews (env p) ++ l)%list -> written_by p q = l.
Proof.
  intros H. unfold written_by. rewrite H.
  rewrite skipn_app, skipn_all, Nat.sub_diag. reflexivity.
Qed.

(** C8.  The text a call writes to its preview window is a function of the
    snapshot alone: on any two pages, whatever their script variables,
    elements, timers and clock, two calls with the same snapshot write the
    same bytes, namely [portfolioHTML] of the snapshot; this holds in
    particular for a second call made on the page the first one left. *)
Theorem generation_deterministic (d : FormData) (p1 p2 : Page) :
  popupsBlocked (env p1) = false -> popupsBlocked (env p2) = false ->
  let q1 := page_after (generatePortfolioHTML d p1) in
  let q2 := page_after (generatePortfolioHTML d p2) in
  written_by p1 q1 = [portfolioHTML d]
  /\ written_by p2 q2 = written_by p1 q1
  /\ written_by q1 (page_after (generatePortfolioHTML d q1)) = written_by p1 q1.
Proof.
  intros H1 H2. cbv zeta.
  pose proof (generatePortfolioHTML_previews d p1) as E1.
  pose proof (generatePortfolioHTML_previews d p2) as E2.
  pose proof (generatePortfolioHTML_previews d (page_after (generatePortfolioHTML d p1))) as E3.
  rewrite H1 in E1. rewrite H2 in E2.
  assert (B : popupsBlocked (env (page_after (generatePortfolioHTML d p1))) = false).
  { assert (K : stable (fun q => popupsBlocked (env q) = false) (generatePortfolioHTML d)).
    { repeat stable_step; intros q Hq; exact Hq. }
    now apply K. }
  rewrite B in E3.
  rewrite (written_by_app _ _ _ E1), (written_by_app _ _ _ E2), (written_by_app _ _ _ E3).
  repeat split.
Qed.

Lemma generation_deterministic_witness :
  written_by loadedPage (page_after (generatePortfolioHTML greenData loadedPage))
  = [portfolioHTML greenData]
  /\ written_by listsPage (page_after (generatePortfolioHTML greenData listsPage))
     = written_by loadedPage (page_after (generatePortfolioHTML greenData loadedPage)).
Proof.
  pose proof (generation_deterministic greenData loadedPage listsPage eq_refl eq_refl) as H.
  cbv zeta in H. split; [exact (proj1 H) | exact (proj1 (proj2 H))].
Defined.

(** The download offered later carries the same bytes. *)
Lemma download_same_bytes (d : FormData) (p : Page) :
  downloads (env (page_after (runCallback (DownloadPrompt (portfolioHTML d) (fullName d)) p))) =
  (downloads (env p) ++ (if confirmAnswer (env p) then [(downloadName d, portfolioHTML d)] else []))%list.
Proof.
  cbn [runCallback]. cbv zeta. unfold bind at 1, get.
  destruct (confirmAnswer (env p)); cbn; [reflexivity | now rewrite app_nil_r].
Qed.

(** ** The reset after generation (C9) *)

Lemma timers_runCallback (cb : Callback) (T : list (Z * Callback)) (K : list string) :
  stable (fun q => timers (env q) = T /\ keys q = K) (runCallback cb).
Proof.
  destruct cb; cbn [runCallback]; cbv zeta.
  - repeat stable_step; intros q Hq; exact Hq.
  - unfold showPortfolioStep.
    repeat stable_step; intros q [Hq1 Hq2]; (split; [exact Hq1|]);
      unfold keys in *; cbn; rewrite ?keys_update, ?keys_reset; exact Hq2.
Qed.

Lemma vars_reset_tail (g : Globals) :
  stable (fun q => vars q = g)
    (showPortfolioStep 1;;
     setElementById "portfolioProjectsContainer" (with_innerHTML initialProjectCard);;
     setElementById "portfolioCertsList" (with_innerHTML "");;
     setElementById "portfolioSkillsList" (with_innerHTML "");;
     setElementById "portfolioWorkList" (with_innerHTML "")).
Proof. unfold showPortfolioStep. repeat stable_step; intros q Hq; exact Hq. Qed.

(** The reset closure, run on any page that has the form, leaves the script
    variables as initialised. *)
Lemma runCallback_reset_vars (p : Page) :
  has "portfolioBuilderForm" p = true ->
  vars (page_after (runCallback ResetForm p)) = initialGlobals.
Proof.
  intros H. cbn [runCallback]. unfold has, lookup in H.
  unfold bind at 1, getElementById.
  destruct (assoc "portfolioBuilderForm" (elements (dom p))); [|discriminate].
  unfold bind at 1, modify.
  do 5 (unfold bind at 1, modify_vars, modify).
  now apply vars_reset_tail.
Qed.

Lemma vars_runCallback_download (html_ name : string) (g : Globals) :
  stable (fun q => vars q = g) (runCallback (DownloadPrompt html_ name)).
Proof. cbn [runCallback]; cbv zeta. repeat stable_step; intros q Hq; exact Hq. Qed.

Lemma fireTimer_cons (p : Page) (due : Z) (cb : Callback) (rest : list (Z * Callback)) :
  timers (env p) = (due, cb) :: rest ->
  fireTimer p =
  runCallback cb (set_env (with_now (Z.max (now (env p)) due) (with_timers rest (env p))) p).
Proof. intros E. unfold fireTimer, bind, get, modify. now rewrite E. Qed.

(** Once the timers pending have all fired, a reset closure among them has
    left the script variables as initialised. *)
Lemma fireTimers_reset (n : nat) (p : Page) :
  has "portfolioBuilderForm" p = true ->
  (List.length (timers (env p)) <= n)%nat ->
  In ResetForm (map snd (timers (env p))) \/ vars p = initialGlobals ->
  vars (fireTimers n p) = initialGlobals /\ timers (env (fireTimers n p)) = [].
Proof.
  revert p; induction n as [|n IH]; intros p Hf Hn Hr; cbn [fireTimers].
  - destruct (timers (env p)) as [|t l] eqn:E; [|cbn in Hn; lia].
    destruct Hr as [[]|Hr]. now split.
  - destruct (timers (env p)) as [|[due cb] rest] eqn:E.
    + destruct Hr as [[]|Hr]. now split.
    + rewrite (fireTimer_cons p due cb rest E).
      set (p1 := set_env _ p).
      assert (T1 : timers (env p1) = rest) by reflexivity.
      assert (K1 : keys p1 = keys p) by reflexivity.
      destruct (timers_runCallback cb rest (keys p) p1 (conj T1 K1)) as [T2 K2].
      apply IH.
      * rewrite has_existsb, K2, <- has_existsb. exact Hf.
      * rewrite T2. cbn in Hn. lia.
      * rewrite T2. destruct cb as [h nm|].
        -- destruct Hr as [[Hr|Hr]|Hr]; [discriminate Hr | now left | right].
           now apply vars_runCallback_download.
        -- right. apply runCallback_reset_vars. exact Hf.
Qed.

Lemma generatePortfolioHTML_schedules_reset (d : FormData) (p : Page) :
  has "portfolioModalOverlay" p = true ->
  let q := page_after (generatePortfolioHTML d p) in
  In ResetForm (map snd (timers (env q))) /\ keys q = keys p.
Proof.
  intros H. cbv zeta.
  assert (F : forall K S, stable (frame K S) (generatePortfolioHTML d)).
  { intros. repeat stable_step; frame_leaf. }
  split; [|apply (F (keys p) (steps_of p) p (conj eq_refl eq_refl))].
  unfold generatePortfolioHTML. cbv zeta.
  unfold bind at 1.
  assert (O : stable (fun q => keys q = keys p) (openPreview (portfolioHTML d) d)).
  { repeat stable_step; intros q Hq; exact Hq. }
  specialize (O p eq_refl).
  destruct (openPreview (portfolioHTML d) d p) as [[] p1|p1] eqn:E; cbn [page_after] in O.
  - unfold closePortfolioModal.
    assert (H1 : has "portfolioModalOverlay" p1 = true)
      by (rewrite has_existsb, O, <- has_existsb; exact H).
    unfold bind at 1. unfold bind at 1. rewrite setElementById_ok by exact H1.
    cbn [modify]. unfold setTimeout, modify. cbn [page_after env set_env with_timers timers].
    generalize (timers (env (set_dom (with_bodyOverflow "auto"
       (dom (write "portfolioModalOverlay" (classList_remove "active") p1)))
       (write "portfolioModalOverlay" (classList_remove "active") p1)))).
    intros l. induction l as [|u l IHl]; cbn [insert_timer map snd In]; [now left|].
    destruct (_ <? _)%Z; cbn [map snd In]; [now left | right; exact IHl].
  - exfalso. unfold openPreview in E. unfold bind at 1, get in E.
    destruct (popupsBlocked (env p)); discriminate E.
Qed.

(** C9.  On a page that has the modal overlay and the form, once the timers
    pending after a call of [generatePortfolioHTML] have all fired, the
    script variables are as initialised (no skill, certificate or work entry,
    project count 1, current step 1) and no timer is left; this holds whether
    the preview window opened or not and whatever the user answers to the
    download prompt, both being arbitrary in the page. *)
Theorem reset_after_generation (d : FormData) (p : Page) :
  has "portfolioModalOverlay" p = true -> has "portfolioBuilderForm" p = true ->
  let q := generation_completed d p in
  vars q = initialGlobals
  /\ portfolioSkills (vars q) = [] /\ portfolioCertificates (vars q) = []
  /\ portfolioWorkExperience (vars q) = [] /\ portfolioProjectCount (vars q) = 1%Z
  /\ portfolioCurrentStep (vars q) = 1%Z
  /\ timers (env q) = [].
Proof.
  intros Ho Hf. cbv zeta. unfold generation_completed. cbv zeta.
  destruct (generatePortfolioHTML_schedules_reset d p Ho) as [Hin HK].
  destruct (fireTimers_reset (List.length (timers (env (page_after (generatePortfolioHTML d p)))))
              (page_after (generatePortfolioHTML d p))) as [Hv Ht].
  - rewrite has_existsb, HK, <- has_existsb. exact Hf.
  - lia.
  - now left.
  - rewrite Hv. repeat split. exact Ht.
Qed.

Lemma reset_after_generation_witness :
  vars (generation_completed greenData listsPage) = initialGlobals
  /\ vars (generation_completed greenData decliningPage) = initialGlobals
  /\ vars (generation_completed greenData blockedPage) = initialGlobals
  /\ downloads (env (generation_completed greenData listsPage))
     = [("Ada_Lovelace_Portfolio.html", portfolioHTML greenData)]
  /\ downloads (env (generation_completed greenData decliningPage)) = [].
Proof.
  split; [exact (proj1 (reset_after_generation greenData listsPage eq_refl eq_refl))|].
  split; [exact (proj1 (reset_after_generation greenData decliningPage eq_refl eq_refl))|].
  split; [exact (proj1 (reset_after_generation greenData blockedPage eq_refl eq_refl))|].
  split; vm_compute; reflexivity.
Defined.

(** ** The skill list *)

(** In every page of a session the skill list holds no text twice. *)
Theorem skills_never_duplicate (p : Page) :
  reachable p -> NoDup (portfolioSkills (vars p)).
Proof. intros H. apply (reachable_Inv p H). Qed.

Lemma skills_never_duplicate_witness :
  NoDup (portfolioSkills (vars (enterSkill "Rocq" (enterSkill "Rocq" loadedPage)))).
Proof.
  apply skills_never_duplicate.
  apply (reachable_run [TypeInto "portfolioSkillInput" "Rocq"; ClickAddSkill;
                        TypeInto "portfolioSkillInput" "Rocq"; ClickAddSkill] loadedPage);
    [exact reachable_loadedPage | reflexivity].
Defined.

End WizardFacts.

(** ** Regular expressions and the forms *)

Module FormFacts.
Import JS Text RegExp Forms Plain TextFacts.

(** *** What a quantified atom matches *)

Lemma quantified_spec (a : Atom) (cs : list string) (k : list string -> bool) :
  forall lo hi,
  quantified a lo hi cs k = true <->
  exists pre post, cs = (pre ++ post)%list /\ (lo <= List.length pre)%nat
    /\ within hi (List.length pre) /\ forallb (atom_matches a) pre = true /\ k post = true.
Proof.
  induction cs as [|c cs IH]; intros lo hi; cbn [quantified].
  - split.
    + intros H. apply andb_true_iff in H as [H1 H2]. apply Nat.eqb_eq in H1.
      exists [], []. cbn. repeat split; [lia | destruct hi; cbn; lia | exact H2].
    + intros (pre & post & E & Hlo & _ & _ & Hk).
      symmetry in E. apply app_eq_nil in E as [-> ->]. cbn in Hlo.
      apply andb_true_iff. split; [apply Nat.eqb_eq; lia | exact Hk].
  - split.
    + intros H. apply orb_true_iff in H as [H|H].
      * assert (H' : atom_matches a c = true
                     /\ quantified a (Nat.pred lo) (option_map Nat.pred hi) cs k = true
                     /\ hi <> Some 0%nat).
        { destruct hi as [[|m]|]; [discriminate H | |];
            apply andb_true_iff in H as [H1 H2]; repeat split; auto; discriminate. }
        destruct H' as (Hc & Hq & Hhi).
        apply IH in Hq as (pre & post & E & Hlo & Hw & Hf & Hk).
        exists (c :: pre), post. cbn [app List.length forallb]. rewrite E, Hc, Hf.
        repeat split; [lia | | exact Hk].
        destruct hi as [[|m]|]; cbn in *; [congruence | lia | exact I].
      * apply andb_true_iff in H as [H1 H2]. apply Nat.eqb_eq in H1.
        exists [], (c :: cs). cbn. repeat split; [lia | destruct hi; cbn; lia | exact H2].
    + intros (pre & post & E & Hlo & Hw & Hf & Hk).
      apply orb_true_iff. destruct pre as [|c' pre].
      * right. cbn in E, Hlo. subst post. apply andb_true_iff.
        split; [apply Nat.eqb_eq; lia | exact Hk].
      * left. cbn [app] in E. injection E as <- E.
        cbn [forallb] in Hf. apply andb_true_iff in Hf as [Hc Hf]. cbn [List.length] in Hlo, Hw.
        assert (Hq : quantified a (Nat.pred lo) (option_map Nat.pred hi) cs k = true).
        { apply IH. exists pre, post. repeat split; auto; [lia|].
          destruct hi as [m|]; cbn in *; [lia | exact I]. }
        destruct hi as [[|m]|]; [cbn in Hw; lia | |]; now rewrite Hc, Hq.
Qed.

Lemma plus_spec (a : Atom) (cs : list string) (k : list string -> bool) :
  quantified a 1 None cs k = true <->
  exists pre post, cs = (pre ++ post)%list /\ pre <> []
    /\ forallb (atom_matches a) pre = true /\ k post = true.
Proof.
  rewrite quantified_spec. split; intros (pre & post & H); exists pre, post.
  - destruct H as (E & Hlo & _ & Hf & Hk). repeat split; auto.
    intros ->. cbn in Hlo. lia.
  - destruct H as (E & Hne & Hf & Hk). repeat split; auto.
    destruct pre; [congruence | cbn; lia].
Qed.

Lemma once_lit_spec (b : ascii) (cs : list string) (k : list string -> bool) :
  quantified (Lit b) 1 (Some 1%nat) cs k = true <->
  exists post, cs = String b "" :: post /\ k post = true.
Proof.
  rewrite quantified_spec. split.
  - intros (pre & post & E & Hlo & Hw & Hf & Hk). cbn in Hw.
    destruct pre as [|c [|c' pre]]; cbn in Hlo, Hw; try lia.
    cbn in Hf. rewrite andb_true_r in Hf. apply String.eqb_eq in Hf. subst c.
    exists post. now split.
  - intros (post & E & Hk). exists [String b ""], post.
    cbn [app List.length forallb atom_matches within]. rewrite String.eqb_refl.
    repeat split; auto.
Qed.

(** *** Characters and bytes *)

Lemma has_ws_characters (s : string) : has_ws s = false -> characters 0 s = bytes s.
Proof.
  induction s as [|c s IH]; cbn [has_ws characters]; [reflexivity|].
  intros H. apply orb_false_iff in H as [H1 H2]. apply Nat.ltb_ge in H1.
  assert (E : ws_len (String c s) = 0%nat) by lia. rewrite E.
  unfold bytes. cbn [list_ascii_of_string map]. f_equal. now apply IH.
Qed.

Lemma take_ws_len (s : string) : is_space (take (ws_len s) s) = is_space s.
Proof.
  unfold is_space.
  destruct s as [|a [|b [|c s]]]; cbn [ws_len take]; try reflexivity.
  - destruct (ws1 (code a)) eqn:E; cbn [take ws_len]; now rewrite ?E.
  - destruct (ws1 (code a)) eqn:E; cbn [take ws_len]; rewrite ?E; [reflexivity|].
    destruct (ws2 (code a) (code b)) eqn:E2; cbn [take ws_len]; now rewrite ?E, ?E2.
  - destruct (ws1 (code a)) eqn:E; cbn [take ws_len]; rewrite ?E; [reflexivity|].
    destruct (ws2 (code a) (code b)) eqn:E2; cbn [take ws_len]; rewrite ?E, ?E2; [reflexivity|].
    destruct (ws3 (code a) (code b) (code c)) eqn:E3; cbn [take ws_len]; now rewrite ?E, ?E2, ?E3.
Qed.

Lemma bytes_cons (c : ascii) (s : string) : bytes (String c s) = String c "" :: bytes s.
Proof. reflexivity. Qed.

Lemma bytes_app (a b : string) : bytes (a ++ b) = (bytes a ++ bytes b)%list.
Proof. induction a as [|c a IH]; cbn [append]; [reflexivity|]. rewrite !bytes_cons, IH. reflexivity. Qed.

Lemma bytes_split (x y : list string) :
  forall s, bytes s = (x ++ y)%list -> exists l r, s = l ++ r /\ bytes l = x /\ bytes r = y.
Proof.
  induction x as [|c x IH]; intros s E.
  - exists "", s. now repeat split.
  - destruct s as [|d s]; [discriminate E|].
    rewrite bytes_cons in E. cbn [app] in E. injection E as <- E.
    destruct (IH s E) as (l & r & -> & <- & <-).
    exists (String d l), r. now repeat split.
Qed.

Lemma bytes_nil (s : string) : bytes s = [] -> s = "".
Proof. destruct s; [reflexivity | discriminate]. Qed.

(** A text whose characters are none of them white space holds no white
    space, and conversely. *)
Lemma characters_no_space (s : string) :
  forallb (fun c => negb (is_space c)) (characters 0 s) = true -> has_ws s = false.
Proof.
  induction s as [|c s IH]; cbn [characters has_ws]; [reflexivity|].
  destruct (ws_len (String c s)) as [|k] eqn:E; cbn [forallb].
  - intros H. apply andb_true_iff in H as [_ H]. now rewrite (IH H).
  - intros H. apply andb_true_iff in H as [H _].
    rewrite <- E, take_ws_len in H. unfold is_space in H. rewrite E in H. discriminate H.
Qed.

Lemma ws_len_ws1 (c : ascii) (s : string) : ws_len (String c s) = 0%nat -> ws1 (code c) = false.
Proof. cbn [ws_len]. destruct (ws1 (code c)); [discriminate | reflexivity]. Qed.

Lemma has_ws_bytes (s : string) :
  has_ws s = false -> forallb (fun c => negb (is_space c)) (bytes s) = true.
Proof.
  induction s as [|c s IH]; cbn [has_ws]; [reflexivity|].
  intros H. apply orb_false_iff in H as [H1 H2]. apply Nat.ltb_ge in H1.
  rewrite bytes_cons. cbn [forallb]. rewrite (IH H2), andb_true_r.
  unfold is_space. cbn [ws_len]. rewrite (ws_len_ws1 c s) by lia. reflexivity.
Qed.

Lemma has_ws_app_r (u w : string) : has_ws w = true -> has_ws (u ++ w) = true.
Proof.
  intros H. induction u as [|c u IH]; cbn [append has_ws]; [exact H|].
  rewrite IH. apply orb_true_r.
Qed.

(** *** Texts without white space are trimmed *)

Lemma rev_cons (c : ascii) (s : string) : rev (String c s) = rev s ++ String c "".
Proof. unfold rev at 1. cbn [rev_append]. apply rev_append_app. Qed.

Lemma ws_len_nonempty (w : string) : (0 < ws_len w)%nat -> has_ws w = true.
Proof.
  destruct w as [|c w]; cbn [ws_len has_ws]; [lia|].
  intros H. apply Nat.ltb_lt in H. cbn [ws_len] in H. now rewrite H.
Qed.

(** A reversed text that starts with white space read backwards starts with
    a white-space character reversed. *)
Lemma ws_len_rev_starts (r : string) :
  (0 < ws_len_rev r)%nat -> exists w r', r = rev w ++ r' /\ (0 < ws_len w)%nat.
Proof.
  destruct r as [|c r]; cbn [ws_len_rev]; [lia|].
  destruct (ws1 (code c)) eqn:E1.
  { intros _. exists (String c ""), r. split; [reflexivity|]. cbn [ws_len]. rewrite E1. lia. }
  destruct r as [|b r]; [lia|].
  destruct (ws2 (code b) (code c)) eqn:E2.
  { intros _. exists (String b (String c "")), r. split; [reflexivity|]. cbn [ws_len].
    rewrite E2. destruct (ws1 (code b)); lia. }
  destruct r as [|a r]; [lia|].
  destruct (ws3 (code a) (code b) (code c)) eqn:E3; [|lia].
  intros _. exists (String a (String b (String c ""))), r. split; [reflexivity|]. cbn [ws_len].
  rewrite E3. destruct (ws1 (code a)); [lia|]. destruct (ws2 (code a) (code b)); lia.
Qed.

Lemma ws_len_rev_has_ws (s : string) : has_ws s = false -> ws_len_rev (rev s) = 0%nat.
Proof.
  intros H. destruct (ws_len_rev (rev s)) as [|k] eqn:E; [reflexivity|]. exfalso.
  destruct (ws_len_rev_starts (rev s)) as (w & r' & Er & Hw); [lia|].
  assert (Es : s = rev r' ++ w).
  { rewrite <- (rev_involutive s), Er, rev_app, rev_involutive. reflexivity. }
  rewrite Es, (has_ws_app_r _ _ (ws_len_nonempty w Hw)) in H. discriminate H.
Qed.

Lemma has_ws_ws_len (s : string) : has_ws s = false -> ws_len s = 0%nat.
Proof.
  destruct s as [|c s]; [reflexivity|]. cbn [has_ws]. intros H.
  apply orb_false_iff in H as [H _]. apply Nat.ltb_ge in H. lia.
Qed.

(** [trim] leaves a text without white space as it is. *)
Lemma has_ws_trim (s : string) : has_ws s = false -> trim s = s.
Proof.
  intros H. unfold trim, trimStart. rewrite drop_ws_id by now apply has_ws_ws_len.
  unfold trimEnd. rewrite drop_ws_id by now apply ws_len_rev_has_ws.
  apply rev_involutive.
Qed.

(** *** The address of electronic mail *)

Lemma free_byte (c : ascii) :
  free (String c "") = negb (ws1 (code c)) && negb (Ascii.eqb c "@").
Proof.
  unfold free. cbn [atom_matches existsb member_matches xorb]. unfold is_space. cbn [ws_len].
  rewrite orb_false_r. cbn [String.eqb].
  destruct (ws1 (code c)); cbn; [reflexivity|].
  destruct (Ascii.eqb c "@"); reflexivity.
Qed.

Lemma free_not_space (c : string) : free c = true -> negb (is_space c) = true.
Proof.
  unfold free. cbn [atom_matches existsb member_matches xorb].
  destruct (is_space c); [discriminate | reflexivity].
Qed.

Lemma free_bytes (l : string) :
  forallb free (bytes l) = true <->
  forallb (fun c => negb (is_space c)) (bytes l) = true /\ has_byte "@" l = false.
Proof.
  induction l as [|c l IH]; [cbn; tauto|].
  rewrite bytes_cons. cbn [forallb has_byte]. rewrite !andb_true_iff, orb_false_iff, IH, free_byte.
  unfold is_space. cbn [ws_len]. rewrite andb_true_iff.
  destruct (ws1 (code c)); cbn; destruct (Ascii.eqb c "@"); cbn; intuition congruence.
Qed.

Lemma forallb_weaken {A : Type} (f g : A -> bool) (l : list A) :
  (forall x, f x = true -> g x = true) -> forallb f l = true -> forallb g l = true.
Proof.
  intros H. induction l as [|x l IH]; cbn [forallb]; [auto|].
  intros E. apply andb_true_iff in E as [E1 E2]. now rewrite (H x E1), (IH E2).
Qed.

Lemma emailRegex_spec (cs : list string) :
  matches emailRegex cs = true <->
  exists a b c, cs = (a ++ ["@"] ++ b ++ ["."] ++ c)%list
    /\ a <> [] /\ b <> [] /\ c <> []
    /\ forallb free a = true /\ forallb free b = true /\ forallb free c = true.
Proof.
  unfold emailRegex. cbn [matches plus once atom least most]. fold free.
  rewrite plus_spec. split.
  - intros (a & r1 & -> & Ha & Fa & H).
    apply once_lit_spec in H as (r2 & -> & H).
    apply plus_spec in H as (b & r3 & -> & Hb & Fb & H).
    apply once_lit_spec in H as (r4 & -> & H).
    apply plus_spec in H as (c & r5 & -> & Hc & Fc & H).
    destruct r5; [|discriminate H]. rewrite app_nil_r.
    exists a, b, c. repeat split; auto.
  - intros (a & b & c & -> & Ha & Hb & Hc & Fa & Fb & Fc).
    exists a, (["@"] ++ b ++ ["."] ++ c)%list. repeat split; auto.
    apply once_lit_spec. exists (b ++ ["."] ++ c)%list. split; [reflexivity|].
    apply plus_spec. exists b, (["."] ++ c)%list. repeat split; auto.
    apply once_lit_spec. exists c. split; [reflexivity|].
    apply plus_spec. exists c, []. rewrite app_nil_r. repeat split; auto.
Qed.

Lemma bytes_nonempty (l : string) : bytes l <> [] <-> l <> "".
Proof. destruct l; cbn; split; congruence. Qed.

Lemma email_accepted_exactly_aux (s : string) :
  validateEmail s = true <->
  has_ws s = false
  /\ exists l d t, s = l ++ "@" ++ d ++ "." ++ t
       /\ l <> "" /\ d <> "" /\ t <> ""
       /\ has_byte "@" l = false /\ has_byte "@" d = false /\ has_byte "@" t = false.
Proof.
  unfold validateEmail, test. rewrite emailRegex_spec. split.
  - intros (a & b & c & E & Ha & Hb & Hc & Fa & Fb & Fc).
    assert (W : has_ws s = false).
    { apply characters_no_space. rewrite E, !forallb_app. cbn [forallb].
      rewrite !andb_true_iff. repeat split; try reflexivity;
        (eapply forallb_weaken; [|eassumption]); apply free_not_space. }
    split; [exact W|].
    rewrite (has_ws_characters s W) in E.
    apply bytes_split in E as (l & r1 & -> & <- & E).
    apply (bytes_split ["@"]) in E as (x1 & r2 & -> & E1 & E).
    apply bytes_split in E as (d & r3 & -> & <- & E).
    apply (bytes_split ["."]) in E as (x2 & t & -> & E2 & <-).
    destruct x1 as [|y1 [|? ?]]; try discriminate E1. injection E1 as ->.
    destruct x2 as [|y2 [|? ?]]; try discriminate E2. injection E2 as ->.
    exists l, d, t. rewrite bytes_nonempty in Ha, Hb, Hc.
    apply free_bytes in Fa as [_ Fa]. apply free_bytes in Fb as [_ Fb].
    apply free_bytes in Fc as [_ Fc]. repeat split; auto.
  - intros (W & l & d & t & -> & Hl & Hd & Ht & Fl & Fd & Ft).
    rewrite (has_ws_characters _ W). pose proof (has_ws_bytes _ W) as B.
    rewrite !bytes_app in *. rewrite !forallb_app in B.
    repeat (apply andb_true_iff in B as [?B B]).
    exists (bytes l), (bytes d), (bytes t).
    rewrite !bytes_nonempty, !free_bytes. repeat split; auto.
Qed.

(** [validateEmail] accepts exactly the texts without white space made of a
    part before an at sign, a part between it and a dot, and a part after the
    dot, the three of them non-empty and free of at signs. *)
Theorem email_accepted_exactly (s : string) :
  validateEmail s = true <->
  has_ws s = false
  /\ exists l d t, s = l ++ "@" ++ d ++ "." ++ t
       /\ l <> "" /\ d <> "" /\ t <> ""
       /\ has_byte "@" l = false /\ has_byte "@" d = false /\ has_byte "@" t = false.
Proof. exact (email_accepted_exactly_aux s). Qed.

Lemma email_examples :
  validateEmail "ada@example.org" = true
  /\ validateEmail "a@b.c.d" = true
  /\ validateEmail "ada@example" = false
  /\ validateEmail "ada@@example.org" = false
  /\ validateEmail " ada@example.org" = false
  /\ validateEmail "ada@example.org " = false
  /\ validateEmail "@example.org" = false
  /\ validateEmail "ada@.org" = false
  /\ validateEmail "undefined" = false
  /\ validateEmail "" = false.
Proof. repeat split; vm_compute; reflexivity. Qed.

(** *** The telephone number *)

Lemma phoneChar_atom (c : string) :
  atom_matches (Bracket false [ClassDigit; ClassSpace; Char "-"; Char "("; Char ")"]) c
  = phoneChar c.
Proof.
  unfold phoneChar. cbn [atom_matches existsb member_matches xorb].
  destruct (is_digit c), (is_space c), (String.eqb c "-"), (String.eqb c "("), (String.eqb c ")");
    reflexivity.
Qed.

Lemma phoneChar_plus : phoneChar "+" = false.
Proof. reflexivity. Qed.

(** [validatePhone] accepts exactly the texts that, after one optional plus
    sign, hold ten characters or more, each of them a digit, a white-space
    character, a hyphen or a parenthesis. *)
Theorem phone_accepted_exactly (s : string) :
  validatePhone s =
  (10 <=? List.length (afterPlus (characters 0 s)))%nat
  && forallb phoneChar (afterPlus (characters 0 s)).
Proof.
  unfold validatePhone, test. generalize (characters 0 s). intros cs.
  apply eq_iff_eq_true.
  unfold phoneRegex. cbn [matches optional at_least atom least most].
  rewrite quantified_spec, andb_true_iff, Nat.leb_le. split.
  - intros (pre & post & -> & _ & Hw & Fp & H).
    apply quantified_spec in H as (body & r & -> & Hlo & _ & Fb & H).
    destruct r; [|discriminate H]. rewrite app_nil_r.
    cbn [within] in Hw.
    assert (Fb' : forallb phoneChar body = true).
    { eapply forallb_weaken; [|exact Fb]. intros x E. now rewrite <- phoneChar_atom. }
    destruct pre as [|c [|c' pre]]; cbn [List.length] in Hw; [| |lia].
    + cbn [app]. destruct body as [|c body]; [cbn in Hlo; lia|].
      cbn [afterPlus]. destruct (String.eqb_spec c "+") as [->|_]; [|now split].
      cbn [forallb] in Fb'. rewrite phoneChar_plus in Fb'. discriminate Fb'.
    + cbn [forallb atom_matches existsb member_matches xorb] in Fp.
      rewrite orb_false_r, andb_true_r in Fp. cbn [app afterPlus]. rewrite Fp. now split.
  - intros [Hlen Fb]. destruct cs as [|c cs]; [cbn in Hlen; lia|].
    cbn [afterPlus] in Hlen, Fb. destruct (String.eqb c "+") eqn:E.
    + exists [c], cs. split; [reflexivity|]. split; [cbn; lia|]. split; [cbn; lia|].
      split; [cbn [forallb atom_matches existsb member_matches xorb]; now rewrite E|].
      apply quantified_spec. exists cs, []. rewrite app_nil_r.
      split; [reflexivity|]. split; [exact Hlen|]. split; [exact I|]. split; [|reflexivity].
      eapply forallb_weaken; [|exact Fb]. intros x Hx. now rewrite phoneChar_atom.
    + exists [], (c :: cs). split; [reflexivity|]. split; [cbn; lia|]. split; [cbn; lia|].
      split; [reflexivity|].
      apply quantified_spec. exists (c :: cs), []. rewrite app_nil_r.
      split; [reflexivity|]. split; [exact Hlen|]. split; [exact I|]. split; [|reflexivity].
      eapply forallb_weaken; [|exact Fb]. intros x Hx. now rewrite phoneChar_atom.
Qed.

Lemma phone_examples :
  validatePhone "+91 98765 43210" = true
  /\ validatePhone "(020) 7946-0958" = true
  /\ validatePhone "----------" = true
  /\ validatePhone "          " = true
  /\ validatePhone "123456789" = false
  /\ validatePhone "+123456789" = false
  /\ validatePhone "12345+67890" = false
  /\ validatePhone "1234567890x" = false
  /\ validatePhone "undefined" = false.
Proof. repeat split; vm_compute; reflexivity. Qed.

(** *** The contact form *)

Lemma truthy_length (s : string) : (String.length s =? 0)%nat = negb (truthy s).
Proof. destruct s; reflexivity. Qed.

Lemma trim_empty : trim "" = "".
Proof. reflexivity. Qed.

(** The loop accepts a field when the object has it and its text is not
    blank. *)
Lemma requiredFilled_spec (fields : list string) (data : FormObject) :
  requiredFilled fields data = true <->
  forall f, In f fields -> exists v, assoc f data = Some v /\ trim v <> "".
Proof.
  induction fields as [|field rest IH]; cbn [requiredFilled In]; [split; [intros _ f [] | reflexivity]|].
  unfold prop, falsy. destruct (assoc field data) as [v|] eqn:E; cbn [ToString].
  - rewrite truthy_length. destruct (truthy (trim v)) eqn:T.
    + assert (Tv : truthy v = true) by (destruct v; [discriminate T | reflexivity]).
      rewrite Tv. cbn [negb orb]. rewrite IH. split.
      * intros H f [<-|Hf]; [|now apply H]. exists v. split; [exact E|]. intros Z. now rewrite Z in T.
      * intros H f Hf. apply H. now right.
    + rewrite orb_true_r. split; [discriminate|]. intros H.
      destruct (H field (or_introl eq_refl)) as (v' & E' & N). rewrite E in E'. injection E' as <-.
      destruct (trim v); [congruence | discriminate T].
  - cbn [orb]. split; [discriminate|]. intros H.
    destruct (H field (or_introl eq_refl)) as (v' & E' & _). congruence.
Qed.

Lemma validateEmail_not_blank (e : string) : validateEmail e = true -> trim e <> "".
Proof.
  intros H. apply email_accepted_exactly_aux in H as (W & l & d & t & -> & Hl & _).
  rewrite (has_ws_trim _ W). destruct l; [congruence | discriminate].
Qed.

(** [validateContactForm] accepts exactly the objects that hold a name, a
    subject and a message that are not blank, an address [validateEmail]
    accepts, and a telephone number that [validatePhone] accepts and that is
    not blank.  The test for a blank address adds nothing to
    [validateEmail]; the one for a blank number does, ten spaces being a
    number to [validatePhone]. *)
Theorem contact_form_accepted_exactly (data : FormObject) :
  validateContactForm data = true <->
  (forall f, In f ["name"; "subject"; "message"] ->
     exists v, assoc f data = Some v /\ trim v <> "")
  /\ (exists e, assoc "email" data = Some e /\ validateEmail e = true)
  /\ (exists ph, assoc "phone" data = Some ph /\ validatePhone ph = true /\ trim ph <> "").
Proof.
  unfold validateContactForm.
  destruct (requiredFilled required data) eqn:R.
  - pose proof (proj1 (requiredFilled_spec _ _) R) as R1. clear R. rename R1 into R. unfold required in R.
    destruct (R "email") as (e & Ee & Ne); [cbn; tauto|].
    destruct (R "phone") as (ph & Ep & Np); [cbn; tauto|].
    unfold prop. rewrite Ee, Ep. cbn [ToString]. rewrite andb_true_iff. split.
    + intros [He Hp]. split; [|split].
      * intros f Hf. apply R. cbn in *. tauto.
      * now exists e.
      * now exists ph.
    + intros (_ & (e' & Ee' & He) & (ph' & Ep' & Hp & _)).
      injection Ee' as <-. injection Ep' as <-. now split.
  - split; [discriminate|]. intros (H1 & (e & Ee & He) & (ph & Ep & Hp & Np)).
    assert (R' : requiredFilled required data = true).
    { apply requiredFilled_spec. unfold required. intros f Hf. cbn [In] in Hf.
      destruct Hf as [<-|[<-|[<-|[<-|[<-|[]]]]]].
      - apply H1. cbn; tauto.
      - exists e. split; [exact Ee | now apply validateEmail_not_blank].
      - now exists ph.
      - apply H1. cbn; tauto.
      - apply H1. cbn; tauto. }
    congruence.
Qed.

Lemma contact_form_examples :
  let filled := [("name", "Ada"); ("email", "ada@example.org"); ("phone", "+44 20 7946 0958");
                 ("subject", "Engine"); ("message", "Notes")] in
  validateContactForm filled = true
  /\ validateContactForm (("phone", "          ") :: filled) = false
  /\ validatePhone "          " = true
  /\ validateContactForm (("phone", "----------") :: filled) = true
  /\ validateContactForm (("message", "  ") :: filled) = false
  /\ validateContactForm (tl filled) = false.
Proof. repeat split; vm_compute; reflexivity. Qed.

End FormFacts.

(** ** More about the wizard *)

Module BuilderFacts.
Import JS Generator Wizard Text Session Invariants Samples SamplePages Plain Displays.
Import TextFacts GeneratorFacts WizardFacts FormFacts.

(** *** The name of the downloaded file *)

Lemma ws2_ascii (a b : N) : (b < 128)%N -> ws2 a b = false.
Proof.
  intros H. unfold ws2. destruct (N.eqb_spec b 160); [lia | apply andb_false_r].
Qed.

Lemma ws3_ascii_2 (a b c : N) : (b < 128)%N -> ws3 a b c = false.
Proof.
  intros H. unfold ws3.
  destruct (N.eqb_spec b 154); [lia|]. destruct (N.eqb_spec b 128); [lia|].
  destruct (N.eqb_spec b 129); [lia|]. destruct (N.eqb_spec b 187); [lia|].
  rewrite !andb_false_r. reflexivity.
Qed.

Lemma ws3_ascii_3 (a b c : N) : (c < 128)%N -> ws3 a b c = false.
Proof.
  intros H. unfold ws3.
  destruct (N.eqb_spec c 128); [lia|]. destruct (N.leb_spec 128 c); [lia|].
  destruct (N.eqb_spec c 168); [lia|]. destruct (N.eqb_spec c 169); [lia|].
  destruct (N.eqb_spec c 175); [lia|]. destruct (N.eqb_spec c 159); [lia|].
  destruct (N.eqb_spec c 191); [lia|].
  cbn [andb orb]. rewrite !andb_false_r. reflexivity.
Qed.

(** A byte of ASCII that is not white space starts no white-space
    character, and ends none. *)
Lemma ws_len_ascii (c : ascii) (s : string) :
  (code c < 128)%N -> ws1 (code c) = false -> ws_len (String c s) = 0%nat.
Proof.
  intros H H1. cbn [ws_len]. rewrite H1.
  destruct s as [|b [|d s]]; [reflexivity | |].
  - unfold ws2. destruct (N.eqb_spec (code c) 194); [lia | reflexivity].
  - unfold ws2, ws3. destruct (N.eqb_spec (code c) 194); [lia|].
    destruct (N.eqb_spec (code c) 225); [lia|]. destruct (N.eqb_spec (code c) 226); [lia|].
    destruct (N.eqb_spec (code c) 227); [lia|]. destruct (N.eqb_spec (code c) 239); [lia|].
    reflexivity.
Qed.

Lemma ws_len_before_ascii (x : string) (y : ascii) (w : string) :
  (code y < 128)%N -> ws_len x = 0%nat -> x <> "" -> ws_len (x ++ String y w) = 0%nat.
Proof.
  intros Hy H Hx. destruct x as [|a [|b [|c x]]]; [congruence | | |]; cbn [append ws_len] in *.
  - destruct (ws1 (code a)); [discriminate H|].
    rewrite (ws2_ascii _ _ Hy). destruct w; [reflexivity|]. now rewrite (ws3_ascii_2 _ _ _ Hy).
  - destruct (ws1 (code a)); [discriminate H|].
    destruct (ws2 (code a) (code b)); [discriminate H|]. now rewrite (ws3_ascii_3 _ _ _ Hy).
  - exact H.
Qed.

Lemma has_ws_app_ascii (x : string) (y : ascii) (w : string) :
  (code y < 128)%N -> has_ws x = false -> has_ws (String y w) = false ->
  has_ws (x ++ String y w) = false.
Proof.
  intros Hy Hx Hw. induction x as [|a x IH]; [exact Hw|].
  cbn [has_ws] in Hx. apply orb_false_iff in Hx as [H1 H2].
  change (String a x ++ String y w) with (String a (x ++ String y w)).
  cbn [has_ws]. rewrite (IH H2), orb_false_r.
  change (String a (x ++ String y w)) with (String a x ++ String y w).
  apply Nat.ltb_ge. rewrite ws_len_before_ascii; [lia | exact Hy | | discriminate].
  apply Nat.ltb_ge in H1. lia.
Qed.

(** What replaces a run of white space starts no white-space character. *)
Lemma ws_len_underscore (s : string) : ws_len (String "_" s) = 0%nat.
Proof. apply ws_len_ascii; [cbn; lia | reflexivity]. Qed.

Lemma replace_head_clean (c : ascii) (s : string) :
  ws_len (String c s) = 0%nat -> ws_len (String c (replace_ws_runs "_" 0 false s)) = 0%nat.
Proof.
  intros H. pose proof (ws_len_ws1 c s H) as H1.
  destruct s as [|d s]; cbn [replace_ws_runs]; [cbn [ws_len]; now rewrite H1|].
  destruct (ws_len (String d s)) as [|k] eqn:E.
  - cbn [ws_len] in H |- *. rewrite H1 in *.
    destruct (ws2 (code c) (code d)); [discriminate H|].
    destruct s as [|e s]; cbn [replace_ws_runs]; [reflexivity|].
    destruct (ws_len (String e s)) as [|k'].
    + exact H.
    + cbn [append]. rewrite ws3_ascii_3; [reflexivity | cbn; lia].
  - cbn [append]. cbn [ws_len]. rewrite H1.
    rewrite ws2_ascii by (cbn; lia).
    destruct (replace_ws_runs "_" k true s); [reflexivity|].
    rewrite ws3_ascii_2; [reflexivity | cbn; lia].
Qed.

Lemma replace_ws_runs_clean (s : string) :
  forall skip in_run, has_ws (replace_ws_runs "_" skip in_run s) = false.
Proof.
  induction s as [|c s IH]; intros skip in_run; cbn [replace_ws_runs]; [reflexivity|].
  destruct skip as [|k]; [|apply IH].
  destruct (ws_len (String c s)) as [|k] eqn:E.
  - cbn [has_ws]. rewrite IH, orb_false_r. apply Nat.ltb_ge.
    rewrite replace_head_clean by exact E. lia.
  - destruct in_run; [apply IH|]. cbn [append has_ws].
    rewrite IH, orb_false_r, ws_len_underscore. reflexivity.
Qed.

(** The name under which the document is offered for download holds no
    white-space character, whatever the full name typed. *)
Theorem download_name_has_no_space (data : FormData) :
  has_ws (downloadName data) = false.
Proof.
  unfold downloadName. apply has_ws_app_ascii; [cbn; lia | apply replace_ws_runs_clean | reflexivity].
Qed.

(** *** What is downloaded *)

Lemma runCallback_env (cb : Callback) (p : Page) :
  let q := page_after (runCallback cb p) in
  timers (env q) = timers (env p) /\ confirmAnswer (env q) = confirmAnswer (env p)
  /\ previews (env q) = previews (env p)
  /\ downloads (env q) = (downloads (env p) ++ offered (confirmAnswer (env p)) cb)%list.
Proof.
  cbv zeta. destruct cb as [h nm|].
  - cbn [runCallback offered]. cbv zeta. unfold bind, get.
    destruct (confirmAnswer (env p)) eqn:C;
      cbn [page_after ret modify env set_env with_downloads timers confirmAnswer previews downloads];
      rewrite ?app_nil_r, ?C; repeat split.
  - cbn [offered]. rewrite app_nil_r.
    assert (K : stable (fun q => timers (env q) = timers (env p)
                                 /\ confirmAnswer (env q) = confirmAnswer (env p)
                                 /\ previews (env q) = previews (env p)
                                 /\ downloads (env q) = downloads (env p))
                  (runCallback ResetForm)).
    { cbn [runCallback]. unfold showPortfolioStep. repeat stable_step; intros q Hq; exact Hq. }
    apply K. repeat split.
Qed.

(** Firing the first [n] timers pending adds what their closures offer, in
    the order they fire, and nothing else. *)
Lemma fireTimers_downloads (n : nat) (p : Page) :
  let q := fireTimers n p in
  downloads (env q) =
    (downloads (env p)
     ++ flat_map (offered (confirmAnswer (env p))) (firstn n (map snd (timers (env p)))))%list
  /\ previews (env q) = previews (env p).
Proof.
  cbv zeta. revert p; induction n as [|n IH]; intros p; cbn [fireTimers firstn flat_map].
  - now rewrite app_nil_r.
  - destruct (timers (env p)) as [|[due cb] rest] eqn:E; cbn [map snd firstn flat_map].
    + now rewrite app_nil_r.
    + rewrite (fireTimer_cons p due cb rest E).
      set (p1 := set_env _ p).
      destruct (runCallback_env cb p1) as (T & C & P & D).
      specialize (IH (page_after (runCallback cb p1))). destruct IH as [IH1 IH2].
      rewrite IH1, IH2, T, C, P, D. cbn. rewrite <- app_assoc. split; reflexivity.
Qed.

(** The timers a call of [generatePortfolioHTML] leaves pending on a page
    that had none. *)
Lemma generatePortfolioHTML_timers (d : FormData) (p : Page) :
  timers (env p) = [] ->
  let q := page_after (generatePortfolioHTML d p) in
  map snd (timers (env q)) =
    ((if popupsBlocked (env p) then [] else [DownloadPrompt (portfolioHTML d) (fullName d)])
     ++ (if has "portfolioModalOverlay" p then [ResetForm] else []))%list
  /\ confirmAnswer (env q) = confirmAnswer (env p)
  /\ downloads (env q) = downloads (env p).
Proof.
  intros T. cbv zeta.
  assert (Close : forall p1, elements (dom p1) = elements (dom p) ->
    let q := page_after ((closePortfolioModal;; setTimeout ResetForm 1000) p1) in
    timers (env q) =
      (if has "portfolioModalOverlay" p
       then insert_timer ((now (env p1) + 1000)%Z, ResetForm) (timers (env p1))
       else timers (env p1))
    /\ confirmAnswer (env q) = confirmAnswer (env p1)
    /\ downloads (env q) = downloads (env p1)).
  { intros p1 E1.
    assert (Hh : has "portfolioModalOverlay" p1 = has "portfolioModalOverlay" p)
      by (unfold has, lookup; now rewrite E1).
    destruct (has "portfolioModalOverlay" p) eqn:H.
    - assert (E : (closePortfolioModal;; setTimeout ResetForm 1000) p1 =
                  setTimeout ResetForm 1000
                    (set_dom (with_bodyOverflow "auto"
                                (dom (write "portfolioModalOverlay" (classList_remove "active") p1)))
                       (write "portfolioModalOverlay" (classList_remove "active") p1))).
      { unfold closePortfolioModal. unfold bind at 1. unfold bind at 1.
        now rewrite setElementById_ok by exact Hh. }
      rewrite E. cbn. repeat split.
    - assert (E : (closePortfolioModal;; setTimeout ResetForm 1000) p1 = Thrown p1).
      { unfold closePortfolioModal, setElementById, bind, getElementById.
        unfold has, lookup in Hh.
        now destruct (assoc "portfolioModalOverlay" (elements (dom p1))). }
      rewrite E. cbn. repeat split. }
  set (pw := set_env (with_previews (previews (env p) ++ [portfolioHTML d])%list (env p)) p).
  set (p1 := set_env (with_timers
                (insert_timer ((now (env pw) + 500)%Z, DownloadPrompt (portfolioHTML d) (fullName d))
                   (timers (env pw))) (env pw)) pw).
  assert (E : generatePortfolioHTML d p =
              (closePortfolioModal;; setTimeout ResetForm 1000)
                (if popupsBlocked (env p) then p else p1)).
  { unfold generatePortfolioHTML. cbv zeta. unfold bind at 1. unfold openPreview, bind, get.
    destruct (popupsBlocked (env p)); reflexivity. }
  rewrite E. destruct (popupsBlocked (env p)).
  - destruct (Close p eq_refl) as (Ht & Hc & Hd).
    rewrite Ht, T. split; [|now split]. destruct (has "portfolioModalOverlay" p); reflexivity.
  - destruct (Close p1 eq_refl) as (Ht & Hc & Hd).
    rewrite Ht, Hc, Hd. split; [|split; reflexivity].
    unfold p1, pw. cbn [env set_env with_timers timers with_previews now]. rewrite T.
    cbn [insert_timer].
    destruct (has "portfolioModalOverlay" p); [|reflexivity].
    cbn [insert_timer fst].
    destruct (Z.ltb_spec (now (env p) + 1000) (now (env p) + 500)); [lia | reflexivity].
Qed.

(** Once the timers a call of [generatePortfolioHTML] left have fired, the
    document has been offered for download exactly when the preview window was
    opened and the user confirmed; what was offered is, byte for byte, the
    document written to the preview, under the name made from the full name;
    nothing else was written or offered. *)
Theorem download_is_the_preview (d : FormData) (p : Page) :
  timers (env p) = [] ->
  let q := generation_completed d p in
  previews (env q) =
    (previews (env p) ++ (if popupsBlocked (env p) then [] else [portfolioHTML d]))%list
  /\ downloads (env q) =
    (downloads (env p)
     ++ (if negb (popupsBlocked (env p)) && confirmAnswer (env p)
         then [(downloadName d, portfolioHTML d)] else []))%list.
Proof.
  intros T. cbv zeta. unfold generation_completed. cbv zeta.
  destruct (generatePortfolioHTML_timers d p T) as (Ht & Hc & Hd).
  destruct (fireTimers_downloads
              (List.length (timers (env (page_after (generatePortfolioHTML d p)))))
              (page_after (generatePortfolioHTML d p))) as [D P].
  rewrite P, D, Hc, Hd, generatePortfolioHTML_previews. split; [reflexivity|]. f_equal.
  rewrite <- (length_map snd), firstn_all, Ht.
  destruct (popupsBlocked (env p)), (has "portfolioModalOverlay" p), (confirmAnswer (env p));
    reflexivity.
Qed.

Lemma download_is_the_preview_witness :
  downloads (env (generation_completed greenData listsPage))
  = [(downloadName greenData, portfolioHTML greenData)]
  /\ previews (env (generation_completed greenData listsPage)) = [portfolioHTML greenData]
  /\ downloads (env (generation_completed greenData decliningPage)) = []
  /\ downloads (env (generation_completed greenData blockedPage)) = [].
Proof.
  pose proof (download_is_the_preview greenData listsPage eq_refl) as [P1 D1].
  pose proof (download_is_the_preview greenData decliningPage eq_refl) as [_ D2].
  pose proof (download_is_the_preview greenData blockedPage eq_refl) as [_ D3].
  split; [exact D1|]. split; [exact P1|]. split; [exact D2 | exact D3].
Defined.

(** *** The step on show *)

Lemma active_deactivated (l : list StepSection) : filter ss_active (map deactivate l) = [].
Proof. induction l as [|x l IH]; [reflexivity | exact IH]. Qed.

Lemma active_activate (s : Z) (l : list StepSection) :
  existsb (fun z => (z =? s)%Z) (map data_step l) = true ->
  map data_step (filter ss_active (activate s (map deactivate l))) = [s].
Proof.
  induction l as [|x l IH]; cbn [map existsb activate deactivate data_step]; [discriminate|].
  destruct (Z.eqb_spec (data_step x) s) as [E|N]; cbn [orb].
  - intros _. cbn [filter ss_active map data_step]. now rewrite active_deactivated, E.
  - intros H. cbn [filter ss_active]. fold (deactivate x). now apply IH.
Qed.

Lemma widthOf_write (k id : string) (f : Element -> Element) (p : Page) :
  (forall e, el_width (f e) = el_width e) ->
  widthOf k (write id f p) = widthOf k p.
Proof.
  intros Hf. unfold widthOf. rewrite lookup_write.
  destruct (String.eqb k id); [|reflexivity].
  destruct (lookup k p); cbn; [now rewrite Hf | reflexivity].
Qed.

(** On a page that has what [page_ok] asks for, [showPortfolioStep] leaves
    one section active, that of the step, the progress bar at the width of
    the step, and the Create button displayed on the last step only. *)
Lemma showPortfolioStep_shows (s : Z) (p : Page) :
  page_ok p = true -> In s stepNumbers ->
  exists q, showPortfolioStep s p = Returned tt q
    /\ vars q = vars p
    /\ activeSteps q = [s]
    /\ widthOf "portfolioProgressFill" q = Some (progressWidth s)
    /\ displayed "portfolioCreateBtn" q = (s =? portfolioTotalSteps)%Z.
Proof.
  intros Hok Hs.
  destruct (page_ok_has p Hok) as (E1 & E2 & E3 & E4).
  unfold showPortfolioStep.
  set (p1 := set_dom (with_stepSections (map deactivate (stepSections (dom p))) (dom p)) p).
  rewrite (bind_returned _ _ p p1 tt) by reflexivity.
  rewrite (bind_returned _ _ p1 p1 p1) by reflexivity.
  assert (H0 : has_step s p = true) by now apply page_ok_has_step.
  assert (H1 : has_step s p1 = true).
  { assert (E : steps_of p1 = steps_of p) by apply steps_deactivate.
    now rewrite has_step_existsb, E, <- has_step_existsb. }
  unfold has_step in H1. destruct (querySelectorStep s (dom p1)) as [sec|]; [clear H1|discriminate].
  set (p2 := set_dom (with_stepSections (activate s (stepSections (dom p1))) (dom p1)) p1).
  rewrite (bind_returned _ _ p1 p2 tt) by reflexivity.
  assert (HK : forall id, has id p2 = has id p) by reflexivity.
  erewrite bind_returned by (apply setElementById_ok; now rewrite HK).
  erewrite bind_returned by (apply setElementById_ok; now rewrite !has_write, HK).
  erewrite bind_returned by (apply setElementById_ok; now rewrite !has_write, HK).
  rewrite setElementById_ok by (now rewrite !has_write, HK).
  eexists. split; [reflexivity|]. split; [reflexivity|]. split; [|split].
  - unfold activeSteps. cbn [write dom set_dom with_elements stepSections].
    unfold p2, p1. cbn [dom set_dom with_stepSections stepSections].
    apply active_activate. rewrite has_step_existsb in H0. exact H0.
  - rewrite !widthOf_write by reflexivity.
    unfold widthOf. rewrite lookup_write. cbn [String.eqb Ascii.eqb Bool.eqb].
    change (lookup "portfolioProgressFill" p2) with (lookup "portfolioProgressFill" p).
    unfold has in E1. destruct (lookup "portfolioProgressFill" p); [reflexivity | discriminate].
  - unfold displayed. rewrite !lookup_write. cbn [String.eqb Ascii.eqb Bool.eqb].
    change (lookup "portfolioCreateBtn" p2) with (lookup "portfolioCreateBtn" p).
    unfold has in E4. destruct (lookup "portfolioCreateBtn" p); [|discriminate].
    cbn [option_map with_display el_display].
    destruct (s =? portfolioTotalSteps)%Z; reflexivity.
Qed.

Ltac keeps_field :=
  let e := fresh "e" in
  intros e; unfold classList_add, classList_remove; try destruct (mem _ _); reflexivity.

Ltac shows_leaf :=
  let p := fresh "p" in let H1 := fresh in let H2 := fresh in let H3 := fresh in let H4 := fresh in
  intros p (H1 & H2 & H3 & H4);
  repeat split;
  try (change (set_dom (with_elements (update ?id ?f (elements (dom p))) (dom p)) p)
         with (write id f p));
  rewrite ?displayed_write by keeps_field;
  rewrite ?widthOf_write by keeps_field;
  first [ assumption | exact H1 | exact H2 | exact H3 | exact H4 ].

Section Shows.
Variables (n : Z) (a : list Z) (w : option string) (c : bool).

Lemma shows_checkRequired (inputs : list string) : stable (shows n a w c) (checkRequired inputs).
Proof.
  induction inputs as [|h rest IH]; cbn [checkRequired]; [apply stable_ret|].
  repeat stable_step; try shows_leaf. exact IH.
Qed.

Lemma shows_validatePortfolioStep (s : Z) : stable (shows n a w c) (validatePortfolioStep s).
Proof.
  unfold validatePortfolioStep.
  repeat first [ apply shows_checkRequired | stable_step ]; shows_leaf.
Qed.

Lemma shows_react (ev : Event) :
  ev <> ClickNext -> ev <> ClickPrevious -> ev <> TimerFires ->
  stable (shows n a w c) (react ev).
Proof.
  intros N1 N2 N3.
  destruct ev; try congruence; cbn [react];
    unfold createPortfolioFromBuilder,
      addPortfolioSkill, removePortfolioSkill, addPortfolioCertificate, removePortfolioCert,
      addPortfolioWork, removePortfolioWork, selectPortfolioDomain, selectPortfolioTheme,
      addPortfolioProjectField, closePortfolioModalOnOverlay, readerOnload; cbv zeta;
    repeat stable_step; shows_leaf.
Qed.

Lemma shows_download (html_ name : string) :
  stable (shows n a w c) (runCallback (DownloadPrompt html_ name)).
Proof. cbn [runCallback]; cbv zeta. repeat stable_step; shows_leaf. Qed.

Lemma shows_reset_tail :
  stable (shows n a w c)
    (setElementById "portfolioProjectsContainer" (with_innerHTML initialProjectCard);;
     setElementById "portfolioCertsList" (with_innerHTML "");;
     setElementById "portfolioSkillsList" (with_innerHTML "");;
     setElementById "portfolioWorkList" (with_innerHTML "")).
Proof. repeat stable_step; shows_leaf. Qed.

End Shows.

Lemma on_show_show (p : Page) :
  page_ok p = true -> (1 <= portfolioCurrentStep (vars p) <= portfolioTotalSteps)%Z ->
  on_show (page_after (showPortfolioStep (portfolioCurrentStep (vars p)) p)).
Proof.
  intros Hok Hr.
  destruct (showPortfolioStep_shows (portfolioCurrentStep (vars p)) p Hok)
    as (q & E & Ev & Ha & Hw & Hc); [apply in_stepNumbers; unfold portfolioTotalSteps in Hr; lia|].
  rewrite E. cbn [page_after]. unfold on_show, shows. rewrite Ev. auto.
Qed.

Lemma on_show_kept (p q : Page) :
  on_show p ->
  shows (portfolioCurrentStep (vars p)) [portfolioCurrentStep (vars p)]
    (Some (progressWidth (portfolioCurrentStep (vars p))))
    (portfolioCurrentStep (vars p) =? portfolioTotalSteps)%Z q ->
  on_show q.
Proof. intros _ (H1 & H2 & H3 & H4). unfold on_show, shows. rewrite H1. auto. Qed.

Lemma on_show_next (p : Page) :
  Inv p -> on_show p -> displayed "portfolioNextBtn" p = true ->
  on_show (page_after (nextPortfolioStep p)).
Proof.
  intros HI HS Hn.
  pose proof (shows_validatePortfolioStep _ _ _ _ (portfolioCurrentStep (vars p)) p HS) as Hc.
  pose proof (page_ok_after (validatePortfolioStep (portfolioCurrentStep (vars p))) p
                (fun K S => frame_validatePortfolioStep K S _)) as Hokv.
  unfold nextPortfolioStep.
  rewrite (bind_returned _ _ p p p) by reflexivity.
  unfold bind at 1.
  destruct (validatePortfolioStep (portfolioCurrentStep (vars p)) p) as [[|] p1|p1];
    cbn [page_after] in Hc, Hokv;
    pose proof HI as (H1 & H2 & H3 & H4 & H5).
  - unfold bind at 1, modify_vars, modify. unfold bind at 1, get.
    set (p2 := set_vars _ p1).
    destruct Hc as (C1 & _).
    assert (Hs : portfolioCurrentStep (vars p2) = (portfolioCurrentStep (vars p) + 1)%Z)
      by (unfold p2; cbn; now rewrite C1).
    apply on_show_show.
    + change (page_ok p2) with (page_ok p1). congruence.
    + rewrite Hs. rewrite H4 in Hn. apply negb_true_iff, Z.eqb_neq in Hn. lia.
  - cbn [page_after ret]. now apply (on_show_kept p).
  - cbn [page_after]. now apply (on_show_kept p).
Qed.

Lemma on_show_previous (p : Page) :
  Inv p -> displayed "portfolioPrevBtn" p = true ->
  on_show (page_after (previousPortfolioStep p)).
Proof.
  intros (H1 & H2 & H3 & H4 & H5) Hp.
  unfold previousPortfolioStep.
  unfold bind at 1, modify_vars, modify. unfold bind at 1, get.
  set (p2 := set_vars _ p).
  assert (Hs : portfolioCurrentStep (vars p2) = (portfolioCurrentStep (vars p) - 1)%Z)
    by reflexivity.
  apply on_show_show.
  - exact H1.
  - rewrite Hs. rewrite H3 in Hp. apply negb_true_iff, Z.eqb_neq in Hp. lia.
Qed.

Lemma on_show_fireTimer (p : Page) :
  Inv p -> on_show p -> on_show (page_after (fireTimer p)).
Proof.
  intros HI HS. unfold fireTimer. unfold bind at 1, get.
  destruct (timers (env p)) as [|[due cb] rest]; [exact HS|].
  unfold bind at 1, modify.
  set (p1 := set_env _ p).
  assert (HS1 : on_show p1) by exact HS.
  destruct cb as [h nm|].
  - apply (on_show_kept p1 _ HS1). now apply shows_download.
  - cbn [runCallback].
    unfold bind at 1, getElementById.
    destruct (assoc "portfolioBuilderForm" (elements (dom p1))); [|exact HS1].
    unfold bind at 1, modify.
    set (p2 := set_dom _ p1).
    do 5 (unfold bind at 1, modify_vars, modify).
    set (p3 := set_vars _ _).
    assert (Hok : page_ok p3 = true).
    { rewrite (page_ok_frame p3 p); [apply HI | apply keys_reset | reflexivity]. }
    assert (H3 : on_show (page_after (showPortfolioStep 1 p3))).
    { apply (on_show_show p3 Hok). cbn. unfold portfolioTotalSteps. lia. }
    unfold bind at 1.
    destruct (showPortfolioStep 1 p3) as [[] q|q]; cbn [page_after] in H3; [|exact H3].
    apply (on_show_kept q _ H3). now apply shows_reset_tail.
Qed.

Lemma reachable_on_show (p : Page) : reachable p -> on_show p.
Proof.
  induction 1 as [p0 Hok Hv | p ev Hr IH He].
  - unfold onLoad.
    destruct (showPortfolioStep_shows 1 p0 Hok) as (q & E & Ev & Ha & Hw & Hc);
      [apply in_stepNumbers; lia|].
    rewrite E. cbn [page_after]. unfold on_show, shows. rewrite Ev, Hv. cbn. auto.
  - pose proof (reachable_Inv p Hr) as HI. unfold after.
    destruct ev eqn:E;
      try (apply (on_show_kept p _ IH); apply shows_react; [discriminate ..| exact IH]).
    + now apply on_show_next.
    + now apply on_show_previous.
    + now apply on_show_fireTimer.
Qed.

(** In every page of a session, the one section that carries the class
    [active] is the section of the current step, the progress bar has the
    width of the current step, and the Create button is displayed on the last
    step only. *)
Theorem current_step_on_show (p : Page) :
  reachable p ->
  activeSteps p = [portfolioCurrentStep (vars p)]
  /\ widthOf "portfolioProgressFill" p = Some (progressWidth (portfolioCurrentStep (vars p)))
  /\ displayed "portfolioCreateBtn" p = (portfolioCurrentStep (vars p) =? 8)%Z
  /\ displayed "portfolioNextBtn" p = negb (portfolioCurrentStep (vars p) =? 8)%Z
  /\ displayed "portfolioPrevBtn" p = negb (portfolioCurrentStep (vars p) =? 1)%Z.
Proof.
  intros H. destruct (reachable_on_show p H) as (_ & Ha & Hw & Hc).
  destruct (reachable_Inv p H) as (_ & _ & Hp & Hn & _).
  repeat split; assumption.
Qed.

Lemma current_step_on_show_witness :
  activeSteps lastStepPage = [8%Z]
  /\ widthOf "portfolioProgressFill" lastStepPage = Some "100%"
  /\ displayed "portfolioCreateBtn" lastStepPage = true
  /\ displayed "portfolioNextBtn" lastStepPage = false
  /\ widthOf "portfolioProgressFill" secondStepPage = Some "25%"
  /\ widthOf "portfolioProgressFill" loadedPage = Some "12.5%".
Proof.
  assert (H : reachable lastStepPage).
  { apply reachable_run; [exact reachable_loadedPage | vm_compute; reflexivity]. }
  destruct (current_step_on_show lastStepPage H) as (Ha & Hw & Hc & Hn & _).
  split; [exact Ha|]. split; [exact Hw|]. split; [exact Hc|]. split; [exact Hn|].
  split; vm_compute; reflexivity.
Defined.

(** *** The lists on show *)

Lemma innerHTMLOf_write_other (k id : string) (f : Element -> Element) (p : Page) :
  String.eqb k id = false -> innerHTMLOf k (write id f p) = innerHTMLOf k p.
Proof. intros H. unfold innerHTMLOf. now rewrite lookup_write, H. Qed.

Lemma innerHTMLOf_write_keep (k id : string) (f : Element -> Element) (p : Page) :
  (forall e, el_innerHTML (f e) = el_innerHTML e) ->
  innerHTMLOf k (write id f p) = innerHTMLOf k p.
Proof.
  intros Hf. unfold innerHTMLOf. rewrite lookup_write.
  destruct (String.eqb k id); [|reflexivity].
  destruct (lookup k p); cbn; [now rewrite Hf | reflexivity].
Qed.

Lemma innerHTMLOf_written (c X : string) (p : Page) :
  has c p = true -> innerHTMLOf c (write c (with_innerHTML X) p) = Some X.
Proof.
  unfold has, innerHTMLOf. rewrite lookup_write, String.eqb_refl.
  destruct (lookup c p); [reflexivity | discriminate].
Qed.

Lemma has_after {A : Type} (m : M A) (id : string) (p : Page) :
  (forall K S, stable (frame K S) m) -> has id (page_after (m p)) = has id p.
Proof.
  intros H. destruct (H (keys p) (steps_of p) p (conj eq_refl eq_refl)) as [HK _].
  now rewrite !has_existsb, HK.
Qed.

(** The markup written for each list is a function of the array. *)
Lemma renderPortfolioList_writes (c fn : string) :
  exists F : list string -> string,
    F [] = "" /\ forall l, renderPortfolioList c l fn = setElementById c (with_innerHTML (F l)).
Proof. eexists. split; [|intros l; unfold renderPortfolioList; cbv zeta; reflexivity]. reflexivity. Qed.

Lemma renderPortfolioCertsList_writes :
  exists G : list Certificate -> string,
    G [] = "" /\ renderPortfolioCertsList =
      (p <- get ;; setElementById "portfolioCertsList" (with_innerHTML (G (portfolioCertificates (vars p))))).
Proof.
  pose proof (eq_refl renderPortfolioCertsList) as E.
  unfold renderPortfolioCertsList at 2 in E. cbv zeta in E.
  match type of E with
  | context [@forEachIndexed Certificate ?b] => exists (fun l => forEachIndexed b 0 l "")
  end.
  split; [reflexivity | exact E].
Qed.

Lemma renderPortfolioWorkList_writes :
  exists H : list WorkEntry -> string,
    H [] = "" /\ renderPortfolioWorkList =
      (p <- get ;; setElementById "portfolioWorkList" (with_innerHTML (H (portfolioWorkExperience (vars p))))).
Proof.
  pose proof (eq_refl renderPortfolioWorkList) as E.
  unfold renderPortfolioWorkList at 2 in E. cbv zeta in E.
  match type of E with
  | context [@forEachIndexed WorkEntry ?b] => exists (fun l => forEachIndexed b 0 l "")
  end.
  split; [reflexivity | exact E].
Qed.

Lemma rendered_shown {A : Type} (c : string) (proj : Globals -> list A)
  (mk : list A -> string) (render : M unit) (p : Page) :
  render p = setElementById c (with_innerHTML (mk (proj (vars p)))) p ->
  rendered render c p <-> shown_list c proj mk p.
Proof.
  intros E. unfold rendered, shown_list. rewrite E. split; intros [Hh Hi]; (split; [exact Hh|]).
  - rewrite setElementById_ok in Hi by exact Hh. cbn [page_after] in Hi.
    now rewrite innerHTMLOf_written in Hi by exact Hh.
  - rewrite setElementById_ok by exact Hh. cbn [page_after].
    now rewrite innerHTMLOf_written by exact Hh.
Qed.

Ltac shown_leaf :=
  let p := fresh "p" in let H1 := fresh in let H2 := fresh in
  intros p [H1 H2]; split;
  try (change (set_dom (with_elements (update ?id ?f (elements (dom p))) (dom p)) p)
         with (write id f p));
  [ rewrite ?has_write; exact H1
  | first [ exact H2
          | rewrite innerHTMLOf_write_other by reflexivity; exact H2
          | rewrite innerHTMLOf_write_keep by keeps_field; exact H2 ] ].

Section Lists.
Variable F : list string -> string.
Variable G : list Certificate -> string.
Variable H : list WorkEntry -> string.
Hypothesis F_nil : F [] = "".
Hypothesis G_nil : G [] = "".
Hypothesis H_nil : H [] = "".
Hypothesis F_writes : forall l,
  renderPortfolioList "portfolioSkillsList" l "removePortfolioSkill"
  = setElementById "portfolioSkillsList" (with_innerHTML (F l)).
Hypothesis G_writes :
  renderPortfolioCertsList =
  (p <- get ;; setElementById "portfolioCertsList" (with_innerHTML (G (portfolioCertificates (vars p))))).
Hypothesis H_writes :
  renderPortfolioWorkList =
  (p <- get ;; setElementById "portfolioWorkList" (with_innerHTML (H (portfolioWorkExperience (vars p))))).

Local Abbreviation skillsShown := (shown_list "portfolioSkillsList" portfolioSkills F).
Local Abbreviation certsShown := (shown_list "portfolioCertsList" portfolioCertificates G).
Local Abbreviation workShown := (shown_list "portfolioWorkList" portfolioWorkExperience H).

(** Rendering after any change of the script variables shows the list. *)
Lemma skills_rerender (f : Globals -> Globals) :
  stable skillsShown
    (modify_vars f ;; p <- get ;;
     renderPortfolioList "portfolioSkillsList" (portfolioSkills (vars p)) "removePortfolioSkill").
Proof.
  intros p [Hh _]. unfold bind at 1, modify_vars, modify. unfold bind at 1, get.
  rewrite F_writes, setElementById_ok by exact Hh. cbn [page_after].
  split; [now rewrite has_write | now apply innerHTMLOf_written].
Qed.

Lemma skills_rerender_then {B : Type} (f : Globals -> Globals) (k : M B) :
  stable skillsShown k ->
  stable skillsShown
    (modify_vars f ;; p <- get ;;
     renderPortfolioList "portfolioSkillsList" (portfolioSkills (vars p)) "removePortfolioSkill" ;; k).
Proof.
  intros Hk p Hp. pose proof (skills_rerender f p Hp) as R.
  unfold bind at 1, modify_vars, modify. unfold bind at 1, get.
  unfold bind at 1, modify_vars, modify in R. unfold bind at 1, get in R.
  unfold bind at 1.
  destruct (renderPortfolioList _ _ _ _) as [[] q|q]; cbn [page_after] in R |- *;
    [now apply Hk | exact R].
Qed.

Lemma certs_rerender (f : Globals -> Globals) :
  stable certsShown (modify_vars f ;; renderPortfolioCertsList).
Proof.
  intros p [Hh _]. unfold bind at 1, modify_vars, modify. rewrite G_writes. unfold bind at 1, get.
  rewrite setElementById_ok by exact Hh. cbn [page_after].
  split; [now rewrite has_write | now apply innerHTMLOf_written].
Qed.

Lemma certs_rerender_then {B : Type} (f : Globals -> Globals) (k : M B) :
  stable certsShown k -> stable certsShown (modify_vars f ;; renderPortfolioCertsList ;; k).
Proof.
  intros Hk p Hp. pose proof (certs_rerender f p Hp) as R.
  unfold bind at 1, modify_vars, modify. unfold bind at 1, modify_vars, modify in R.
  unfold bind at 1.
  destruct (renderPortfolioCertsList _) as [[] q|q]; cbn [page_after] in R |- *;
    [now apply Hk | exact R].
Qed.

Lemma work_rerender (f : Globals -> Globals) :
  stable workShown (modify_vars f ;; renderPortfolioWorkList).
Proof.
  intros p [Hh _]. unfold bind at 1, modify_vars, modify. rewrite H_writes. unfold bind at 1, get.
  rewrite setElementById_ok by exact Hh. cbn [page_after].
  split; [now rewrite has_write | now apply innerHTMLOf_written].
Qed.

Lemma work_rerender_then {B : Type} (f : Globals -> Globals) (k : M B) :
  stable workShown k -> stable workShown (modify_vars f ;; renderPortfolioWorkList ;; k).
Proof.
  intros Hk p Hp. pose proof (work_rerender f p Hp) as R.
  unfold bind at 1, modify_vars, modify. unfold bind at 1, modify_vars, modify in R.
  unfold bind at 1.
  destruct (renderPortfolioWorkList _) as [[] q|q]; cbn [page_after] in R |- *;
    [now apply Hk | exact R].
Qed.

Ltac unfold_react :=
  unfold nextPortfolioStep, previousPortfolioStep, createPortfolioFromBuilder,
    addPortfolioSkill, removePortfolioSkill, addPortfolioCertificate, removePortfolioCert,
    addPortfolioWork, removePortfolioWork, selectPortfolioDomain, selectPortfolioTheme,
    addPortfolioProjectField, closePortfolioModalOnOverlay, readerOnload, pushCertificate,
    validatePortfolioStep, showPortfolioStep; cbv zeta.

Lemma shown_checkRequired {A : Type} (c : string) (proj : Globals -> list A)
  (mk : list A -> string) (inputs : list string) :
  stable (shown_list c proj mk) (checkRequired inputs).
Proof.
  induction inputs as [|h rest IH]; cbn [checkRequired]; [apply stable_ret|].
  repeat stable_step; try shown_leaf. exact IH.
Qed.

Ltac lists_step :=
  lazymatch goal with
  | |- stable skillsShown (bind (modify_vars (fun g => with_skills (@?v g) g)) _) =>
      first [ apply skills_rerender_then | apply skills_rerender ]
  | |- stable certsShown (bind (modify_vars (fun g => with_certificates (@?v g) g)) _) =>
      first [ apply certs_rerender_then | apply certs_rerender ]
  | |- stable workShown (bind (modify_vars (fun g => with_work (@?v g) g)) _) =>
      first [ apply work_rerender_then | apply work_rerender ]
  | |- stable _ (checkRequired _) => apply shown_checkRequired
  | _ => stable_step
  end.

Lemma skills_list_react (ev : Event) : ev <> TimerFires -> stable skillsShown (react ev).
Proof.
  intros N. destruct ev; try congruence; cbn [react]; unfold_react;
    repeat lists_step; shown_leaf.
Qed.

Lemma certs_list_react (ev : Event) : ev <> TimerFires -> stable certsShown (react ev).
Proof.
  intros N. destruct ev; try congruence; cbn [react]; unfold_react;
    repeat lists_step; shown_leaf.
Qed.

Lemma work_list_react (ev : Event) : ev <> TimerFires -> stable workShown (react ev).
Proof.
  intros N. destruct ev; try congruence; cbn [react]; unfold_react;
    repeat lists_step; shown_leaf.
Qed.

Lemma lists_download (html_ name : string) {A : Type} (c : string) (proj : Globals -> list A)
  (mk : list A -> string) :
  stable (shown_list c proj mk) (runCallback (DownloadPrompt html_ name)).
Proof. cbn [runCallback]; cbv zeta. repeat stable_step; shown_leaf. Qed.

(** The reset empties the three arrays and the three containers. *)
Lemma lists_reset (p : Page) :
  page_ok p = true -> has "portfolioProjectsContainer" p = true ->
  skillsShown p /\ certsShown p /\ workShown p ->
  let q := page_after (runCallback ResetForm p) in
  skillsShown q /\ certsShown q /\ workShown q.
Proof.
  intros Hok Hpc (HS & HC & HW). cbv zeta.
  remember (page_after (runCallback ResetForm p)) as r eqn:Er.
  cbn [runCallback] in Er. unfold bind at 1, getElementById in Er.
  destruct (assoc "portfolioBuilderForm" (elements (dom p)));
    [|cbn [page_after] in Er; subst r; auto].
  unfold bind at 1, modify in Er.
  set (p2 := set_dom _ p) in Er.
  do 5 (unfold bind at 1, modify_vars, modify in Er).
  set (p3 := set_vars _ _) in Er.
  assert (K3 : keys p3 = keys p) by apply keys_reset.
  assert (Hok3 : page_ok p3 = true).
  { rewrite (page_ok_frame p3 p); [exact Hok | exact K3 | reflexivity]. }
  destruct (showPortfolioStep_ok 1 p3 Hok3) as (q & E & Ev & _); [apply in_stepNumbers; lia|].
  pose proof (frame_showPortfolioStep (keys p3) (steps_of p3) 1 p3 (conj eq_refl eq_refl)) as [Kq _].
  rewrite E in Kq. cbn [page_after] in Kq.
  assert (Hh : forall id, has id q = has id p).
  { intros id. now rewrite !has_existsb, Kq, K3. }
  destruct HS as [HS _], HC as [HC _], HW as [HW _].
  rewrite (bind_returned _ _ _ _ _ E) in Er.
  erewrite bind_returned in Er by (apply setElementById_ok; now rewrite Hh).
  erewrite bind_returned in Er by (apply setElementById_ok; now rewrite !has_write, Hh).
  erewrite bind_returned in Er by (apply setElementById_ok; now rewrite !has_write, Hh).
  rewrite setElementById_ok in Er by (now rewrite !has_write, Hh).
  cbn [page_after] in Er. subst r. unfold skillsShown, certsShown, workShown, shown_list.
  rewrite !has_write, !Hh.
  cbn [vars write set_dom]. rewrite Ev. unfold p3.
  cbn [vars set_vars with_step with_projectCount with_work with_certificates with_skills
       portfolioSkills portfolioCertificates portfolioWorkExperience].
  rewrite F_nil, G_nil, H_nil.
  repeat split; try assumption.
  - rewrite innerHTMLOf_write_other by reflexivity.
    apply innerHTMLOf_written. now rewrite !has_write, Hh.
  - rewrite !innerHTMLOf_write_other by reflexivity.
    apply innerHTMLOf_written. now rewrite !has_write, Hh.
  - apply innerHTMLOf_written. now rewrite !has_write, Hh.
Qed.

Lemma lists_event (p : Page) (ev : Event) :
  page_ok p = true -> has "portfolioProjectsContainer" p = true ->
  skillsShown p /\ certsShown p /\ workShown p ->
  skillsShown (after ev p) /\ certsShown (after ev p) /\ workShown (after ev p).
Proof.
  intros Hok Hpc (HS & HC & HW). unfold after.
  destruct ev eqn:E;
    try (split; [|split];
         [ apply skills_list_react | apply certs_list_react | apply work_list_react ];
         (discriminate || assumption)).
  cbn [react].
  destruct (timers (env p)) as [|[due cb] rest] eqn:T.
  - assert (E0 : fireTimer p = Returned tt p) by (unfold fireTimer, bind, get; now rewrite T).
    rewrite E0. cbn [page_after]. auto.
  - rewrite (fireTimer_cons p due cb rest T).
    set (p1 := set_env _ p).
    destruct cb as [h nm|].
    + split; [|split]; now apply lists_download.
    + now apply lists_reset.
Qed.

Lemma lists_run (evs : list Event) (p : Page) :
  page_ok p = true -> has "portfolioProjectsContainer" p = true ->
  skillsShown p /\ certsShown p /\ workShown p ->
  skillsShown (run evs p) /\ certsShown (run evs p) /\ workShown (run evs p).
Proof.
  revert p; induction evs as [|ev evs IH]; intros p Hok Hpc HL; cbn [run]; [exact HL|].
  apply IH.
  - unfold after. now rewrite (page_ok_after (react ev) p (fun K S => frame_react K S ev)).
  - unfold after. now rewrite (has_after (react ev) _ p (fun K S => frame_react K S ev)).
  - now apply lists_event.
Qed.

End Lists.

(** The three containers of a page show the three arrays exactly when
    writing them again changes nothing. *)
Lemma listsRendered_shown (F : list string -> string) (G : list Certificate -> string)
  (H : list WorkEntry -> string) (p : Page) :
  (forall l, renderPortfolioList "portfolioSkillsList" l "removePortfolioSkill"
             = setElementById "portfolioSkillsList" (with_innerHTML (F l))) ->
  renderPortfolioCertsList =
    (p <- get ;; setElementById "portfolioCertsList" (with_innerHTML (G (portfolioCertificates (vars p))))) ->
  renderPortfolioWorkList =
    (p <- get ;; setElementById "portfolioWorkList" (with_innerHTML (H (portfolioWorkExperience (vars p))))) ->
  listsRendered p <->
  shown_list "portfolioSkillsList" portfolioSkills F p
  /\ shown_list "portfolioCertsList" portfolioCertificates G p
  /\ shown_list "portfolioWorkList" portfolioWorkExperience H p.
Proof.
  intros HF HG HH. unfold listsRendered.
  rewrite (rendered_shown "portfolioSkillsList" portfolioSkills F) by now rewrite HF.
  rewrite (rendered_shown "portfolioCertsList" portfolioCertificates G) by now rewrite HG.
  rewrite (rendered_shown "portfolioWorkList" portfolioWorkExperience H) by now rewrite HH.
  reflexivity.
Qed.

(** On a page that has the step sections, the buttons and the container of
    the project cards, whatever happens (any events, enabled or not), the
    three list containers that showed the three arrays still show them: each
    holds the markup the script writes for the array as it now is. *)
Theorem lists_stay_rendered (p : Page) (evs : list Event) :
  page_ok p = true -> has "portfolioProjectsContainer" p = true ->
  listsRendered p -> listsRendered (run evs p).
Proof.
  intros Hok Hpc HL.
  destruct (renderPortfolioList_writes "portfolioSkillsList" "removePortfolioSkill") as (F & F0 & HF).
  destruct renderPortfolioCertsList_writes as (G & G0 & HG).
  destruct renderPortfolioWorkList_writes as (H & H0 & HH).
  rewrite (listsRendered_shown F G H) in * by assumption.
  now apply (lists_run F G H).
Qed.

Lemma lists_stay_rendered_witness :
  let evs := [ TypeInto "portfolioSkillInput" " Rocq "; ClickAddSkill;
               TypeInto "portfolioWorkTitle" "Analyst"; TypeInto "portfolioWorkCompany" "Babbage";
               ClickAddWork; ClickRemoveSkill 0; ClickCreate []; TimerFires; TimerFires ] in
  listsRendered (run evs loadedPage)
  /\ innerHTMLOf "portfolioWorkList" (run (firstn 5 evs) loadedPage)
     = Some (html "<div class=`portfolio-list-item`><div><strong>Analyst</strong> at Babbage<br><small></small></div><span class=`portfolio-remove-btn` onclick=`removePortfolioWork(0)`>×</span></div>").
Proof.
  cbv zeta. split; [|vm_compute; reflexivity].
  apply lists_stay_rendered; [vm_compute; reflexivity | vm_compute; reflexivity |].
  unfold listsRendered, rendered.
  split; [|split]; (split; [vm_compute; reflexivity | vm_compute; reflexivity]).
Defined.


(** *** The overlay and the scrolling of the page *)

Lemma classOn_write (c k id : string) (f : Element -> Element) (p : Page) :
  (forall e, mem c (el_classes (f e)) = mem c (el_classes e)) ->
  classOn c k (write id f p) = classOn c k p.
Proof.
  intros Hf. unfold classOn. rewrite lookup_write.
  destruct (String.eqb k id); [|reflexivity].
  destruct (lookup k p); cbn; [now rewrite Hf | reflexivity].
Qed.

Lemma mem_app (c : string) (l l' : list string) : mem c (l ++ l') = mem c l || mem c l'.
Proof. unfold mem. apply existsb_app. Qed.


Lemma mem_filter_same (c : string) (l : list string) :
  mem c (filter (fun x => negb (String.eqb x c)) l) = false.
Proof.
  unfold mem. induction l as [|x l IH]; cbn [filter existsb]; [reflexivity|].
  destruct (String.eqb_spec x c) as [->|Hx]; cbn [negb existsb]; [exact IH|].
  rewrite IH, orb_false_r. apply String.eqb_neq. congruence.
Qed.













(** *** The card selected *)

Lemma classOn_add (c k id : string) (p : Page) :
  classOn c k (write id (classList_add c) p)
  = (String.eqb k id && has k p) || classOn c k p.
Proof.
  unfold classOn, has. rewrite lookup_write.
  destruct (String.eqb k id); [|reflexivity].
  destruct (lookup k p) as [e|]; [|reflexivity]. cbn [option_map andb orb].
  unfold classList_add. destruct (mem c (el_classes e)) eqn:M; [exact M|].
  cbn [with_classes el_classes]. rewrite mem_app. cbn. rewrite String.eqb_refl. apply orb_true_r.
Qed.

Lemma classOn_remove (c k id : string) (p : Page) :
  classOn c k (write id (classList_remove c) p)
  = negb (String.eqb k id) && classOn c k p.
Proof.
  unfold classOn. rewrite lookup_write.
  destruct (String.eqb k id); [|reflexivity].
  destruct (lookup k p) as [e|]; [|reflexivity]. cbn [option_map negb andb].
  unfold classList_remove. cbn [with_classes el_classes]. apply mem_filter_same.
Qed.

(** The loop that takes the class off the cards: it runs to its end when
    the cards are in the page, and leaves the class on the elements that had
    it and are not among the cards. *)
Lemma forEach_remove (c : string) (cards : list string) :
  forall p, all_present cards p = true ->
  exists q, forEachElement cards (classList_remove c) p = Returned tt q
    /\ vars q = vars p /\ env q = env p /\ (forall k, has k q = has k p)
    /\ (forall k, valueOf_ k q = valueOf_ k p)
    /\ (forall k, classOn c k q = negb (mem k cards) && classOn c k p).
Proof.
  induction cards as [|h rest IH]; intros p Hall; cbn [forEachElement].
  - exists p. repeat split.
  - cbn [all_present forallb] in Hall. apply andb_true_iff in Hall as [Hh Hrest].
    rewrite (bind_returned _ _ _ _ _ (setElementById_ok h _ p Hh)).
    destruct (IH (write h (classList_remove c) p)) as (q & E & Ev & Ee & Hk & Hv & Hc).
    { unfold all_present in *. rewrite forallb_forall in *. intros x Hx.
      rewrite has_write. now apply Hrest. }
    exists q. split; [exact E|]. split; [exact Ev|]. split; [exact Ee|].
    split; [|split].
    + intros k. now rewrite Hk, has_write.
    + intros k. rewrite Hv. unfold valueOf_. rewrite lookup_write.
      destruct (String.eqb k h); [|reflexivity]. now destruct (lookup k p).
    + intros k. rewrite Hc, classOn_remove. unfold mem. cbn [existsb].
      rewrite (String.eqb_sym k h).
      destruct (String.eqb h k), (existsb (String.eqb k) rest), (classOn c k p); reflexivity.
Qed.

Lemma valueOf_write_value (k id v : string) (p : Page) :
  valueOf_ k (write id (with_value v) p)
  = if String.eqb k id && has k p then Some v else valueOf_ k p.
Proof.
  unfold valueOf_, has. rewrite lookup_write.
  destruct (String.eqb k id); [|reflexivity]. now destruct (lookup k p).
Qed.

(** What [selectPortfolioDomain] and [selectPortfolioTheme] have in
    common. *)
Lemma select_card (cards : list string) (field value element : string) (p : Page) :
  all_present cards p = true -> has element p = true -> has field p = true ->
  exists q,
    (forEachElement cards (classList_remove "selected") ;;
     setElementById element (classList_add "selected") ;;
     setElementById field (with_value value)) p = Returned tt q
    /\ vars q = vars p /\ env q = env p
    /\ valueOf_ field q = Some value
    /\ forall k, classOn "selected" k q
                 = String.eqb k element || (negb (mem k cards) && classOn "selected" k p).
Proof.
  intros Hall He Hf.
  destruct (forEach_remove "selected" cards p Hall) as (q & E & Ev & Ee & Hk & Hv & Hc).
  rewrite (bind_returned _ _ _ _ _ E).
  rewrite (bind_returned _ _ _ _ _ (setElementById_ok element _ q (eq_trans (Hk _) He))).
  rewrite setElementById_ok by (now rewrite has_write, Hk).
  eexists. split; [reflexivity|]. split; [exact Ev|]. split; [exact Ee|]. split.
  - rewrite valueOf_write_value, String.eqb_refl, has_write, Hk, Hf. reflexivity.
  - intros k. rewrite classOn_write by reflexivity.
    rewrite classOn_add, Hc, Hk.
    destruct (String.eqb_spec k element) as [->|N]; [now rewrite He | reflexivity].
Qed.

(** When the cards, the card clicked and the hidden field are in the page,
    [selectPortfolioDomain] leaves the class [selected] on the card clicked
    and on no other domain card, and the domain in the hidden field;
    [selectPortfolioTheme] does the same with the theme cards.  Elements that
    are not cards of the kind keep the class if they had it. *)
Theorem selection_is_exclusive (p : Page) (value element : string) :
  has element p = true ->
  (all_present (domainCards (dom p)) p = true -> has "portfolioSelectedDomain" p = true ->
   let q := page_after (selectPortfolioDomain value element p) in
   selectPortfolioDomain value element p = Returned tt q
   /\ valueOf_ "portfolioSelectedDomain" q = Some value
   /\ classOn "selected" element q = true
   /\ (forall k, In k (domainCards (dom p)) -> k <> element -> classOn "selected" k q = false)
   /\ (forall k, ~ In k (domainCards (dom p)) -> k <> element ->
                 classOn "selected" k q = classOn "selected" k p))
  /\ (all_present (themeCards (dom p)) p = true -> has "portfolioSelectedTheme" p = true ->
      let q := page_after (selectPortfolioTheme value element p) in
      selectPortfolioTheme value element p = Returned tt q
      /\ valueOf_ "portfolioSelectedTheme" q = Some value
      /\ classOn "selected" element q = true
      /\ (forall k, In k (themeCards (dom p)) -> k <> element -> classOn "selected" k q = false)
      /\ (forall k, ~ In k (themeCards (dom p)) -> k <> element ->
                    classOn "selected" k q = classOn "selected" k p)).
Proof.
  intros He.
  assert (K : forall cards field (m : M unit),
    m p = (forEachElement cards (classList_remove "selected") ;;
           setElementById element (classList_add "selected") ;;
           setElementById field (with_value value)) p ->
    all_present cards p = true -> has field p = true ->
    let q := page_after (m p) in
    m p = Returned tt q
    /\ valueOf_ field q = Some value
    /\ classOn "selected" element q = true
    /\ (forall k, In k cards -> k <> element -> classOn "selected" k q = false)
    /\ (forall k, ~ In k cards -> k <> element -> classOn "selected" k q = classOn "selected" k p)).
  { intros cards field m Em Hall Hf. cbv zeta.
    destruct (select_card cards field value element p Hall He Hf) as (q & E & _ & _ & Hv & Hc).
    rewrite Em, E. cbn [page_after]. split; [reflexivity|]. split; [exact Hv|].
    assert (Mem : forall k, mem k cards = true <-> In k cards).
    { intros k. unfold mem. rewrite existsb_exists. split.
      - intros (x & Hx & Ex). apply String.eqb_eq in Ex. now subst.
      - intros Hk. exists k. split; [exact Hk | apply String.eqb_refl]. }
    split; [|split].
    - now rewrite Hc, String.eqb_refl.
    - intros k Hk N. rewrite Hc. apply String.eqb_neq in N. rewrite N.
      apply Mem in Hk. now rewrite Hk.
    - intros k Hk N. rewrite Hc. apply String.eqb_neq in N. rewrite N.
      destruct (mem k cards) eqn:Mk; [apply Mem in Mk; contradiction | reflexivity]. }
  split.
  - apply K. reflexivity.
  - apply K. reflexivity.
Qed.

Lemma selection_is_exclusive_witness :
  let q := page_after (selectPortfolioDomain "data" "domainCardData" loadedPage) in
  valueOf_ "portfolioSelectedDomain" q = Some "data"
  /\ classOn "selected" "domainCardData" q = true
  /\ classOn "selected" "themeCardGreen" q = false.
Proof.
  cbv zeta.
  destruct (proj1 (selection_is_exclusive loadedPage "data" "domainCardData" eq_refl)
              eq_refl eq_refl) as (_ & Hv & Hs & _).
  split; [exact Hv|]. split; [exact Hs | vm_compute; reflexivity].
Defined.

(** *** Adding a work entry and a certificate *)

Lemma getElementById_ok (id : string) (e : Element) (p : Page) :
  lookup id p = Some e -> getElementById id p = Returned e p.
Proof. unfold lookup, getElementById. now intros ->. Qed.

Lemma lookup_has (id : string) (e : Element) (p : Page) : lookup id p = Some e -> has id p = true.
Proof. unfold has. now intros ->. Qed.

Lemma valueOf_cleared (k id : string) (p : Page) :
  valueOf_ k p = Some "" \/ (k = id /\ has k p = true) ->
  valueOf_ k (write id (with_value "") p) = Some "".
Proof.
  rewrite valueOf_write_value. intros [H|[-> H]].
  - now destruct (String.eqb k id && has k p).
  - now rewrite String.eqb_refl, H.
Qed.

Lemma valueOf_cleared_files (k id : string) (p : Page) :
  valueOf_ k p = Some "" \/ (k = id /\ has k p = true) ->
  valueOf_ k (write id with_value_cleared p) = Some "".
Proof.
  unfold valueOf_, has. rewrite lookup_write. intros [H|[-> H]].
  - destruct (String.eqb k id); [|exact H]. now destruct (lookup k p).
  - rewrite String.eqb_refl. now destruct (lookup id p).
Qed.

Lemma valueOf_write_innerHTML (k id X : string) (p : Page) :
  valueOf_ k (write id (with_innerHTML X) p) = valueOf_ k p.
Proof.
  unfold valueOf_. rewrite lookup_write.
  destruct (String.eqb k id); [|reflexivity]. now destruct (lookup k p).
Qed.

Lemma trim_truthy (s : string) : truthy s = false <-> s = "".
Proof. destruct s; cbn; split; congruence. Qed.

(** [addPortfolioWork] does nothing when the title or the company is blank;
    otherwise it appends one entry made of the three texts trimmed (the
    description may be blank), leaves the other script variables as they
    were, and empties the three controls. *)
Theorem work_entry_added (p : Page) (titleEl companyEl descEl : Element) :
  lookup "portfolioWorkTitle" p = Some titleEl ->
  lookup "portfolioWorkCompany" p = Some companyEl ->
  lookup "portfolioWorkDesc" p = Some descEl ->
  let title := trim (el_value titleEl) in
  let company := trim (el_value companyEl) in
  let desc := trim (el_value descEl) in
  (title = "" \/ company = "" -> addPortfolioWork p = Returned tt p)
  /\ (title <> "" -> company <> "" -> has "portfolioWorkList" p = true ->
      exists q, addPortfolioWork p = Returned tt q
        /\ vars q = with_work (portfolioWorkExperience (vars p)
                               ++ [{| w_title := title; w_company := company; w_desc := desc |}])%list
                      (vars p)
        /\ env q = env p
        /\ valueOf_ "portfolioWorkTitle" q = Some ""
        /\ valueOf_ "portfolioWorkCompany" q = Some ""
        /\ valueOf_ "portfolioWorkDesc" q = Some "").
Proof.
  intros Ht Hc Hd. cbv zeta.
  assert (E : addPortfolioWork p =
    (if truthy (trim (el_value titleEl)) && truthy (trim (el_value companyEl))
     then modify_vars (fun g => with_work
            (portfolioWorkExperience g ++
             [{| w_title := trim (el_value titleEl); w_company := trim (el_value companyEl);
                 w_desc := trim (el_value descEl) |}])%list g) ;;
          renderPortfolioWorkList ;;
          setElementById "portfolioWorkTitle" (with_value "") ;;
          setElementById "portfolioWorkCompany" (with_value "") ;;
          setElementById "portfolioWorkDesc" (with_value "")
     else ret tt) p).
  { unfold addPortfolioWork.
    rewrite (bind_returned _ _ _ _ _ (getElementById_ok _ _ _ Ht)). cbv zeta.
    rewrite (bind_returned _ _ _ _ _ (getElementById_ok _ _ _ Hc)).
    rewrite (bind_returned _ _ _ _ _ (getElementById_ok _ _ _ Hd)). reflexivity. }
  rewrite E. split.
  - intros [H|H]; apply trim_truthy in H; rewrite H; [reflexivity | now rewrite andb_false_r].
  - intros Nt Nc Hl. apply truthy_iff in Nt, Nc. rewrite Nt, Nc. cbn [andb].
    unfold bind at 1, modify_vars, modify.
    set (p1 := set_vars _ p).
    destruct renderPortfolioWorkList_writes as (Hm & _ & HH). rewrite HH.
    unfold bind at 1. unfold bind at 1, get.
    rewrite setElementById_ok by exact Hl.
    set (p2 := write "portfolioWorkList" _ p1).
    assert (Hh : forall id, has id p2 = has id p).
    { intros id. unfold p2. now rewrite has_write. }
    erewrite bind_returned by (apply setElementById_ok; rewrite Hh; now apply (lookup_has _ titleEl)).
    erewrite bind_returned
      by (apply setElementById_ok; rewrite !has_write, Hh; now apply (lookup_has _ companyEl)).
    rewrite setElementById_ok by (rewrite !has_write, Hh; now apply (lookup_has _ descEl)).
    eexists. split; [reflexivity|]. split; [reflexivity|]. split; [reflexivity|].
    repeat split.
    + apply valueOf_cleared. left. apply valueOf_cleared. left. apply valueOf_cleared. right.
      split; [reflexivity|]. rewrite Hh. now apply (lookup_has _ titleEl).
    + apply valueOf_cleared. left. apply valueOf_cleared. right.
      split; [reflexivity|]. rewrite has_write, Hh. now apply (lookup_has _ companyEl).
    + apply valueOf_cleared. right.
      split; [reflexivity|]. rewrite !has_write, Hh. now apply (lookup_has _ descEl).
Qed.

Lemma work_entry_added_witness :
  let p := run [ TypeInto "portfolioWorkTitle" " Analyst "; TypeInto "portfolioWorkCompany" "Babbage" ]
               loadedPage in
  addPortfolioWork loadedPage = Returned tt loadedPage
  /\ portfolioWorkExperience (vars (page_after (addPortfolioWork p)))
     = [{| w_title := "Analyst"; w_company := "Babbage"; w_desc := "" |}]
  /\ valueOf_ "portfolioWorkTitle" (page_after (addPortfolioWork p)) = Some "".
Proof.
  cbv zeta. split.
  - apply (proj1 (work_entry_added loadedPage _ _ _ eq_refl eq_refl eq_refl)). now left.
  - destruct (proj2 (work_entry_added
                       (run [ TypeInto "portfolioWorkTitle" " Analyst ";
                              TypeInto "portfolioWorkCompany" "Babbage" ] loadedPage)
                       _ _ _ eq_refl eq_refl eq_refl)
                ltac:(discriminate) ltac:(discriminate) eq_refl) as (q & E & Ev & _ & Hv & _).
    rewrite E. cbn [page_after]. rewrite Ev. split; [reflexivity | exact Hv].
Defined.

Lemma filesOf_cleared (id : string) (p : Page) :
  has id p = true -> filesOf id (write id with_value_cleared p) = Some [].
Proof.
  unfold has, filesOf. rewrite lookup_write, String.eqb_refl.
  now destruct (lookup id p).
Qed.

Lemma readerOnload_some (k : nat) (p : Page) (cert : Certificate) (imageFile : File) :
  nth_error (readers (env p)) k = Some (cert, imageFile) ->
  readerOnload k p =
  (pushCertificate {| c_name := c_name cert; c_issuer := c_issuer cert;
                      c_image := Some (file_dataURL imageFile) |} ;;
   renderPortfolioCertsList)
    (set_env (with_readers (firstn k (readers (env p)) ++ skipn (S k) (readers (env p)))%list
                (env p)) p).
Proof. intros N. unfold readerOnload, bind, get, modify. now rewrite N. Qed.

(** [addPortfolioCertificate] does nothing, and shows no message, when the
    name or the issuer is blank.  With both filled in and no file picked it
    appends one certificate without image and empties the controls.  With a
    first file of at most 5 MB it starts reading the file and empties the
    controls, the list being as it was; the certificate joins the list when
    the read ends, with the data URL of the file as its image.  Files picked
    after the first are ignored. *)
Theorem certificate_added (p : Page) (nameEl issuerEl imageEl : Element) :
  lookup "portfolioCertName" p = Some nameEl ->
  lookup "portfolioCertIssuer" p = Some issuerEl ->
  lookup "portfolioCertImage" p = Some imageEl ->
  let name := trim (el_value nameEl) in
  let issuer := trim (el_value issuerEl) in
  let cert := {| c_name := name; c_issuer := issuer; c_image := None |} in
  (name = "" \/ issuer = "" -> addPortfolioCertificate p = Returned tt p)
  /\ (name <> "" -> issuer <> "" -> el_files imageEl = [] ->
      has "portfolioCertsList" p = true ->
      exists q, addPortfolioCertificate p = Returned tt q
        /\ vars q = with_certificates (portfolioCertificates (vars p) ++ [cert])%list (vars p)
        /\ env q = env p
        /\ valueOf_ "portfolioCertName" q = Some ""
        /\ valueOf_ "portfolioCertIssuer" q = Some "")
  /\ (name <> "" -> issuer <> "" ->
      forall imageFile others, el_files imageEl = imageFile :: others ->
      (file_size imageFile <= maxImageBytes)%Z ->
      exists q, addPortfolioCertificate p = Returned tt q
        /\ vars q = vars p
        /\ readers (env q) = (readers (env p) ++ [(cert, imageFile)])%list
        /\ alerts (env q) = alerts (env p)
        /\ valueOf_ "portfolioCertName" q = Some ""
        /\ valueOf_ "portfolioCertIssuer" q = Some ""
        /\ filesOf "portfolioCertImage" q = Some []
        /\ let r := page_after (readerOnload (List.length (readers (env p))) q) in
           vars r = with_certificates
                      (portfolioCertificates (vars p)
                       ++ [{| c_name := name; c_issuer := issuer;
                              c_image := Some (file_dataURL imageFile) |}])%list (vars p)
           /\ readers (env r) = readers (env p)).
Proof.
  intros Hn Hi Him. cbv zeta.
  pose proof (lookup_has _ _ _ Hn) as Hhn. pose proof (lookup_has _ _ _ Hi) as Hhi.
  pose proof (lookup_has _ _ _ Him) as Hhim.
  assert (E : addPortfolioCertificate p =
    (let name := trim (el_value nameEl) in
     let issuer := trim (el_value issuerEl) in
     if truthy name && truthy issuer
     then
       let cert := {| c_name := name; c_issuer := issuer; c_image := None |} in
       proceed <-
         match hd_error (el_files imageEl) with
         | Some imageFile =>
             if (file_size imageFile >? 5 * 1024 * 1024)%Z
             then alert "Image file size should be less than 5MB" ;; ret false
             else readAsDataURL cert imageFile ;; ret true
         | None => pushCertificate cert ;; renderPortfolioCertsList ;; ret true
         end ;;
       if proceed
       then setElementById "portfolioCertName" (with_value "") ;;
            setElementById "portfolioCertIssuer" (with_value "") ;;
            setElementById "portfolioCertImage" with_value_cleared
       else ret tt
     else ret tt) p).
  { unfold addPortfolioCertificate.
    rewrite (bind_returned _ _ _ _ _ (getElementById_ok _ _ _ Hn)). cbv zeta.
    rewrite (bind_returned _ _ _ _ _ (getElementById_ok _ _ _ Hi)).
    rewrite (bind_returned _ _ _ _ _ (getElementById_ok _ _ _ Him)). reflexivity. }
  rewrite E. cbv zeta. split; [|split].
  - intros [H|H]; apply trim_truthy in H; rewrite H; [reflexivity | now rewrite andb_false_r].
  - intros Nn Ni Hf Hl. apply truthy_iff in Nn, Ni. rewrite Nn, Ni, Hf. cbn [andb hd_error].
    destruct renderPortfolioCertsList_writes as (G & _ & HG). rewrite HG.
    unfold bind at 1. unfold bind at 1, pushCertificate, modify_vars, modify.
    set (p1 := set_vars _ p).
    unfold bind at 1. unfold bind at 1, get.
    rewrite setElementById_ok by exact Hl. cbn [ret].
    set (p2 := write "portfolioCertsList" _ p1).
    assert (Hh : forall id, has id p2 = has id p).
    { intros id. unfold p2. now rewrite has_write. }
    erewrite bind_returned by (apply setElementById_ok; now rewrite Hh).
    erewrite bind_returned by (apply setElementById_ok; now rewrite !has_write, Hh).
    rewrite setElementById_ok by (now rewrite !has_write, Hh).
    eexists. split; [reflexivity|]. split; [reflexivity|]. split; [reflexivity|]. split.
    + apply valueOf_cleared_files. left. apply valueOf_cleared. left. apply valueOf_cleared.
      right. split; [reflexivity | now rewrite Hh].
    + apply valueOf_cleared_files. left. apply valueOf_cleared.
      right. split; [reflexivity | now rewrite has_write, Hh].
  - intros Nn Ni imageFile others Hf Hsize. apply truthy_iff in Nn, Ni.
    rewrite Nn, Ni, Hf. cbn [andb hd_error].
    assert (Gt : (file_size imageFile >? 5 * 1024 * 1024)%Z = false).
    { unfold maxImageBytes in Hsize. rewrite Z.gtb_ltb. apply Z.ltb_ge. lia. }
    rewrite Gt.
    unfold bind at 1. unfold bind at 1, readAsDataURL, modify. cbn [ret].
    set (p1 := set_env _ p).
    assert (Hh : forall id, has id p1 = has id p) by reflexivity.
    erewrite bind_returned by (apply setElementById_ok; now rewrite Hh).
    erewrite bind_returned by (apply setElementById_ok; now rewrite !has_write, Hh).
    rewrite setElementById_ok by (now rewrite !has_write, Hh).
    eexists. split; [reflexivity|].
    split; [reflexivity|]. split; [reflexivity|]. split; [reflexivity|]. split; [|split; [|split]].
    + apply valueOf_cleared_files. left. apply valueOf_cleared. left. apply valueOf_cleared.
      right. split; [reflexivity | now rewrite Hh].
    + apply valueOf_cleared_files. left. apply valueOf_cleared.
      right. split; [reflexivity | now rewrite has_write, Hh].
    + apply filesOf_cleared. now rewrite !has_write, Hh.
    + cbv zeta. set (q := write "portfolioCertImage" _ _).
      assert (Rq : readers (env q) = (readers (env p) ++
                     [({| c_name := trim (el_value nameEl); c_issuer := trim (el_value issuerEl);
                          c_image := None |}, imageFile)])%list) by reflexivity.
      rewrite (readerOnload_some _ q _ imageFile)
        by (rewrite Rq, nth_error_app2, Nat.sub_diag by lia; reflexivity).
      unfold bind, pushCertificate, modify_vars, modify. cbv beta iota.
      match goal with |- vars (page_after (_ ?q2)) = ?g /\ _ =>
        assert (K : stable (fun r => vars r = g /\ readers (env r) = readers (env p))
                      renderPortfolioCertsList);
        [ repeat stable_step; intros r Hr; exact Hr | apply (K q2) ]
      end.
      split; [reflexivity|].
      cbn [env set_vars set_env with_readers readers]. rewrite Rq.
      rewrite firstn_app, firstn_all, Nat.sub_diag, skipn_app, skipn_all2 by lia.
      replace (S (List.length (readers (env p))) - List.length (readers (env p)))%nat
        with 1%nat by lia.
      cbn. now rewrite !app_nil_r.
Qed.

Lemma certificate_added_witness :
  let typed := run [ TypeInto "portfolioCertName" "Logic"; TypeInto "portfolioCertIssuer" " Academy " ]
                   loadedPage in
  let small := {| file_size := 5 * 1024 * 1024; file_dataURL := "data:image/png;base64,AAAA" |} in
  let picked := after (PickFiles "portfolioCertImage" [small]) typed in
  portfolioCertificates (vars (after ClickAddCertificate typed))
  = [{| c_name := "Logic"; c_issuer := "Academy"; c_image := None |}]
  /\ portfolioCertificates (vars (after ClickAddCertificate picked)) = []
  /\ portfolioCertificates (vars (after (ReadEnds 0) (after ClickAddCertificate picked)))
     = [{| c_name := "Logic"; c_issuer := "Academy";
           c_image := Some "data:image/png;base64,AAAA" |}].
Proof.
  intros typed small picked. split.
  - destruct (proj1 (proj2 (certificate_added typed _ _ _ eq_refl eq_refl eq_refl))
                ltac:(discriminate) ltac:(discriminate) eq_refl eq_refl) as (q & E & Ev & _).
    unfold after. cbn [react]. rewrite E. cbn [page_after]. now rewrite Ev.
  - destruct (proj2 (proj2 (certificate_added picked _ _ _ eq_refl eq_refl eq_refl))
                ltac:(discriminate) ltac:(discriminate) small [] eq_refl
                ltac:(vm_compute; discriminate))
      as (q & E & Ev & _ & _ & _ & _ & _ & Hr).
    unfold after. cbn [react]. rewrite E. cbn [page_after]. rewrite Ev. split; [reflexivity|].
    cbv zeta in Hr. destruct Hr as [Hr _].
    exact (f_equal portfolioCertificates Hr).
Defined.

(** *** The snapshot *)

Lemma valueOf_ok (id : string) (p : Page) :
  has id p = true -> valueOf id p = Returned (textOf id p) p.
Proof.
  unfold has, valueOf, textOf, bind, getElementById, lookup.
  now destruct (assoc id (elements (dom p))).
Qed.

Lemma valueOf_missing {B : Type} (id : string) (k : string -> M B) (p : Page) :
  has id p = false -> bind (valueOf id) k p = Thrown p.
Proof.
  unfold has, valueOf, bind, getElementById, lookup.
  now destruct (assoc id (elements (dom p))).
Qed.

(** [createPortfolioFromBuilder] checks nothing: when the controls it reads
    are in the page it generates the document of the snapshot of the page,
    the texts as they are, blank or not, and shows no message; when one of
    them is missing it throws and leaves the page as it was. *)
Theorem create_takes_page_as_is (p : Page) (projectCards : list Project) :
  (all_present snapshotControls p = true ->
   let q := page_after (createPortfolioFromBuilder projectCards p) in
   createPortfolioFromBuilder projectCards p
   = generatePortfolioHTML (snapshot projectCards p) p
   /\ alerts (env q) = alerts (env p) /\ vars q = vars p
   /\ written_by p q =
      if popupsBlocked (env p) then [] else [portfolioHTML (snapshot projectCards p)])
  /\ (all_present snapshotControls p = false ->
      createPortfolioFromBuilder projectCards p = Thrown p).
Proof.
  split.
  - intros Hall. cbv zeta.
    assert (E : createPortfolioFromBuilder projectCards p
                = generatePortfolioHTML (snapshot projectCards p) p).
    { unfold all_present, snapshotControls in Hall. cbn [forallb] in Hall.
      repeat (apply andb_true_iff in Hall as [?H Hall]).
      unfold createPortfolioFromBuilder. cbv zeta.
      repeat lazymatch goal with
      | |- bind (valueOf ?id) _ p = _ =>
          rewrite (bind_returned _ _ _ _ _ (valueOf_ok id p ltac:(assumption)))
      end.
      reflexivity. }
    rewrite E. split; [reflexivity|].
    assert (K : stable (fun q => alerts (env q) = alerts (env p) /\ vars q = vars p)
                  (generatePortfolioHTML (snapshot projectCards p))).
    { repeat stable_step; intros q Hq; exact Hq. }
    destruct (K p (conj eq_refl eq_refl)) as [Ka Kv].
    split; [exact Ka|]. split; [exact Kv|].
    apply written_by_app. rewrite generatePortfolioHTML_previews.
    now destruct (popupsBlocked (env p)).
  - intros Hall. unfold createPortfolioFromBuilder. cbv zeta.
    unfold all_present, snapshotControls in Hall. cbn [forallb] in Hall.
    repeat lazymatch goal with
    | |- bind (valueOf ?id) _ p = Thrown p =>
        destruct (has id p) eqn:?H;
        [ rewrite (bind_returned _ _ _ _ _ (valueOf_ok id p ltac:(assumption)))
        | now apply valueOf_missing ]
    end.
    repeat match goal with H : has _ p = true |- _ => rewrite H in Hall; clear H end.
    discriminate Hall.
Qed.

Lemma create_takes_page_as_is_witness :
  written_by loadedPage (page_after (createPortfolioFromBuilder [] loadedPage))
  = [portfolioHTML (snapshot [] loadedPage)]
  /\ fullName (snapshot [] loadedPage) = "Ada Lovelace"
  /\ email (snapshot [] loadedPage) = ""
  /\ alerts (env (page_after (createPortfolioFromBuilder [] loadedPage))) = [].
Proof.
  destruct (proj1 (create_takes_page_as_is loadedPage []) eq_refl) as (_ & Ha & _ & Hw).
  split; [exact Hw|]. split; [reflexivity|]. split; [reflexivity | exact Ha].
Defined.

(** *** The projects harvested *)

Lemma projectOfCard_harvested (card pr : Project) :
  projectOfCard card = Some pr -> harvested pr.
Proof.
  unfold projectOfCard. cbv zeta.
  destruct (truthy (trim (p_name card)) && truthy (trim (p_desc card))) eqn:C; [|discriminate].
  intros E. injection E as <-. apply andb_true_iff in C as [C1 C2]. apply truthy_iff in C1, C2.
  unfold harvested. cbn [p_name p_desc p_image p_link p_github].
  rewrite !trim_idempotent. repeat split; assumption.
Qed.

Lemma projectOfCard_fixed (pr : Project) : harvested pr -> projectOfCard pr = Some pr.
Proof.
  intros (N1 & N2 & T1 & T2 & T3 & T4 & T5). unfold projectOfCard. cbv zeta.
  rewrite T1, T2, T3, T4, T5. apply truthy_iff in N1, N2. rewrite N1, N2.
  now destruct pr.
Qed.

Lemma harvestProjects_harvested (projectCards : list Project) :
  Forall harvested (harvestProjects projectCards).
Proof.
  induction projectCards as [|card rest IH]; cbn [harvestProjects]; [constructor|].
  destruct (projectOfCard card) as [pr|] eqn:E; [|exact IH].
  constructor; [now apply (projectOfCard_harvested card) | exact IH].
Qed.

(** Every project of a snapshot has a name and a description, and its five
    texts are trimmed; the cards that had both are kept in their order, the
    others are left out without a message; harvesting what was harvested
    changes nothing. *)
Theorem harvested_projects_complete (projectCards : list Project) :
  Forall harvested (harvestProjects projectCards)
  /\ (List.length (harvestProjects projectCards) <= List.length projectCards)%nat
  /\ (forall card, In card projectCards -> harvested card ->
                   In card (harvestProjects projectCards))
  /\ harvestProjects (harvestProjects projectCards) = harvestProjects projectCards.
Proof.
  split; [apply harvestProjects_harvested|]. split; [|split].
  - induction projectCards as [|card rest IH]; cbn [harvestProjects List.length]; [lia|].
    destruct (projectOfCard card); cbn [List.length]; lia.
  - intros card Hin Hc.
    induction projectCards as [|c rest IH]; cbn [harvestProjects]; [contradiction|].
    destruct Hin as [->|Hin].
    + rewrite (projectOfCard_fixed card Hc). now left.
    + destruct (projectOfCard c); [right|]; now apply IH.
  - pose proof (harvestProjects_harvested projectCards) as F.
    induction F as [|pr l Hpr _ IH]; cbn [harvestProjects]; [reflexivity|].
    now rewrite (projectOfCard_fixed pr Hpr), IH.
Qed.

End BuilderFacts.

(** ** The manager of the site *)

Module SiteFacts.
Import JS Site.

(** *** Properties kept by every step of a call *)

Section Keeps.
Context {I : State -> Prop}.

Lemma keeps_pure {A : Type} (a : A) : keeps I (pure a).
Proof. intros s H; exact H. Qed.

Lemma keeps_typeError {A : Type} : keeps I (@typeError A).
Proof. intros s H; exact H. Qed.

Lemma keeps_read : keeps I read.
Proof. intros s H; exact H. Qed.

Lemma keeps_deref (e : option nat) : keeps I (deref e).
Proof. destruct e; [apply keeps_pure | apply keeps_typeError]. Qed.

Lemma keeps_node (k : nat) : keeps I (node k).
Proof. intros s H. unfold node, andThen, read. now destruct (nth_error (nodes s) k). Qed.

Lemma keeps_andThen {A B : Type} (m : Act A) (k : A -> Act B) :
  keeps I m -> (forall a, keeps I (k a)) -> keeps I (andThen m k).
Proof.
  intros Hm Hk s H. unfold andThen. specialize (Hm s H).
  destruct (m s) as [a s'|s']; cbn in *; [now apply Hk | exact Hm].
Qed.


Lemma keeps_change (f : State -> State) : (forall s, I s -> I (f s)) -> keeps I (change f).
Proof. intros Hf s H. now apply Hf. Qed.

Lemma keeps_write (k : nat) (f : Node -> Node) :
  (forall s, I s -> I (with_nodes (update_nth k f (nodes s)) s)) -> keeps I (write k f).
Proof. intros Hf. apply keeps_change. exact Hf. Qed.

Lemma keeps_forEach {A : Type} (l : list A) (body : A -> Act unit) :
  (forall x, In x l -> keeps I (body x)) -> keeps I (forEach l body).
Proof.
  induction l as [|x l IH]; intros Hb; cbn [forEach]; [apply keeps_pure|].
  apply keeps_andThen; [apply Hb; now left | intros _; apply IH].
  intros y Hy. apply Hb. now right.
Qed.

End Keeps.

(** *** Reading an element back after a write *)

Lemma nth_update (k j : nat) (f : Node -> Node) (l : list Node) :
  nth_error (update_nth k f l) j
  = if Nat.eqb j k then option_map f (nth_error l j) else nth_error l j.
Proof.
  revert k j; induction l as [|n l IH]; intros k j.
  - destruct k as [|k], j as [|j]; cbn [update_nth nth_error option_map Nat.eqb];
      try reflexivity. now destruct (Nat.eqb j k).
  - destruct k as [|k], j as [|j]; cbn [update_nth nth_error Nat.eqb option_map];
      try reflexivity. apply IH.
Qed.

Lemma length_update (k : nat) (f : Node -> Node) (l : list Node) :
  List.length (update_nth k f l) = List.length l.
Proof.
  revert k; induction l as [|n l IH]; intros k; [now destruct k|].
  destruct k; cbn [update_nth List.length]; [reflexivity | now rewrite IH].
Qed.

Lemma contains_add (c d : string) (n : Node) :
  contains c (add d n) = String.eqb c d || contains c n.
Proof.
  unfold add. destruct (contains d n) eqn:E.
  - destruct (String.eqb_spec c d) as [->|]; [now rewrite E | reflexivity].
  - unfold contains, mem. cbn [with_classes n_classes]. rewrite existsb_app. cbn [existsb].
    rewrite orb_false_r. apply orb_comm.
Qed.

Lemma contains_remove (c d : string) (n : Node) :
  contains c (remove d n) = negb (String.eqb c d) && contains c n.
Proof.
  unfold remove, contains, mem. cbn [with_classes n_classes].
  induction (n_classes n) as [|x l IH]; cbn [filter existsb]; [now rewrite andb_false_r|].
  destruct (String.eqb_spec x d) as [->|Hx]; cbn [negb existsb].
  - rewrite IH. destruct (String.eqb c d); reflexivity.
  - rewrite IH. destruct (String.eqb_spec c x) as [->|Hc]; cbn [orb].
    + apply String.eqb_neq in Hx. now rewrite Hx.
    + reflexivity.
Qed.

Lemma contains_toggle (c d : string) (n : Node) :
  contains c (toggle d n) = if String.eqb c d then negb (contains c n) else contains c n.
Proof.
  unfold toggle. destruct (contains d n) eqn:E.
  - rewrite contains_remove. destruct (String.eqb_spec c d) as [->|]; [now rewrite E | reflexivity].
  - rewrite contains_add. destruct (String.eqb_spec c d) as [->|]; [now rewrite E | reflexivity].
Qed.

Lemma hasClass_write (c : string) (j k : nat) (f : Node -> Node) (s : State) :
  hasClass c j (with_nodes (update_nth k f (nodes s)) s)
  = match nth_error (nodes s) j with
    | Some n => contains c (if Nat.eqb j k then f n else n)
    | None => false
    end.
Proof.
  unfold hasClass. cbn [nodes with_nodes]. rewrite nth_update.
  destruct (Nat.eqb j k); now destruct (nth_error (nodes s) j).
Qed.

(** A write that leaves the class alone, or another element, leaves
    [hasClass] as it was. *)
Lemma hasClass_write_same (c : string) (j k : nat) (f : Node -> Node) (s : State) :
  (forall n, contains c (f n) = contains c n) ->
  hasClass c j (with_nodes (update_nth k f (nodes s)) s) = hasClass c j s.
Proof.
  intros Hf. rewrite hasClass_write. unfold hasClass.
  destruct (nth_error (nodes s) j); [|reflexivity]. destruct (Nat.eqb j k); [apply Hf | reflexivity].
Qed.


(** *** The wiring never changes *)

Ltac site_step :=
  lazymatch goal with
  | |- keeps _ (andThen read _) => apply keeps_andThen; [apply keeps_read | intros ? ]
  | |- keeps _ (andThen _ _) => apply keeps_andThen; [ | intros ? ]
  | |- keeps _ (pure _) => apply keeps_pure
  | |- keeps _ typeError => apply keeps_typeError
  | |- keeps _ read => apply keeps_read
  | |- keeps _ (deref _) => apply keeps_deref
  | |- keeps _ (node _) => apply keeps_node
  | |- keeps _ (change _) => apply keeps_change
  | |- keeps _ (write _ _) => apply keeps_write
  | |- keeps _ (forEach _ _) => apply keeps_forEach; intros ? ?
  | |- keeps _ (smoothScrollTo _) => unfold smoothScrollTo
  | |- keeps _ (if ?c then _ else _) => destruct c
  | |- keeps _ (match ?x with _ => _ end) => destruct x
  end.

Ltac unfold_handlers :=
  unfold toggleMobileMenu, handleNavigation, handleKeyboardNavigation, handleOutsideClick,
    handleResize, handleSectionIntersection, animateElement, toggleCertificatePreview,
    closeCertificatePreview, openCertificatePreview; cbv zeta.






(** *** The menu *)

Lemma hasClass_in (c : string) (k : nat) (s : State) :
  (k < List.length (nodes s))%nat ->
  exists nd, nth_error (nodes s) k = Some nd /\ hasClass c k s = contains c nd.
Proof.
  intros H. unfold hasClass. destruct (nth_error (nodes s) k) as [nd|] eqn:E.
  - now exists nd.
  - apply nth_error_None in E. lia.
Qed.











(** *** The navigation links *)

Lemma hrefOf_write_classes (k j : nat) (f : Node -> Node) (s : State) :
  (forall nd, n_href (f nd) = n_href nd) ->
  hrefOf j (with_nodes (update_nth k f (nodes s)) s) = hrefOf j s.
Proof.
  intros Hf. unfold hrefOf. cbn [nodes with_nodes]. rewrite nth_update.
  destruct (Nat.eqb j k); [|reflexivity].
  destruct (nth_error (nodes s) j); cbn [option_map]; [apply Hf | reflexivity].
Qed.

Lemma href_add (c : string) (nd : Node) : n_href (add c nd) = n_href nd.
Proof. unfold add. now destruct (contains c nd). Qed.

(** One turn of the loop of [updateActiveNavLink]. *)
Lemma activate_link (h : string) (link : nat) (s : State) :
  (link < List.length (nodes s))%nat ->
  exists s',
    (write link (remove "active") ;;;
     l <-- node link ;;;
     match n_href l with
     | Some x => if String.eqb x h then write link (add "active") else pure tt
     | None => pure tt
     end) s = Done tt s'
    /\ wiring s' = wiring s
    /\ (forall k, hrefOf k s' = hrefOf k s)
    /\ (forall k, hasClass "active" k s'
                  = if Nat.eqb k link then hrefIs h link s else hasClass "active" k s).
Proof.
  intros Hl.
  destruct (nth_error (nodes s) link) as [nd|] eqn:E; [|apply nth_error_None in E; lia].
  unfold andThen at 1. unfold write at 1, change.
  unfold andThen at 1. unfold node, andThen, read. cbn [nodes with_nodes].
  rewrite nth_update, Nat.eqb_refl, E. cbn [option_map pure]. cbn [remove with_classes n_href].
  assert (Hh : hrefIs h link s = match n_href nd with Some x => String.eqb x h | None => false end).
  { unfold hrefIs, hrefOf. now rewrite E. }
  destruct (n_href nd) as [x|] eqn:Ex; [destruct (String.eqb x h) eqn:Exh|].
  - unfold write, change. eexists. split; [reflexivity|]. split; [|split].
    + unfold wiring. cbn. now rewrite !length_update.
    + intros k. rewrite !hrefOf_write_classes; [reflexivity | reflexivity | apply href_add].
    + intros k. rewrite hasClass_write. cbn [nodes with_nodes]. rewrite nth_update.
      destruct (Nat.eqb_spec k link) as [->|N].
      * rewrite E. cbn [option_map]. rewrite contains_add, Hh. reflexivity.
      * unfold hasClass. now destruct (nth_error (nodes s) k).
  - eexists. split; [reflexivity|]. split; [|split].
    + unfold wiring. cbn. now rewrite !length_update.
    + intros k. now rewrite hrefOf_write_classes.
    + intros k. rewrite hasClass_write.
      destruct (Nat.eqb_spec k link) as [->|N].
      * rewrite E, contains_remove, Hh. reflexivity.
      * unfold hasClass. now destruct (nth_error (nodes s) k).
  - eexists. split; [reflexivity|]. split; [|split].
    + unfold wiring. cbn. now rewrite !length_update.
    + intros k. now rewrite hrefOf_write_classes.
    + intros k. rewrite hasClass_write.
      destruct (Nat.eqb_spec k link) as [->|N].
      * rewrite E, contains_remove, Hh. reflexivity.
      * unfold hasClass. now destruct (nth_error (nodes s) k).
Qed.

Lemma wiring_length (s s' : State) :
  wiring s' = wiring s -> List.length (nodes s') = List.length (nodes s).
Proof. unfold wiring. intros E. now injection E. Qed.

Lemma activate_links (h : string) (links : list nat) :
  forall s, (forall k, In k links -> (k < List.length (nodes s))%nat) ->
  exists s',
    forEach links (fun link =>
      write link (remove "active") ;;;
      l <-- node link ;;;
      match n_href l with
      | Some x => if String.eqb x h then write link (add "active") else pure tt
      | None => pure tt
      end) s = Done tt s'
    /\ wiring s' = wiring s
    /\ (forall k, hrefOf k s' = hrefOf k s)
    /\ (forall k, hasClass "active" k s'
                  = if existsb (Nat.eqb k) links then hrefIs h k s else hasClass "active" k s).
Proof.
  induction links as [|x links IH]; intros s Hv; cbn [forEach].
  - exists s. repeat split.
  - destruct (activate_link h x s) as (s1 & E1 & W1 & H1 & C1); [apply Hv; now left|].
    destruct (IH s1) as (s2 & E2 & W2 & H2 & C2).
    { intros k Hk. rewrite (wiring_length _ _ W1). apply Hv. now right. }
    exists s2. unfold andThen at 1. rewrite E1. split; [exact E2|].
    split; [congruence|]. split; [intros k; now rewrite H2, H1|].
    intros k. rewrite C2, C1. cbn [existsb]. unfold hrefIs. rewrite H1.
    destruct (existsb (Nat.eqb k) links); [now rewrite orb_true_r|].
    rewrite orb_false_r. destruct (Nat.eqb_spec k x) as [->|]; reflexivity.
Qed.

(** [updateActiveNavLink] leaves the class [active] on exactly the
    navigation links whose [href] is the text given; the other elements of
    the page keep the class if they had it. *)
Theorem active_links_have_the_href (s : State) (h : string) :
  (forall k, In k (navLinks s) -> (k < List.length (nodes s))%nat) ->
  let s' := state_after (updateActiveNavLink h s) in
  updateActiveNavLink h s = Done tt s'
  /\ forall k, hasClass "active" k s'
               = if isNavLink k s then hrefIs h k s else hasClass "active" k s.
Proof.
  intros Hv. cbv zeta.
  destruct (activate_links h (navLinks s) s Hv) as (s' & E & _ & _ & C).
  assert (E' : updateActiveNavLink h s = Done tt s') by exact E.
  rewrite E'. cbn [state_after]. split; [reflexivity | exact C].
Qed.

Lemma active_links_have_the_href_witness :
  let s' := state_after (updateActiveNavLink "#skills" sampleSite) in
  hasClass "active" 2 sampleSite = true
  /\ hasClass "active" 2 s' = false /\ hasClass "active" 3 s' = true.
Proof.
  cbv zeta.
  assert (V : forall k, In k (navLinks sampleSite) -> (k < List.length (nodes sampleSite))%nat).
  { intros k [<-|[<-|[]]]; cbn; lia. }
  destruct (active_links_have_the_href sampleSite "#skills" V) as [_ C].
  split; [reflexivity|]. split; rewrite C; reflexivity.
Defined.

(** *** The certificate cards *)

Lemma activeFrom_length (i : nat) (l : list Node) :
  List.length (activeFrom i l) = List.length (filter active l).
Proof.
  revert i; induction l as [|nd l IH]; intros i; cbn [activeFrom filter]; [reflexivity|].
  unfold active at 1. destruct (contains "cert-card-active" nd); cbn [List.length]; now rewrite IH.
Qed.

Lemma activeFrom_In (k i : nat) (l : list Node) :
  In k (activeFrom i l) <->
  (i <= k)%nat /\ exists nd, nth_error l (k - i) = Some nd /\ active nd = true.
Proof.
  revert i; induction l as [|nd l IH]; intros i; cbn [activeFrom].
  - split; [intros [] | intros (_ & x & H & _); now destruct (k - i)%nat].
  - assert (T : In k (activeFrom (S i) l) <->
                (i < k)%nat /\ exists x, nth_error (nd :: l) (k - i) = Some x /\ active x = true).
    { rewrite IH. split; intros (H1 & x & H2 & H3); (split; [lia|]); exists x; (split; [|exact H3]).
      - replace (k - i)%nat with (S (k - S i)) by lia. exact H2.
      - replace (k - i)%nat with (S (k - S i)) in H2 by lia. exact H2. }
    unfold active in *. destruct (contains "cert-card-active" nd) eqn:E; cbn [In]; rewrite ?T.
    + split.
      * intros [<-|(H1 & H2)]; [|split; [lia | exact H2]].
        split; [lia|]. exists nd. now rewrite Nat.sub_diag.
      * intros (H1 & x & H2 & H3). destruct (Nat.eq_dec i k) as [->|N]; [now left|].
        right. split; [lia|]. now exists x.
    + split.
      * intros (H1 & H2). split; [lia | exact H2].
      * intros (H1 & x & H2 & H3). split; [|now exists x].
        destruct (Nat.eq_dec i k) as [->|N]; [|lia].
        rewrite Nat.sub_diag in H2. cbn in H2. injection H2 as <-. congruence.
Qed.

Lemma previewOpen_In (k : nat) (s : State) :
  previewOpen k s = true <-> In k (openCards s).
Proof.
  unfold previewOpen, hasClass, openCards. rewrite activeFrom_In, Nat.sub_0_r. unfold active.
  split.
  - intros H. split; [lia|]. destruct (nth_error (nodes s) k) as [nd|]; [|discriminate].
    now exists nd.
  - intros (_ & nd & -> & H). exact H.
Qed.

Lemma openCards_valid (k : nat) (s : State) :
  In k (openCards s) -> (k < List.length (nodes s))%nat.
Proof.
  unfold openCards. rewrite activeFrom_In, Nat.sub_0_r. intros (_ & nd & H & _).
  apply nth_error_Some. congruence.
Qed.

Lemma ariaOf_write (k j : nat) (f : Node -> Node) (s : State) :
  ariaOf j (with_nodes (update_nth k f (nodes s)) s)
  = match nth_error (nodes s) j with
    | Some nd => n_ariaExpanded (if Nat.eqb j k then f nd else nd)
    | None => None
    end.
Proof.
  unfold ariaOf. cbn [nodes with_nodes]. rewrite nth_update.
  destruct (Nat.eqb j k); now destruct (nth_error (nodes s) j).
Qed.

(** [closeCertificatePreview] on a card of the page. *)
Lemma closeCertificatePreview_closes (card : nat) (s : State) :
  (card < List.length (nodes s))%nat ->
  exists s', closeCertificatePreview card s = Done tt s'
    /\ wiring s' = wiring s
    /\ (forall k, previewOpen k s' = negb (Nat.eqb k card) && previewOpen k s)
    /\ ariaOf card s' = Some "false".
Proof.
  intros Hc.
  destruct (nth_error (nodes s) card) as [nd|] eqn:E; [|apply nth_error_None in E; lia].
  cbv [closeCertificatePreview andThen node read write change pure]. rewrite E.
  eexists. split; [reflexivity|]. split; [|split].
  - unfold wiring. cbn. now rewrite !length_update.
  - intros k. unfold previewOpen. rewrite hasClass_write. cbn [nodes with_nodes].
    rewrite nth_update. unfold hasClass.
    destruct (Nat.eqb k card); destruct (nth_error (nodes s) k); cbn [option_map negb andb];
      try reflexivity.
    unfold contains at 1. cbn [with_ariaExpanded n_classes]. fold (contains "cert-card-active" (remove "cert-card-active" n)).
    now rewrite contains_remove.
  - rewrite ariaOf_write. cbn [nodes with_nodes]. rewrite nth_update, Nat.eqb_refl, E.
    reflexivity.
Qed.

(** The loop of [toggleCertificatePreview]: every card of the list other
    than the card toggled is closed. *)
Lemma close_others (card : nat) (cards : list nat) :
  forall s, (forall k, In k cards -> (k < List.length (nodes s))%nat) ->
  exists s',
    forEach cards (fun activeCard =>
      if negb (Nat.eqb activeCard card) then closeCertificatePreview activeCard else pure tt) s
    = Done tt s'
    /\ wiring s' = wiring s
    /\ forall k, previewOpen k s'
                 = negb (existsb (Nat.eqb k) cards && negb (Nat.eqb k card)) && previewOpen k s.
Proof.
  induction cards as [|x cards IH]; intros s Hv; cbn [forEach].
  - exists s. repeat split.
  - assert (S1 : exists s1,
      (if negb (Nat.eqb x card) then closeCertificatePreview x else pure tt) s = Done tt s1
      /\ wiring s1 = wiring s
      /\ forall k, previewOpen k s1
                   = negb (Nat.eqb k x && negb (Nat.eqb k card)) && previewOpen k s).
    { destruct (Nat.eqb_spec x card) as [->|N]; cbn [negb].
      - exists s. repeat split. intros k. now destruct (Nat.eqb k card).
      - destruct (closeCertificatePreview_closes x s) as (s1 & E1 & W1 & C1 & _);
          [apply Hv; now left|].
        exists s1. repeat split; [exact E1 | exact W1|].
        intros k. rewrite C1. destruct (Nat.eqb_spec k x) as [->|]; [|reflexivity].
        apply Nat.eqb_neq in N. now rewrite N. }
    destruct S1 as (s1 & E1 & W1 & C1).
    destruct (IH s1) as (s2 & E2 & W2 & C2).
    { intros k Hk. rewrite (wiring_length _ _ W1). apply Hv. now right. }
    exists s2. unfold andThen at 1. rewrite E1. split; [exact E2|]. split; [congruence|].
    intros k. rewrite C2, C1. cbn [existsb].
    destruct (Nat.eqb k x), (existsb (Nat.eqb k) cards), (Nat.eqb k card), (previewOpen k s);
      reflexivity.
Qed.

Lemma existsb_In (k : nat) (l : list nat) : existsb (Nat.eqb k) l = true <-> In k l.
Proof.
  rewrite existsb_exists. split.
  - intros (x & Hx & E). apply Nat.eqb_eq in E. now subst.
  - intros H. exists k. split; [exact H | apply Nat.eqb_refl].
Qed.

(** What [toggleCertificatePreview] does to a card of the page. *)
Lemma toggleCertificatePreview_effect (card : nat) (s : State) :
  (card < List.length (nodes s))%nat ->
  exists s', toggleCertificatePreview card s = Done tt s'
    /\ previewOpen card s' = negb (previewOpen card s)
    /\ (forall k, k <> card -> previewOpen k s' = false)
    /\ ariaOf card s' = Some (if previewOpen card s then "false" else "true").
Proof.
  intros Hc.
  destruct (nth_error (nodes s) card) as [nd|] eqn:E; [|apply nth_error_None in E; lia].
  assert (Hp : previewOpen card s = contains "cert-card-active" nd).
  { unfold previewOpen, hasClass. now rewrite E. }
  assert (T : toggleCertificatePreview card s
              = andThen
                  (forEach (activeFrom 0 (nodes s)) (fun activeCard =>
                     if negb (Nat.eqb activeCard card)
                     then closeCertificatePreview activeCard else pure tt))
                  (fun _ => if contains "cert-card-active" nd
                            then closeCertificatePreview card
                            else openCertificatePreview card) s).
  { cbv [toggleCertificatePreview andThen node read pure]. now rewrite E. }
  rewrite T. clear T.
  destruct (close_others card (activeFrom 0 (nodes s)) s) as (s1 & E1 & W1 & C1).
  { intros k Hk. now apply openCards_valid. }
  unfold andThen at 1. rewrite E1.
  assert (Hc1 : (card < List.length (nodes s1))%nat) by now rewrite (wiring_length _ _ W1).
  assert (O1 : forall k, k <> card -> previewOpen k s1 = false).
  { intros k N. rewrite C1. destruct (previewOpen k s) eqn:P; [|now rewrite andb_false_r].
    apply previewOpen_In in P. apply existsb_In in P. unfold openCards in P. rewrite P.
    apply Nat.eqb_neq in N. now rewrite N. }
  assert (P1 : previewOpen card s1 = previewOpen card s).
  { rewrite C1, Nat.eqb_refl. cbn. now rewrite andb_false_r. }
  rewrite <- Hp. destruct (previewOpen card s) eqn:P.
  - destruct (closeCertificatePreview_closes card s1 Hc1) as (s2 & E2 & _ & C2 & A2).
    exists s2. split; [exact E2|]. split; [|split; [|exact A2]].
    + now rewrite C2, Nat.eqb_refl.
    + intros k N. rewrite C2, (O1 k N). apply andb_false_r.
  - destruct (nth_error (nodes s1) card) as [nd1|] eqn:E1'; [|apply nth_error_None in E1'; lia].
    set (s2 := with_nodes (update_nth card (add "cert-card-active") (nodes s1)) s1).
    set (s3 := with_nodes (update_nth card (with_ariaExpanded "true") (nodes s2)) s2).
    assert (T : openCertificatePreview card s1
                = match n_preview nd1 with
                  | Some preview => write preview (with_animation "certificateAppear 0.6s ease-out")
                  | None => pure tt
                  end s3).
    { cbv [openCertificatePreview andThen node read write change pure]. rewrite E1'.
      now destruct (n_preview nd1). }
    rewrite T. clear T.
    assert (R : forall (pv : option nat),
      (forall k, previewOpen k s3 = (Nat.eqb k card) || previewOpen k s1) ->
      ariaOf card s3 = Some "true" ->
      exists s', match pv with
                 | Some preview => write preview (with_animation "certificateAppear 0.6s ease-out")
                 | None => pure tt
                 end s3 = Done tt s'
        /\ previewOpen card s' = negb false
        /\ (forall k, k <> card -> previewOpen k s' = false)
        /\ ariaOf card s' = Some "true").
    { intros pv C3 A3. destruct pv as [pv|].
      - eexists. split; [reflexivity|].
        assert (C4 : forall k, previewOpen k (with_nodes (update_nth pv
                       (with_animation "certificateAppear 0.6s ease-out") (nodes s3)) s3)
                     = previewOpen k s3).
        { intros k. unfold previewOpen. now apply hasClass_write_same. }
        split; [|split].
        + now rewrite C4, C3, Nat.eqb_refl.
        + intros k N. rewrite C4, C3, (O1 k N). apply Nat.eqb_neq in N. now rewrite N.
        + rewrite ariaOf_write. unfold ariaOf in A3.
          destruct (nth_error (nodes s3) card); [|discriminate].
          now destruct (Nat.eqb card pv).
      - exists s3. split; [reflexivity|]. split; [|split; [|exact A3]].
        + now rewrite C3, Nat.eqb_refl.
        + intros k N. rewrite C3, (O1 k N). apply Nat.eqb_neq in N. now rewrite N. }
    apply R.
    + intros k. unfold previewOpen, s3. rewrite hasClass_write_same by reflexivity.
      unfold s2. rewrite hasClass_write. unfold hasClass.
      destruct (Nat.eqb_spec k card) as [->|N].
      * rewrite E1'. rewrite contains_add. reflexivity.
      * now destruct (nth_error (nodes s1) k).
    + unfold s3. rewrite ariaOf_write. unfold s2. cbn [nodes with_nodes].
      rewrite nth_update, Nat.eqb_refl, E1'. reflexivity.
Qed.

(** [toggleCertificatePreview] turns the preview of the card over and leaves
    no other preview open; [aria-expanded] on the card says which. *)
Theorem toggle_leaves_one_preview (card : nat) (s : State) :
  (card < List.length (nodes s))%nat ->
  let s' := state_after (toggleCertificatePreview card s) in
  toggleCertificatePreview card s = Done tt s'
  /\ previewOpen card s' = negb (previewOpen card s)
  /\ (forall k, k <> card -> previewOpen k s' = false)
  /\ ariaOf card s' = Some (if previewOpen card s then "false" else "true").
Proof.
  intros Hc. cbv zeta.
  destruct (toggleCertificatePreview_effect card s Hc) as (s' & E & H).
  rewrite E. cbn [state_after]. split; [reflexivity | exact H].
Qed.

Lemma toggle_leaves_one_preview_witness :
  let s1 := state_after (toggleCertificatePreview 6 sampleSite) in
  let s2 := state_after (toggleCertificatePreview 7 s1) in
  openCards s1 = [6%nat] /\ openCards s2 = [7%nat]
  /\ previewOpen 6 s2 = false /\ ariaOf 6 s2 = Some "false" /\ ariaOf 7 s2 = Some "true".
Proof.
  cbv zeta.
  destruct (toggle_leaves_one_preview 7 (state_after (toggleCertificatePreview 6 sampleSite))
              ltac:(vm_compute; lia)) as (_ & _ & H & A).
  split; [vm_compute; reflexivity|]. split; [vm_compute; reflexivity|].
  split; [apply H; lia|]. split; [vm_compute; reflexivity | exact A].
Defined.

(** A write that switches the class on for no element leaves no more
    elements with the class. *)
Lemma filter_update_le (p : Node -> bool) (f : Node -> Node) (k : nat) (l : list Node) :
  (forall nd, p (f nd) = true -> p nd = true) ->
  (List.length (filter p (update_nth k f l)) <= List.length (filter p l))%nat.
Proof.
  intros Hf. revert k; induction l as [|nd l IH]; intros k; [now destruct k|].
  destruct k as [|k]; cbn [update_nth filter].
  - destruct (p (f nd)) eqn:E; [rewrite (Hf _ E); reflexivity|].
    destruct (p nd); cbn [List.length]; lia.
  - specialize (IH k). destruct (p nd); cbn [List.length]; lia.
Qed.

Lemma filter_none (p : Node -> bool) (l : list Node) :
  (forall k nd, nth_error l k = Some nd -> p nd = false) -> filter p l = [].
Proof.
  induction l as [|x l IH]; intros H; [reflexivity|]. cbn [filter].
  rewrite (H 0%nat x eq_refl). apply IH. intros k nd Hk. exact (H (S k) nd Hk).
Qed.

(** Where every element but one is without the class, at most one has it. *)
Lemma filter_at_most_one (p : Node -> bool) (l : list Node) :
  forall c, (forall k nd, nth_error l k = Some nd -> k <> c -> p nd = false) ->
  (List.length (filter p l) <= 1)%nat.
Proof.
  induction l as [|nd l IH]; intros c H; cbn [filter]; [cbn; lia|].
  destruct c as [|c].
  - rewrite (filter_none p l).
    + destruct (p nd); cbn; lia.
    + intros k y Hk. apply (H (S k) y Hk). lia.
  - rewrite (H 0%nat nd eq_refl) by lia. apply (IH c).
    intros k y Hk Nk. apply (H (S k) y Hk). lia.
Qed.

Ltac class_off :=
  let nd := fresh "nd" in
  intros nd; unfold active;
  rewrite ?contains_add, ?contains_remove, ?contains_toggle; cbn;
  first [ exact (fun H => H) | discriminate ].

Ltac preview_leaf :=
  let s := fresh "s" in let Hs := fresh "Hs" in
  intros s Hs;
  cbn [nodes with_nodes with_isMenuOpen with_currentSection with_animatedElements
       with_scrolledTo with_bodyOverflow];
  first [ exact Hs
        | eapply Nat.le_trans; [apply filter_update_le; class_off | exact Hs] ].

Lemma preview_closeMobileMenu :
  keeps (fun s => (List.length (filter active (nodes s)) <= 1)%nat) closeMobileMenu.
Proof. unfold closeMobileMenu. repeat site_step; preview_leaf. Qed.

Lemma preview_updateActiveNavLink (h : string) :
  keeps (fun s => (List.length (filter active (nodes s)) <= 1)%nat) (updateActiveNavLink h).
Proof. unfold updateActiveNavLink. repeat site_step; preview_leaf. Qed.

Lemma preview_toggle (card : nat) :
  keeps (fun s => (List.length (filter active (nodes s)) <= 1)%nat)
        (toggleCertificatePreview card).
Proof.
  intros s H. destruct (Nat.ltb_spec card (List.length (nodes s))) as [Hc|Hc].
  - destruct (toggleCertificatePreview_effect card s Hc) as (s' & E & _ & O & _).
    rewrite E. cbn [state_after]. apply (filter_at_most_one active (nodes s') card).
    intros k nd Hk N. specialize (O k N). unfold previewOpen, hasClass in O.
    now rewrite Hk in O.
  - apply nth_error_None in Hc.
    cbv [toggleCertificatePreview andThen node read]. rewrite Hc. exact H.
Qed.

Lemma preview_handle (ev : Event) :
  keeps (fun s => (List.length (filter active (nodes s)) <= 1)%nat) (handle ev).
Proof.
  destruct ev; cbn [handle]; try apply preview_toggle;
    unfold toggleMobileMenu, handleNavigation, handleKeyboardNavigation, handleOutsideClick,
      handleResize, handleSectionIntersection, animateElement, closeCertificatePreview;
    cbv zeta;
    repeat first [ apply preview_closeMobileMenu | apply preview_updateActiveNavLink
                 | site_step ];
    preview_leaf.
Qed.

(** Once at most one certificate preview is open, at most one is open
    whatever the manager handles next. *)
Theorem one_preview_at_a_time (s : State) (evs : list Event) :
  (List.length (openCards s) <= 1)%nat -> (List.length (openCards (play evs s)) <= 1)%nat.
Proof.
  unfold openCards. rewrite !activeFrom_length.
  revert s; induction evs as [|ev evs IH]; intros s H; cbn [play]; [exact H|].
  apply IH. now apply preview_handle.
Qed.

Lemma one_preview_at_a_time_witness :
  let evs := [ CardToggled 6; MenuClick; CardToggled 7; NavClick 3 (Some 5%nat);
               CardToggled 7; CardToggled 6; CardClosed 7 ] in
  (List.length (openCards (play evs sampleSite)) <= 1)%nat
  /\ openCards (play (firstn 1 evs) sampleSite) = [6%nat]
  /\ openCards (play (firstn 4 evs) sampleSite) = [7%nat]
  /\ openCards (play (firstn 5 evs) sampleSite) = []
  /\ openCards (play evs sampleSite) = [6%nat].
Proof.
  cbv zeta. split; [|repeat split; vm_compute; reflexivity].
  apply one_preview_at_a_time. vm_compute. lia.
Defined.

(** *** Animations *)

Ltac animated_leaf :=
  let s := fresh "s" in let Hs := fresh "Hs" in
  intros s Hs;
  cbn [animatedElements with_nodes with_isMenuOpen with_currentSection with_animatedElements
       with_scrolledTo with_bodyOverflow];
  first [ exact Hs | apply in_or_app; left; exact Hs ].

Lemma animated_closeMobileMenu (e : nat) :
  keeps (fun s => In e (animatedElements s)) closeMobileMenu.
Proof. unfold closeMobileMenu. repeat site_step; animated_leaf. Qed.

Lemma animated_updateActiveNavLink (e : nat) (h : string) :
  keeps (fun s => In e (animatedElements s)) (updateActiveNavLink h).
Proof. unfold updateActiveNavLink. repeat site_step; animated_leaf. Qed.

Lemma animated_handle (e : nat) (ev : Event) :
  keeps (fun s => In e (animatedElements s)) (handle ev).
Proof.
  destruct ev; cbn [handle]; unfold_handlers;
    repeat first [ apply animated_closeMobileMenu | apply animated_updateActiveNavLink
                 | site_step ];
    animated_leaf.
Qed.

Lemma animated_after_seen (e : nat) (s : State) :
  In e (animatedElements (state_after (animateElement e s))).
Proof.
  unfold animateElement. unfold andThen at 1, read.
  destruct (existsb (Nat.eqb e) (animatedElements s)) eqn:E.
  - cbn [pure state_after]. apply existsb_exists in E as (x & Hx & Ex).
    apply Nat.eqb_eq in Ex. now subst.
  - assert (K : keeps (fun s => In e (animatedElements s))
                  (andThen (node e) (fun nd =>
                     if contains "education-content" nd
                     then write e (add "animate-slide-left")
                     else if contains "skill-item" nd
                     then write e (add "animate-scale")
                     else if contains "project-card" nd
                     then write e (add "animate-fade-in")
                     else write e (add "animate-fade-in")))).
    { repeat site_step; animated_leaf. }
    unfold andThen at 1, change. apply K.
    cbn [animatedElements with_animatedElements]. apply in_or_app. right. now left.
Qed.

(** An element is animated once: after the manager has seen it, seeing it
    again changes nothing, whatever was handled in between. *)
Theorem animated_once (s : State) (element : nat) (evs : list Event) :
  let s1 := play (ElementSeen element :: evs) s in
  animateElement element s1 = Done tt s1.
Proof.
  cbv zeta. cbn [play handle].
  assert (H : In element (animatedElements (play evs (state_after (animateElement element s))))).
  { generalize (animated_after_seen element s).
    generalize (state_after (animateElement element s)).
    induction evs as [|ev evs IH]; intros s0 H0; cbn [play]; [exact H0|].
    apply IH. now apply animated_handle. }
  set (s1 := play evs (state_after (animateElement element s))) in *.
  unfold animateElement. unfold andThen at 1, read.
  assert (E : existsb (Nat.eqb element) (animatedElements s1) = true).
  { apply existsb_exists. exists element. split; [exact H | apply Nat.eqb_refl]. }
  now rewrite E.
Qed.

End SiteFacts.

(** ** The typewriter *)

Module TypewriterFacts.
Import JS Typewriter.
Local Open Scope list_scope.

Lemma substring_prefix (z : Z) (w : string) :
  (0 <= z <= Z.of_nat (String.length w))%Z ->
  substring 0 z w = String.substring 0 (Z.to_nat z) w.
Proof.
  intros H. unfold substring, clamp.
  replace (Z.min (Z.max 0 0) (Z.of_nat (String.length w))) with 0%Z by lia.
  replace (Z.min (Z.max z 0) (Z.of_nat (String.length w))) with z by lia.
  change (Z.to_nat 0) with 0%nat. rewrite Nat.min_0_l, Nat.max_0_l, Nat.sub_0_r. reflexivity.
Qed.

Lemma substring_none (w : string) : String.substring 0 0 w = "".
Proof. now destruct w. Qed.

Lemma ticks_app (phrases : list string) (a b : nat) (t : Typing) :
  ticks phrases (a + b) t
  = match ticks phrases a t with
    | None => None
    | Some (t', s1) =>
        match ticks phrases b t' with
        | None => None
        | Some (t'', s2) => Some (t'', s1 ++ s2)
        end
    end.
Proof.
  revert t; induction a as [|a IH]; intros t; cbn [Nat.add ticks].
  - now destruct (ticks phrases b t) as [[t'' s2]|].
  - destruct (typeWriter phrases t) as [[t1 d]|]; [|reflexivity]. rewrite IH.
    destruct (ticks phrases a t1) as [[t' s1]|]; [|reflexivity].
    now destruct (ticks phrases b t') as [[t'' s2]|].
Qed.

Section Phrase.
Variable phrases : list string.
Variable i : nat.
Variable w : string.
Hypothesis Hw : nth_error phrases i = Some w.

(** A letter is typed, the phrase not being complete yet. *)
Lemma types_a_letter (c : nat) (text : string) :
  (S c < String.length w)%nat ->
  typeWriter phrases {| currentPhrase := i; currentChar := Z.of_nat c; isDeleting := false;
                        textContent := text |}
  = Some ({| currentPhrase := i; currentChar := Z.of_nat (S c); isDeleting := false;
             textContent := String.substring 0 (S c) w |}, typewriterSpeed).
Proof.
  intros H. unfold typeWriter. cbn [currentPhrase currentChar isDeleting]. rewrite Hw.
  cbn [negb andb].
  replace (Z.of_nat c + 1)%Z with (Z.of_nat (S c)) by lia.
  rewrite substring_prefix by lia. rewrite Nat2Z.id.
  destruct (Z.eqb_spec (Z.of_nat (S c)) (Z.of_nat (String.length w))) as [E|_]; [lia|].
  reflexivity.
Qed.

(** The last letter is typed: the phrase is held for [typewriterDelay]. *)
Lemma types_the_last_letter (c : nat) (text : string) :
  S c = String.length w ->
  typeWriter phrases {| currentPhrase := i; currentChar := Z.of_nat c; isDeleting := false;
                        textContent := text |}
  = Some ({| currentPhrase := i; currentChar := Z.of_nat (S c); isDeleting := true;
             textContent := String.substring 0 (S c) w |}, typewriterDelay).
Proof.
  intros H. unfold typeWriter. cbn [currentPhrase currentChar isDeleting]. rewrite Hw.
  cbn [negb andb].
  replace (Z.of_nat c + 1)%Z with (Z.of_nat (S c)) by lia.
  rewrite substring_prefix by lia. rewrite Nat2Z.id.
  rewrite H, Z.eqb_refl. reflexivity.
Qed.

(** A letter is deleted, another being left. *)
Lemma deletes_a_letter (c : nat) (text : string) :
  (1 <= c)%nat -> (S c <= String.length w)%nat ->
  typeWriter phrases {| currentPhrase := i; currentChar := Z.of_nat (S c); isDeleting := true;
                        textContent := text |}
  = Some ({| currentPhrase := i; currentChar := Z.of_nat c; isDeleting := true;
             textContent := String.substring 0 c w |}, 50%Z).
Proof.
  intros H1 H2. unfold typeWriter. cbn [currentPhrase currentChar isDeleting]. rewrite Hw.
  cbn [negb andb].
  replace (Z.of_nat (S c) - 1)%Z with (Z.of_nat c) by lia.
  rewrite substring_prefix by lia. rewrite Nat2Z.id.
  destruct (Z.eqb_spec (Z.of_nat c) 0) as [E|_]; [lia|]. reflexivity.
Qed.

(** The last letter is deleted: the next phrase is the current one. *)
Lemma deletes_the_last_letter (text : string) :
  typeWriter phrases {| currentPhrase := i; currentChar := 1; isDeleting := true;
                        textContent := text |}
  = Some ({| currentPhrase := (i + 1) mod List.length phrases; currentChar := 0;
             isDeleting := false; textContent := "" |}, 50%Z).
Proof.
  unfold typeWriter. cbn [currentPhrase currentChar isDeleting]. rewrite Hw.
  cbn [negb andb Z.sub Z.add Z.opp Z.pos_sub Z.eqb].
  rewrite substring_prefix by lia. cbn [Z.to_nat]. now rewrite substring_none.
Qed.

Lemma typing (k c : nat) (text : string) :
  (c + S k < String.length w)%nat ->
  ticks phrases (S k) {| currentPhrase := i; currentChar := Z.of_nat c; isDeleting := false;
                         textContent := text |}
  = Some ({| currentPhrase := i; currentChar := Z.of_nat (c + S k); isDeleting := false;
             textContent := String.substring 0 (c + S k) w |}, repeat typewriterSpeed (S k)).
Proof.
  revert c text; induction k as [|k IH]; intros c text H.
  - cbn [ticks]. rewrite types_a_letter by lia. now rewrite Nat.add_1_r.
  - change (ticks phrases (S (S k)) ?t)
      with (match typeWriter phrases t with
            | None => None
            | Some (t', speed) =>
                match ticks phrases (S k) t' with
                | None => None
                | Some (t'', speeds) => Some (t'', speed :: speeds)
                end
            end).
    rewrite types_a_letter by lia. rewrite IH by lia.
    replace (S c + S k)%nat with (c + S (S k))%nat by lia. reflexivity.
Qed.

Lemma deleting (k c : nat) (text : string) :
  (1 <= c)%nat -> (c + S k <= String.length w)%nat ->
  ticks phrases (S k) {| currentPhrase := i; currentChar := Z.of_nat (c + S k);
                         isDeleting := true; textContent := text |}
  = Some ({| currentPhrase := i; currentChar := Z.of_nat c; isDeleting := true;
             textContent := String.substring 0 c w |}, repeat 50%Z (S k)).
Proof.
  revert text; induction k as [|k IH]; intros text H1 H2.
  - cbn [ticks]. rewrite Nat.add_1_r. now rewrite deletes_a_letter by lia.
  - change (ticks phrases (S (S k)) ?t)
      with (match typeWriter phrases t with
            | None => None
            | Some (t', speed) =>
                match ticks phrases (S k) t' with
                | None => None
                | Some (t'', speeds) => Some (t'', speed :: speeds)
                end
            end).
    replace (c + S (S k))%nat with (S (c + S k)) by lia.
    rewrite deletes_a_letter by lia. rewrite IH by lia. reflexivity.
Qed.

(** The first [k] calls of a phrase. *)
Lemma typed (k : nat) (text : string) :
  (1 <= k <= String.length w)%nat ->
  ticks phrases k (atPhrase i text)
  = Some ({| currentPhrase := i; currentChar := Z.of_nat k;
             isDeleting := (k =? String.length w)%nat;
             textContent := String.substring 0 k w |},
          repeat typewriterSpeed (k - 1)
          ++ [if (k =? String.length w)%nat then typewriterDelay else typewriterSpeed]).
Proof.
  intros H. unfold atPhrase. change 0%Z with (Z.of_nat 0).
  destruct k as [|k]; [lia|]. cbn [Nat.sub]. rewrite Nat.sub_0_r.
  destruct (Nat.eqb_spec (S k) (String.length w)) as [E|N].
  - destruct k as [|k].
    + cbn [ticks repeat app]. now rewrite types_the_last_letter.
    + replace (S (S k)) with (S k + 1)%nat by lia. rewrite ticks_app.
      rewrite typing by lia. cbn [ticks Nat.add]. rewrite types_the_last_letter by lia.
      replace (k + 1)%nat with (S k) by lia. reflexivity.
  - rewrite typing by lia. cbn [Nat.add].
    replace (repeat typewriterSpeed k ++ [typewriterSpeed])
      with (repeat typewriterSpeed (k + 1)) by (now rewrite repeat_app).
    now rewrite Nat.add_1_r.
Qed.

(** The [k] calls after the phrase is complete. *)
Lemma deleted (k : nat) (text : string) :
  (1 <= k <= String.length w)%nat ->
  ticks phrases k {| currentPhrase := i; currentChar := Z.of_nat (String.length w);
                     isDeleting := true; textContent := text |}
  = Some ({| currentPhrase := if (k =? String.length w)%nat
                              then (i + 1) mod List.length phrases else i;
             currentChar := Z.of_nat (String.length w - k);
             isDeleting := negb (k =? String.length w)%nat;
             textContent := String.substring 0 (String.length w - k) w |},
          repeat 50%Z k).
Proof.
  intros H. destruct k as [|k]; [lia|].
  destruct (Nat.eqb_spec (S k) (String.length w)) as [E|N]; cbn [negb].
  - rewrite <- E, Nat.sub_diag, substring_none. destruct k as [|k].
    + cbn [ticks repeat]. change (Z.of_nat 1) with 1%Z. now rewrite deletes_the_last_letter.
    + replace (S (S k)) with (S k + 1)%nat at 1 by lia. rewrite ticks_app.
      replace (S (S k)) with (1 + S k)%nat at 1 by lia.
      rewrite deleting by lia. cbn [ticks]. change (Z.of_nat 1) with 1%Z.
      rewrite deletes_the_last_letter.
      replace (repeat 50%Z (S k) ++ [50%Z]) with (repeat 50%Z (S k + 1)) by (now rewrite repeat_app).
      replace (S k + 1)%nat with (S (S k)) by lia. reflexivity.
  - replace (String.length w) with ((String.length w - S k) + S k)%nat at 1 by lia.
    now rewrite deleting by lia.
Qed.

End Phrase.

(** A phrase is typed a letter at a time, [typewriterSpeed] apart, held for
    [typewriterDelay] once complete, then deleted a letter every 50 ms, and
    with the last letter gone the next phrase is the current one, the first
    after the last: the state and the delays after [k] calls and after
    [k] more than the length of the phrase. *)
Theorem typewriter_cycle (phrases : list string) (i : nat) (w text : string) (k : nat) :
  nth_error phrases i = Some w -> (1 <= k <= String.length w)%nat ->
  let n := String.length w in
  ticks phrases k (atPhrase i text)
  = Some ({| currentPhrase := i; currentChar := Z.of_nat k; isDeleting := (k =? n)%nat;
             textContent := String.substring 0 k w |},
          repeat typewriterSpeed (k - 1)
          ++ [if (k =? n)%nat then typewriterDelay else typewriterSpeed])
  /\ ticks phrases (n + k) (atPhrase i text)
     = Some ({| currentPhrase := if (k =? n)%nat then (i + 1) mod List.length phrases else i;
                currentChar := Z.of_nat (n - k); isDeleting := negb (k =? n)%nat;
                textContent := String.substring 0 (n - k) w |},
             repeat typewriterSpeed (n - 1) ++ [typewriterDelay] ++ repeat 50%Z k).
Proof.
  intros Hw H. cbv zeta. split; [now apply typed|].
  rewrite ticks_app, (typed phrases i w Hw (String.length w) text) by lia.
  rewrite Nat.eqb_refl, (deleted phrases i w Hw k) by lia.
  now rewrite <- app_assoc.
Qed.

Lemma typewriter_cycle_witness :
  ticks phrases 8 (atPhrase 1 "")
  = Some ({| currentPhrase := 1; currentChar := 8; isDeleting := false;
             textContent := "Frontend" |}, repeat 100%Z 8)
  /\ ticks phrases (19 + 19) (atPhrase 1 "")
     = Some (atPhrase 2 "", repeat 100%Z 18 ++ [2000%Z] ++ repeat 50%Z 19).
Proof.
  split.
  - exact (proj1 (typewriter_cycle phrases 1 "Frontend Enthusiast" "" 8 eq_refl
                    ltac:(cbn; lia))).
  - exact (proj2 (typewriter_cycle phrases 1 "Frontend Enthusiast" "" 19 eq_refl
                    ltac:(cbn; lia))).
Defined.

(** *** The typewriter never stops *)

Lemma on_a_phrase (phrases : list string) (j : nat) :
  (j < List.length phrases)%nat -> Forall (fun w => w <> "") phrases ->
  exists w, nth_error phrases j = Some w /\ (1 <= String.length w)%nat.
Proof.
  intros Hj Hne. destruct (nth_error phrases j) as [w|] eqn:E.
  - exists w. split; [reflexivity|]. rewrite Forall_forall in Hne.
    specialize (Hne w (nth_error_In _ _ E)). destruct w; [congruence | cbn; lia].
  - apply nth_error_None in E. lia.
Qed.

Lemma typeWriter_goes_on (phrases : list string) (t : Typing) :
  Forall (fun w => w <> "") phrases ->
  inCycle phrases t ->
  exists t' speed, typeWriter phrases t = Some (t', speed)
                   /\ inCycle phrases t' /\ showsPrefix phrases t'.
Proof.
  intros Hne (w & Hw & Hc).
  assert (Hn : (currentPhrase t < List.length phrases)%nat).
  { apply nth_error_Some. congruence. }
  destruct t as [i c d text]. cbn [currentPhrase currentChar isDeleting] in *.
  destruct d.
  - (* deleting *)
    destruct (Z.eq_dec c 1) as [->|N].
    + rewrite (deletes_the_last_letter phrases i w Hw). do 2 eexists. split; [reflexivity|].
      assert (Hm : ((i + 1) mod List.length phrases < List.length phrases)%nat)
        by (apply Nat.mod_upper_bound; lia).
      destruct (on_a_phrase phrases _ Hm Hne) as (w' & Hw' & Hl).
      split; exists w'; cbn [currentPhrase currentChar isDeleting textContent];
        (split; [exact Hw'|]); [lia | now rewrite substring_none].
    + replace c with (Z.of_nat (S (Z.to_nat (c - 1)))) by lia.
      rewrite (deletes_a_letter phrases i w Hw) by lia. do 2 eexists. split; [reflexivity|].
      split; exists w; cbn [currentPhrase currentChar isDeleting textContent];
        (split; [exact Hw|]); [lia | now rewrite Nat2Z.id].
  - (* typing *)
    replace c with (Z.of_nat (Z.to_nat c)) by lia.
    destruct (Nat.eq_dec (S (Z.to_nat c)) (String.length w)) as [E|N].
    + rewrite (types_the_last_letter phrases i w Hw) by exact E.
      do 2 eexists. split; [reflexivity|].
      split; exists w; cbn [currentPhrase currentChar isDeleting textContent];
        (split; [exact Hw|]); [lia | now rewrite Nat2Z.id].
    + rewrite (types_a_letter phrases i w Hw) by lia.
      do 2 eexists. split; [reflexivity|].
      split; exists w; cbn [currentPhrase currentChar isDeleting textContent];
        (split; [exact Hw|]); [lia | now rewrite Nat2Z.id].
Qed.

Lemma ticks_go_on (phrases : list string) (m : nat) :
  Forall (fun w => w <> "") phrases ->
  forall t, inCycle phrases t ->
  exists t' speeds, ticks phrases (S m) t = Some (t', speeds)
                    /\ inCycle phrases t' /\ showsPrefix phrases t'.
Proof.
  intros Hne. induction m as [|m IH]; intros t Ht.
  - destruct (typeWriter_goes_on phrases t Hne Ht) as (t' & d & E & H1 & H2).
    exists t', [d]. cbn [ticks]. now rewrite E.
  - destruct (typeWriter_goes_on phrases t Hne Ht) as (t1 & d & E & H1 & _).
    destruct (IH t1 H1) as (t' & ds & E' & H2 & H3).
    exists t', (d :: ds).
    change (ticks phrases (S (S m)) t)
      with (match typeWriter phrases t with
            | None => None
            | Some (t', speed) =>
                match ticks phrases (S m) t' with
                | None => None
                | Some (t'', speeds) => Some (t'', speed :: speeds)
                end
            end).
    now rewrite E, E'.
Qed.

(** Over phrases none of which is empty, [typeWriter] never throws, however
    often its timer fires, and after each call the element shows the first
    [currentChar] letters of the current phrase. *)
Theorem typewriter_shows_a_prefix (phrases : list string) (text : string) (m : nat) :
  phrases <> [] -> Forall (fun w => w <> "") phrases ->
  exists t speeds, ticks phrases (S m) (start text) = Some (t, speeds)
                   /\ showsPrefix phrases t.
Proof.
  intros H0 Hne.
  assert (Hs : inCycle phrases (start text)).
  { destruct (on_a_phrase phrases 0) as (w & Hw & Hl); [destruct phrases; [congruence|cbn; lia] | exact Hne |].
    exists w. split; [exact Hw|]. cbn. lia. }
  destruct (ticks_go_on phrases m Hne _ Hs) as (t & ds & E & _ & H).
  now exists t, ds.
Qed.

Lemma typewriter_shows_a_prefix_witness :
  exists t speeds, ticks phrases 100 (start "") = Some (t, speeds) /\ showsPrefix phrases t.
Proof.
  apply (typewriter_shows_a_prefix phrases "" 99).
  - discriminate.
  - repeat constructor; discriminate.
Defined.

End TypewriterFacts.

(** ** The throttle and the debounce *)

Module TimingFacts.
Import Timing.
Local Open Scope list_scope.
Local Open Scope Z_scope.


(** *** throttle *)

Section Throttled.
Import Throttle.
Context {A : Type}.
Variable limit : Z.







End Throttled.



(** *** debounce *)

Section Debounced.
Import Debounce.
Context {A : Type}.
Variable delay : Z.







End Debounced.




End TimingFacts.
